(** * Point-set structures of nibabel ([nibabel/pointset.py])

    A shallow embedding of the module: the numpy operations it calls are
    written out on lists of rows, Python objects live in an explicit heap so
    that sharing of the coordinate array is visible, and every function that
    can raise returns a [result].  The theorems at the end relate the
    embedding to the module's specification. *)

From Stdlib Require Import Floats.PrimFloat.
From Stdlib Require Import QArith Qabs.
From stdpp Require Import base list strings numbers.
Close Scope Q_scope.
Set Warnings "-register-all,-inexact-float".

(** ** Exceptions and results *)

(** The exceptions the module can raise.  Messages are the fixed part of the
    source's f-strings; the interpolated array is left out.  [Unmodelled]
    marks Python behaviour outside this embedding (dangling references,
    foreign objects standing in for arrays); no theorem concludes it. *)
Inductive exn :=
| ValueError (msg : string)
| TypeError (msg : string)
| IndexError (msg : string)
| KeyError (key : string)
| AttributeError (msg : string)
| StopIteration
| NotImplementedError
| Unmodelled (what : string).

Inductive result (A : Type) :=
| Ok (a : A)
| Raise (e : exn).
Arguments Ok {A} a.
Arguments Raise {A} e.

#[global] Instance result_ret : MRet result := λ A a, Ok a.
#[global] Instance result_bind : MBind result := λ A B f r,
  match r with
  | Ok a => f a
  | Raise e => Raise e
  end.

Definition is_ok {A} (r : result A) : bool :=
  match r with Ok _ => true | Raise _ => false end.

(** ** Element types

    One scalar type stands for the element type of every numeric array.
    [isclose] is numpy's [isclose] at its default tolerances, [of_int] the
    conversion of an integer array to the element type, [to_index] the
    conversion numpy applies to a value used as an index or an extent (it
    fails for a non-integer element type). *)
Class Scalar (R : Type) := {
  szero : R;
  sone : R;
  sadd : R → R → R;
  smul : R → R → R;
  seqb : R → R → bool;
  sleb : R → R → bool;
  isclose : R → R → bool;
  of_int : Z → R;
  to_index : R → option Z
}.

(** The element for an index. *)
Definition of_nat {R} `{Scalar R} (n : nat) : R := of_int (Z.of_nat n).

(** Exact comparison: [==] on elements decides equality. *)
Class ExactEq (R : Type) `{Scalar R} : Prop :=
  seqb_eq : ∀ x y : R, seqb x y = true ↔ x = y.

(** The laws of exact arithmetic, for the results that need them. *)
Class ExactScalar (R : Type) `{Scalar R} : Prop := {
  exact_eq :: ExactEq R;
  sadd_0_l : ∀ x : R, sadd szero x = x;
  sadd_0_r : ∀ x : R, sadd x szero = x;
  sadd_comm : ∀ x y : R, sadd x y = sadd y x;
  sadd_assoc : ∀ x y z : R, sadd x (sadd y z) = sadd (sadd x y) z;
  smul_0_l : ∀ x : R, smul szero x = szero;
  smul_0_r : ∀ x : R, smul x szero = szero;
  smul_1_l : ∀ x : R, smul sone x = x;
  smul_assoc : ∀ x y z : R, smul x (smul y z) = smul (smul x y) z;
  smul_add_l : ∀ x y z : R, smul x (sadd y z) = sadd (smul x y) (smul x z);
  smul_add_r : ∀ x y z : R, smul (sadd x y) z = sadd (smul x z) (smul y z)
}.

(** Integer arrays: comparison within tolerance is equality, since the
    tolerance [1e-8 + 1e-5 * |b|] is below one for the entries of an
    identity matrix. *)
#[global] Instance Z_scalar : Scalar Z := {|
  szero := 0%Z;
  sone := 1%Z;
  sadd := Z.add;
  smul := Z.mul;
  seqb := Z.eqb;
  sleb := Z.leb;
  isclose := Z.eqb;
  of_int := λ z, z;
  to_index := Some
|}.

(** Rational arrays stand for floating-point ones where the tolerance
    matters: [|a - b| <= atol + rtol * |b|] with numpy's defaults. *)
Definition rtol : Q := (1 # 100000)%Q.
Definition atol : Q := (1 # 100000000)%Q.

#[global] Instance Q_scalar : Scalar Q := {|
  szero := 0%Q;
  sone := 1%Q;
  sadd := Qplus;
  smul := Qmult;
  seqb := Qeq_bool;
  sleb := Qle_bool;
  isclose := λ a b, Qle_bool (Qabs (a - b)) (atol + rtol * Qabs b)%Q;
  of_int := inject_Z;
  to_index := λ _, None
|}.

(** Arrays of [float64]: IEEE binary64 with rounding to nearest, which is
    what numpy computes with; the tolerances are the doubles nearest to
    [1e-5] and [1e-8]. *)
Fixpoint float_of_pos (p : positive) : PrimFloat.float :=
  match p with
  | xH => 1%float
  | xO q => PrimFloat.mul 2%float (float_of_pos q)
  | xI q => PrimFloat.add (PrimFloat.mul 2%float (float_of_pos q)) 1%float
  end.

Definition float_of_Z (z : Z) : PrimFloat.float :=
  match z with
  | Z0 => 0%float
  | Zpos p => float_of_pos p
  | Zneg p => PrimFloat.opp (float_of_pos p)
  end.

#[global] Instance float_scalar : Scalar PrimFloat.float := {|
  szero := 0%float;
  sone := 1%float;
  sadd := PrimFloat.add;
  smul := PrimFloat.mul;
  seqb := PrimFloat.eqb;
  sleb := PrimFloat.leb;
  isclose := λ a b,
    PrimFloat.leb (PrimFloat.abs (PrimFloat.sub a b))
      (PrimFloat.add 1e-8%float (PrimFloat.mul 1e-5%float (PrimFloat.abs b)));
  of_int := float_of_Z;
  to_index := λ _, None
|}.

(** ** Two-dimensional arrays *)

(** A numpy array with [ndim = 2]: its shape and its rows.  The shape is
    kept apart from the rows so that arrays without rows still have a
    column count. *)
Record ndarray (R : Type) := NdArray {
  shape : nat * nat;
  data : list (list R)
}.
Arguments NdArray {R} shape data.
Arguments shape {R} _.
Arguments data {R} _.

Definition wf_ndarray {R} (a : ndarray R) : Prop :=
  length (data a) = (shape a).1 ∧ Forall (λ r, length r = (shape a).2) (data a).

Definition wf_ndarrayb {R} (a : ndarray R) : bool :=
  (length (data a) =? (shape a).1) &&
  forallb (λ r, length r =? (shape a).2) (data a).

Definition shape_eqb (s t : nat * nat) : bool :=
  (s.1 =? t.1) && (s.2 =? t.2).

Definition map_array {A B} (f : A → B) (a : ndarray A) : ndarray B :=
  NdArray (shape a) (map (map f) (data a)).

Section numpy.
Context {R : Type} `{Scalar R}.

(** [np.eye(n)] *)
Definition np_eye (n : nat) : ndarray R :=
  NdArray (n, n)
    (map (λ i, map (λ j, if i =? j then sone else szero) (seq 0 n)) (seq 0 n)).

(** Column [j] of the rows [b]. *)
Definition column (j : nat) (b : list (list R)) : list R :=
  map (λ r, nth j r szero) b.

(** [a.T] *)
Definition transpose (a : ndarray R) : ndarray R :=
  NdArray ((shape a).2, (shape a).1)
    (map (λ j, column j (data a)) (seq 0 (shape a).2)).

Definition dot (u v : list R) : R :=
  foldr sadd szero (zip_with smul u v).

(** Row vector times matrix: entry [j] is the sum over [k] of
    [u[k] * b[k][j]]. *)
Definition vecmat (u : list R) (b : ndarray R) : list R :=
  map (λ j, dot u (column j (data b))) (seq 0 (shape b).2).

(** [a @ b] *)
Definition np_matmul (a b : ndarray R) : result (ndarray R) :=
  if (shape a).2 =? (shape b).1
  then Ok (NdArray ((shape a).1, (shape b).2) (map (λ u, vecmat u b) (data a)))
  else Raise (ValueError "matmul: Input operand 1 has a mismatch in its core dimension 0").

(** [np.hstack((a, b))] *)
Definition np_hstack (a b : ndarray R) : result (ndarray R) :=
  if (shape a).1 =? (shape b).1
  then Ok (NdArray ((shape a).1, (shape a).2 + (shape b).2)
             (zip_with app (data a) (data b)))
  else Raise (ValueError "all the input array dimensions except for the concatenation axis must match exactly").

(** [a[:, :-1]] *)
Definition drop_last_column (a : ndarray R) : ndarray R :=
  NdArray ((shape a).1, (shape a).2 - 1)
    (map (take ((shape a).2 - 1)) (data a)).

(** [np.allclose(a, b)] for arrays of one shape; the module only compares
    an affine with the identity of its own row count. *)
Definition np_allclose (a b : ndarray R) : result bool :=
  if shape_eqb (shape a) (shape b)
  then Ok (forallb (λ '(u, v), forallb (λ '(x, y), isclose x y) (zip u v))
             (zip (data a) (data b)))
  else Raise (ValueError "operands could not be broadcast together").

(** Modelled from the spec: [strided_scalar] of [nibabel.fileslice], which
    is not part of the module; section 4.2 describes its result as a
    constant-value column. *)
Definition strided_scalar (shp : nat * nat) (scalar : R) : ndarray R :=
  NdArray shp (replicate shp.1 (replicate shp.2 scalar)).

(** [a[-1, :-1]]: the last row without its last entry. *)
Definition last_row_init (a : ndarray R) : result (list R) :=
  match list.last (data a) with
  | Some r => Ok (take ((shape a).2 - 1) r)
  | None => Raise (IndexError "index -1 is out of bounds for axis 0 with size 0")
  end.

(** [a[-1, -1]] *)
Definition last_entry (a : ndarray R) : result R :=
  match list.last (data a) with
  | Some r =>
      match list.last r with
      | Some x => Ok x
      | None => Raise (IndexError "index -1 is out of bounds for axis 1 with size 0")
      end
  | None => Raise (IndexError "index -1 is out of bounds for axis 0 with size 0")
  end.

(** [np.any(v != x)] *)
Definition np_any_ne (v : list R) (x : R) : bool :=
  existsb (λ y, negb (seqb y x)) v.
End numpy.

(** [a.T] for any element type; [d] fills positions a ragged row lacks. *)
Definition transpose_with {A} (d : A) (a : ndarray A) : ndarray A :=
  NdArray ((shape a).2, (shape a).1)
    (map (λ j, map (λ r, nth j r d) (data a)) (seq 0 (shape a).2)).

(** ** Arrays of any number of axes

    Shape and elements in C order, as numpy stores a contiguous array. *)
Record ndarrayN (A : Type) := NdArrayN {
  nshape : list nat;
  flat : list A
}.
Arguments NdArrayN {A} nshape flat.
Arguments nshape {A} _.
Arguments flat {A} _.

(** [math.prod] *)
Definition math_prod (l : list nat) : nat := foldr Nat.mul 1 l.

(** [l] repeated [n] times. *)
Definition tile {A} (n : nat) (l : list A) : list A := concat (replicate n l).

(** ** GridIndices *)

Inductive np_dtype :=
| uint8 | uint16 | uint32 | uint64 | int8 | int16 | int32 | int64.

(** The values of an integer type: those from the first bound up to, and
    without, the second. *)
Definition dtype_range (d : np_dtype) : Z * Z :=
  match d with
  | uint8 => (0, 2 ^ 8)
  | uint16 => (0, 2 ^ 16)
  | uint32 => (0, 2 ^ 32)
  | uint64 => (0, 2 ^ 64)
  | int8 => (- 2 ^ 7, 2 ^ 7)
  | int16 => (- 2 ^ 15, 2 ^ 15)
  | int32 => (- 2 ^ 31, 2 ^ 31)
  | int64 => (- 2 ^ 63, 2 ^ 63)
  end%Z.

(** An integer stored in the type: it wraps around. *)
Definition dtype_cast (d : np_dtype) (z : Z) : Z :=
  let lo := (dtype_range d).1 in
  let hi := (dtype_range d).2 in
  (lo + (z - lo) mod (hi - lo))%Z.

(** The element type holds every index of an axis of each of the extents. *)
Definition dtype_holds (dt : option np_dtype) (shp : list nat) : Prop :=
  match dt with
  | Some d => Forall (λ s, (Z.of_nat s ≤ (dtype_range d).2)%Z) shp
  | None => True
  end.

(** [able_int_type] of [nibabel.casting] is not part of the module: it is a
    parameter.  It answers with an integer type, with [None], or raises. *)
Class Casting := { able_int_type : list nat → result (option np_dtype) }.

(** Modelled from the spec: the type [able_int_type] answers with fits the
    values it was asked about exactly (sections 3 and 4.6). *)
Class ExactCasting `{Casting} : Prop :=
  able_int_type_holds :
    ∀ shp dt, able_int_type shp = Ok dt → dtype_holds dt shp.

(** The slots of a [GridIndices] object. *)
Record GridIndices := mkGridIndices {
  gridshape : list nat;
  dtype : option np_dtype;
  lazy_shape : nat * nat
}.

(** [GridIndices.__init__]; [dtype or able_int_type(shape)] only calls
    [able_int_type] when no element type is passed. *)
Definition GridIndices_init `{Casting} (shp : list nat) (dt : option np_dtype)
    : result GridIndices :=
  dt' ← match dt with
        | Some d => Ok (Some d)
        | None => able_int_type shp
        end;
  mret (mkGridIndices shp dt' (math_prod shp, length shp)).

(** Entry [i] of [np.arange(s, dtype=dtype)]: the index, stored in the
    element type.  Without an element type numpy takes [int64], which holds
    the index of every axis that can be allocated. *)
Definition arange_value (dt : option np_dtype) (i : nat) : Z :=
  match dt with
  | Some d => dtype_cast d (Z.of_nat i)
  | None => Z.of_nat i
  end.

(** [np.arange(s, dtype=dtype)] *)
Definition np_arange (s : nat) (dt : option np_dtype) : list Z :=
  map (arange_value dt) (seq 0 s).

(** Axis [k] of a mesh of shape [shp]: [x] reshaped to
    [(1, .., len(x), .., 1)] and broadcast to [shp], in C order. *)
Definition broadcast_axis {A} (shp : list nat) (k : nat) (x : list A) : list A :=
  tile (math_prod (take k shp)) (x ≫= replicate (math_prod (drop (S k) shp))).

(** [np.meshgrid] of the axes with [copy=False, indexing=ij] *)
Definition np_meshgrid_ij {A} (axes : list (list A)) : list (ndarrayN A) :=
  let shp := map length axes in
  imap (λ k x, NdArrayN shp (broadcast_axis shp k x)) axes.

(** [np.reshape(arrays, (n, -1))]: the arrays are stacked, and the length of
    the open axis is the element count over [n]; numpy refuses when it
    cannot infer that length. *)
Definition np_reshape_rows {A} (arrays : list (ndarrayN A)) (n : nat)
    : result (ndarray A) :=
  let elems := arrays ≫= flat in
  let total := length elems in
  if (n =? 0) || negb (total mod n =? 0)
  then Raise (ValueError "cannot reshape array")
  else
    let c := total / n in
    Ok (NdArray (n, c) (map (λ i, take c (drop (i * c) elems)) (seq 0 n))).

(** [GridIndices.__array__] *)
Definition GridIndices_array (self : GridIndices) (dt : option np_dtype)
    : result (ndarray Z) :=
  let dt := match dt with None => dtype self | Some d => Some d end in
  let axes := map (λ s, np_arange s dt) (gridshape self) in
  grid ← np_reshape_rows (np_meshgrid_ij axes) (length axes);
  mret (transpose_with 0%Z grid).

(** The tuples over the ranges [0, extent_j) in row-major order, written
    after the spec: the first axis varies slowest. *)
Definition ij_rows (shp : list nat) : list (list nat) :=
  foldr (λ s acc, i ← seq 0 s; map (cons i) acc) [[]] shp.

(** The flat data of the meshgrid outputs for the extents [shp]. *)
Definition mesh_rows (shp : list nat) : list (list nat) :=
  imap (λ k s, broadcast_axis shp k (seq 0 s)) shp.

(** [GridIndices(shp, dtype=np.uint8)] *)
Definition uint8_grid (shp : list nat) : GridIndices :=
  mkGridIndices shp (Some uint8) (math_prod shp, length shp).

(** ** Python values and the heap *)

Definition aref := nat.
Definition oref := nat.

(** The values that reach the mesh constructors.  [VArray] refers to a
    coordinate array of the heap, [VObject] to an instance of a class of this
    module, [VDuck] is a foreign object with exactly the listed attributes
    and zero-argument methods, each method given by the outcome of its
    call. *)
Inductive pyval :=
| VNone
| VBool (b : bool)
| VStr (s : string)
| VArray (l : aref)
| VObject (l : oref)
| VTuple (items : list pyval)
| VDict (items : list (string * pyval))
| VDuck (fields : list (string * pyval)) (methods : list (string * result pyval)).

(** Lookup in an insertion-ordered dictionary. *)
Fixpoint dict_get {V} (d : list (string * V)) (k : string) : option V :=
  match d with
  | [] => None
  | (k', v) :: d' => if String.eqb k' k then Some v else dict_get d' k
  end.

(** [d[k] = v]: a present key keeps its position. *)
Fixpoint dict_set {V} (d : list (string * V)) (k : string) (v : V)
    : list (string * V) :=
  match d with
  | [] => [(k, v)]
  | (k', v') :: d' =>
      if String.eqb k' k then (k', v) :: d' else (k', v') :: dict_set d' k v
  end.

(** [dict(mapping)] from the items of the mapping. *)
Definition py_dict {V} (items : list (string * V)) : list (string * V) :=
  foldl (λ d kv, dict_set d kv.1 kv.2) [] items.

(** Whether a foreign object has the attribute or method [name]. *)
Definition duck_hasattr {V W} (fields : list (string * V))
    (methods : list (string * W)) (name : string) : bool :=
  match dict_get fields name, dict_get methods name with
  | None, None => false
  | _, _ => true
  end.

(** The instance attributes [Pointset.__init__] sets. *)
Record Pointset := mkPointset {
  coordinates : aref;
  affine : aref;
  homogeneous : bool
}.

(** The classes whose constructor is [Pointset.__init__]. *)
Inductive class := cls_Pointset | cls_Grid.

Inductive object :=
| OPointset (cls : class) (p : Pointset)
| OTriangularMesh (p : Pointset) (_triangles : pyval)
| OTriMeshFamily (_triangles : pyval) (_coords : list (string * pyval))
    (_default : string).

(** [SpatialImage] of [nibabel.spatialimages], as far as the module uses
    it: the data array and a reference to the affine. *)
Record SpatialImage (A : Type) := mkSpatialImage {
  dataobj : ndarrayN A;
  img_affine : aref
}.
Arguments mkSpatialImage {A} dataobj img_affine.
Arguments dataobj {A} _.
Arguments img_affine {A} _.

Section heap.
Context {R : Type} `{Scalar R}.

(** A coordinate array is a numpy array or a lazy [GridIndices]. *)
Inductive array_obj :=
| Dense (a : ndarray R)
| Lazy (g : GridIndices).

(** References are positions; allocation appends. *)
Record heap := Heap {
  arrays : list array_obj;
  objects : list object
}.

(** A computation reads and extends the heap and returns or raises. *)
Definition py (A : Type) : Type := heap → result A * heap.

#[global] Instance py_ret : MRet py := λ A a h, (Ok a, h).
#[global] Instance py_bind : MBind py := λ A B f m h,
  match m h with
  | (Ok a, h') => f a h'
  | (Raise e, h') => (Raise e, h')
  end.

Definition raise {A} (e : exn) : py A := λ h, (Raise e, h).

Definition lift {A} (r : result A) : py A := λ h, (r, h).

Definition new_array (o : array_obj) : py aref := λ h,
  (Ok (length (arrays h)), Heap (arrays h ++ [o]) (objects h)).

Definition new_object (o : object) : py oref := λ h,
  (Ok (length (objects h)), Heap (arrays h) (objects h ++ [o])).

Definition get_array (l : aref) : py array_obj := λ h,
  match arrays h !! l with
  | Some o => (Ok o, h)
  | None => (Raise (Unmodelled "dangling array reference"), h)
  end.

Definition get_object (l : oref) : py object := λ h,
  match objects h !! l with
  | Some o => (Ok o, h)
  | None => (Raise (Unmodelled "dangling object reference"), h)
  end.

(** The numpy array at [l]. *)
Definition get_dense (l : aref) : py (ndarray R) :=
  o ← get_array l;
  match o with
  | Dense a => mret a
  | Lazy _ => raise (Unmodelled "GridIndices used as an ndarray")
  end.

(** [a.shape] of a coordinate array. *)
Definition array_shape (l : aref) : py (nat * nat) :=
  o ← get_array l;
  match o with
  | Dense a => mret (shape a)
  | Lazy g => mret (lazy_shape g)
  end.

(** [np.asanyarray(a)]: a numpy array is returned as it is, a
    [GridIndices] is materialised by its [__array__] into a new array. *)
Definition np_asanyarray (l : aref) : py aref :=
  o ← get_array l;
  match o with
  | Dense _ => mret l
  | Lazy g =>
      a ← lift (GridIndices_array g None);
      new_array (Dense (map_array of_int a))
  end.
End heap.
Arguments heap R : clear implicits.
Arguments array_obj R : clear implicits.
Arguments py R A : clear implicits.

(** ** Pointset *)

Section pointset.
Context {R : Type} `{Scalar R}.

(** The coordinate array behind a value whose [shape] is read. *)
Definition as_coordinate_array (coordinates : pyval) : py R aref :=
  match coordinates with
  | VArray l => mret l
  | VNone | VBool _ | VStr _ | VTuple _ | VDict _ =>
      raise (AttributeError "object has no attribute 'shape'")
  | VDuck fields methods =>
      match dict_get fields "shape", dict_get methods "shape" with
      | None, None => raise (AttributeError "object has no attribute 'shape'")
      | _, _ => raise (Unmodelled "foreign coordinate array")
      end
  | VObject _ => raise (Unmodelled "pointset used as a coordinate array")
  end.

(** [Pointset.dim]: [self.coordinates.shape[1] - self.homogeneous] *)
Definition Pointset_dim (coordinates : pyval) (homogeneous : bool) : py R Z :=
  c ← as_coordinate_array coordinates;
  s ← array_shape c;
  mret (Z.of_nat s.2 - Z.b2z homogeneous)%Z.

(** [np.eye(n)] for a Python integer. *)
Definition np_eye_int (n : Z) : result (ndarray R) :=
  if (n <? 0)%Z then Raise (ValueError "negative dimensions are not allowed")
  else Ok (np_eye (Z.to_nat n)).

(** [shape != (d,) * 2] *)
Definition shape_ne (s : nat * nat) (d : Z) : bool :=
  negb ((Z.of_nat s.1 =? d)%Z && (Z.of_nat s.2 =? d)%Z).

(** [Pointset.__init__]: the attributes of the new instance, or the error
    the constructor raises. *)
Definition Pointset_init (coordinates : pyval) (affine : option aref)
    (homogeneous : bool) : py R Pointset :=
  a ← match affine with
      | None =>
          dim ← Pointset_dim coordinates homogeneous;
          eye ← lift (np_eye_int (dim + 1));
          new_array (Dense eye)
      | Some affine => np_asanyarray affine
      end;
  A ← get_dense a;
  dim ← Pointset_dim coordinates homogeneous;
  if shape_ne (shape A) (dim + 1)
  then raise (ValueError "Invalid affine for coordinates")
  else
    r ← lift (last_row_init A);
    if np_any_ne r szero
    then raise (ValueError "Invalid affine matrix")
    else
      x ← lift (last_entry A);
      if negb (seqb x sone)
      then raise (ValueError "Invalid affine matrix")
      else
        c ← as_coordinate_array coordinates;
        mret (mkPointset c a homogeneous).

(** [cls(coordinates, affine, homogeneous)] for [Pointset] and [Grid]. *)
Definition Pointset_new (cls : class) (coordinates : pyval)
    (affine : option aref) (homogeneous : bool) : py R oref :=
  p ← Pointset_init coordinates affine homogeneous;
  new_object (OPointset cls p).

(** [Pointset.__rmatmul__]: [replace(self, affine=...)] calls the
    constructor of the class of [self] with the new affine and then the
    other fields of [self] as keyword arguments; [TriangularMesh.__init__]
    takes none of them, and the first one passed is reported. *)
Definition Pointset_rmatmul (self : oref) (affine' : aref) : py R oref :=
  o ← get_object self;
  m ← np_asanyarray affine';
  M ← get_dense m;
  match o with
  | OPointset cls p =>
      A ← get_dense (affine p);
      MA ← lift (np_matmul M A);
      a ← new_array (Dense MA);
      Pointset_new cls (VArray (coordinates p)) (Some a) (homogeneous p)
  | OTriangularMesh p _ =>
      A ← get_dense (affine p);
      MA ← lift (np_matmul M A);
      _ ← new_array (Dense MA);
      raise (TypeError "__init__() got an unexpected keyword argument 'affine'")
  | OTriMeshFamily _ _ _ =>
      raise (AttributeError "'TriMeshFamily' object has no attribute 'affine'")
  end.

(** [Pointset._homogeneous_coords] *)
Definition Pointset_homogeneous_coords (self : Pointset) : py R aref :=
  if homogeneous self then np_asanyarray (coordinates self)
  else
    s ← array_shape (coordinates self);
    let ones := strided_scalar (s.1, 1) sone in
    c ← np_asanyarray (coordinates self);
    C ← get_dense c;
    stacked ← lift (np_hstack C ones);
    new_array (Dense stacked).

(** [Pointset.get_coords] on the attributes of [self]. *)
Definition Pointset_get_coords (self : Pointset) (as_homogeneous : bool)
    : py R aref :=
  A ← get_dense (affine self);
  ident ← lift (np_allclose A (np_eye (shape A).1));
  if Bool.eqb (homogeneous self) as_homogeneous && ident
  then np_asanyarray (coordinates self)
  else
    coords ← Pointset_homogeneous_coords self;
    coords ← (if negb ident
              then
                C ← get_dense coords;
                AC ← lift (np_matmul A (transpose C));
                new_array (Dense (transpose AC))
              else mret coords);
    if negb as_homogeneous
    then
      C ← get_dense coords;
      new_array (Dense (drop_last_column C))
    else mret coords.
End pointset.

(** ** TriangularMesh and TriMeshFamily *)

Section mesh.
Context {R : Type} `{Scalar R}.

(** [TriMeshFamily.get_coords(self, name=None)] *)
Definition TriMeshFamily_get_coords (self : oref) (name : pyval) : py R pyval :=
  o ← get_object self;
  match o with
  | OTriMeshFamily _ coords default =>
      name ← match name with
             | VNone => mret default
             | VStr s => mret s
             | _ => raise (Unmodelled "name that is not a string")
             end;
      match dict_get coords name with
      | Some c => mret c
      | None => raise (KeyError name)
      end
  | _ => raise (Unmodelled "not a TriMeshFamily")
  end.

(** Binding keyword arguments to the signature
    [get_coords(self, *, as_homogeneous=False)]: any other keyword is a
    [TypeError] before the body runs. *)
Fixpoint bind_as_homogeneous (kwargs : list (string * pyval)) (acc : bool)
    : result bool :=
  match kwargs with
  | [] => Ok acc
  | (k, v) :: kwargs' =>
      if String.eqb k "as_homogeneous"
      then match v with
           | VBool b => bind_as_homogeneous kwargs' b
           | _ => Raise (Unmodelled "as_homogeneous that is not a bool")
           end
      else Raise (TypeError "get_coords() got an unexpected keyword argument")
  end.

(** Binding keyword arguments to [get_coords(self, name=None)]. *)
Fixpoint bind_name (kwargs : list (string * pyval)) (acc : pyval)
    : result pyval :=
  match kwargs with
  | [] => Ok acc
  | (k, v) :: kwargs' =>
      if String.eqb k "name" then bind_name kwargs' v
      else Raise (TypeError "get_coords() got an unexpected keyword argument")
  end.

(** [self.get_coords] called with keyword arguments: the method is looked up in the class of
    [self]; only [TriMeshFamily] overrides [Pointset.get_coords]. *)
Definition call_get_coords (self : oref) (kwargs : list (string * pyval))
    : py R pyval :=
  o ← get_object self;
  match o with
  | OPointset _ p | OTriangularMesh p _ =>
      as_homogeneous ← lift (bind_as_homogeneous kwargs false);
      c ← Pointset_get_coords p as_homogeneous;
      mret (VArray c)
  | OTriMeshFamily _ _ _ =>
      name ← lift (bind_name kwargs VNone);
      TriMeshFamily_get_coords self name
  end.

(** [TriangularMesh.get_triangles] *)
Definition TriangularMesh_get_triangles (self : oref) : py R pyval :=
  o ← get_object self;
  match o with
  | OTriangularMesh _ triangles | OTriMeshFamily triangles _ _ => mret triangles
  | OPointset _ _ => raise (Unmodelled "not a TriangularMesh")
  end.

(** [TriangularMesh.get_mesh(self, name=None)] *)
Definition TriangularMesh_get_mesh (self : oref) (name : pyval) : py R pyval :=
  coords ← call_get_coords self [("name", name)];
  triangles ← TriangularMesh_get_triangles self;
  mret (VTuple [coords; triangles]).

(** [TriangularMesh.get_names] *)
Definition TriangularMesh_get_names (self : oref) : py R (list string) :=
  raise NotImplementedError.

(** [hasattr(mesh, name)], asked for [coords], [triangles] and [get_mesh]:
    built-in values and arrays have none of them, the classes of this
    module define [get_mesh] from [TriangularMesh] on. *)
Definition hasattr (mesh : pyval) (name : string) : py R bool :=
  match mesh with
  | VDuck fields methods => mret (duck_hasattr fields methods name)
  | VObject l =>
      o ← get_object l;
      match o with
      | OPointset _ _ => mret false
      | OTriangularMesh _ _ | OTriMeshFamily _ _ _ => mret (String.eqb name "get_mesh")
      end
  | _ => mret false
  end.

(** [mesh.name] *)
Definition getattr (mesh : pyval) (name : string) : py R pyval :=
  match mesh with
  | VDuck fields _ =>
      match dict_get fields name with
      | Some v => mret v
      | None => raise (Unmodelled "method read as an attribute")
      end
  | _ => raise (AttributeError name)
  end.

(** [mesh.get_mesh()] *)
Definition call_get_mesh (mesh : pyval) : py R pyval :=
  match mesh with
  | VDuck fields methods =>
      match dict_get methods "get_mesh" with
      | Some r => lift r
      | None => raise (TypeError "object is not callable")
      end
  | VObject l => TriangularMesh_get_mesh l VNone
  | _ => raise (AttributeError "get_mesh")
  end.

(** [a, b = v] *)
Definition unpack2 (v : pyval) : py R (pyval * pyval) :=
  match v with
  | VTuple [a; b] => mret (a, b)
  | VTuple (_ :: _ :: _ :: _) => raise (ValueError "too many values to unpack (expected 2)")
  | VTuple _ => raise (ValueError "not enough values to unpack (expected 2)")
  | VNone | VBool _ | VObject _ => raise (TypeError "cannot unpack non-iterable object")
  | VStr _ | VArray _ | VDict _ | VDuck _ _ => raise (Unmodelled "unpacking an iterable that is not a tuple")
  end.

(** The dispatch of [TriangularMesh.__init__] on the form of its input. *)
Definition mesh_parts (mesh : pyval) : py R (pyval * pyval) :=
  match mesh with
  | VTuple [coords; triangles] => mret (coords, triangles)
  | _ =>
      has_coords ← hasattr mesh "coords";
      has_triangles ← hasattr mesh "triangles";
      if has_coords && has_triangles
      then
        coords ← getattr mesh "coords";
        triangles ← getattr mesh "triangles";
        mret (coords, triangles)
      else
        has_get_mesh ← hasattr mesh "get_mesh";
        if (has_get_mesh : bool)
        then call_get_mesh mesh ≫= unpack2
        else raise (ValueError "Cannot interpret input as triangular mesh")
  end.

(** [TriangularMesh.__init__]: the parts of the input, then
    [Pointset.__init__] with the coordinates alone. *)
Definition TriangularMesh_init (mesh : pyval) : py R oref :=
  parts ← mesh_parts mesh;
  p ← Pointset_init parts.1 None false;
  new_object (OTriangularMesh p parts.2).

(** The loop of [TriMeshFamily.__init__] over the items of the mapping. *)
Fixpoint TriMeshFamily_init_loop (items : list (string * pyval))
    (triangles : pyval) (coords : list (string * pyval))
    : py R (pyval * list (string * pyval)) :=
  match items with
  | [] => mret (triangles, coords)
  | (name, mesh) :: items' =>
      m ← TriangularMesh_init mesh;
      r ← TriangularMesh_get_mesh m VNone;
      ct ← unpack2 r;
      let triangles' := match triangles with VNone => ct.2 | _ => triangles end in
      TriMeshFamily_init_loop items' triangles' (dict_set coords name ct.1)
  end.

(** [TriMeshFamily.__init__] *)
Definition TriMeshFamily_init (mapping : list (string * pyval))
    (default : option string) : py R oref :=
  tc ← TriMeshFamily_init_loop (py_dict mapping) VNone [];
  default ← match default with
            | Some d => mret d
            | None =>
                match tc.2 with
                | (name, _) :: _ => mret name
                | [] => raise StopIteration
                end
            end;
  new_object (OTriMeshFamily tc.1 tc.2 default).

(** [TriMeshFamily.get_names] *)
Definition TriMeshFamily_get_names (self : oref) : py R (list string) :=
  o ← get_object self;
  match o with
  | OTriMeshFamily _ coords _ => mret (map fst coords)
  | _ => raise (Unmodelled "not a TriMeshFamily")
  end.
End mesh.

(** ** Grid *)

Section grid.
Context {R : Type} `{Scalar R} `{Casting}.

(** [np.bool_(a)]: the truth value of every element. *)
Definition np_bool_ (a : ndarrayN R) : ndarrayN bool :=
  NdArrayN (nshape a) (map (λ x, negb (seqb x szero)) (flat a)).

(** The index along every axis of the element at position [i] of a
    contiguous array of shape [shp]. *)
Definition unravel (shp : list nat) (i : nat) : list nat :=
  imap (λ k s, (i / math_prod (drop (S k) shp)) mod s) shp.

(** [np.nonzero(a)]: one index list per axis, the true elements taken in C
    order. *)
Definition np_nonzero (a : ndarrayN bool) : list (list nat) :=
  let hits := concat (imap (λ i (b : bool), if b then [i] else []) (flat a)) in
  imap (λ k _, map (λ i, nth k (unravel (nshape a) i) 0) hits) (nshape a).

(** [np.c_[cols]]: one-dimensional arrays of one length as the columns of a
    two-dimensional array. *)
Definition np_c_ (cols : list (list nat)) : ndarray nat :=
  let count := match cols with c :: _ => length c | [] => 0 end in
  transpose_with 0 (NdArray (length cols, count) cols).

(** [Grid.from_image], from the shape and the affine of the image. *)
Definition Grid_from_image (img_shape : list nat) (img_affine : aref)
    : py R oref :=
  g ← lift (GridIndices_init (take 3 img_shape) None);
  c ← new_array (Lazy g);
  Pointset_new cls_Grid (VArray c) (Some img_affine) false.

(** [Grid.from_mask].  The element type [able_int_type] answers with is
    taken to represent the indices exactly (spec, section 4.6), so [astype]
    keeps their values. *)
Definition Grid_from_mask (mask : SpatialImage R) : py R oref :=
  let mask_arr := np_bool_ (dataobj mask) in
  match nshape mask_arr with
  | [] => raise (Unmodelled "mask without axes")
  | _ =>
      let idx := np_c_ (np_nonzero mask_arr) in
      _ ← lift (able_int_type (nshape (dataobj mask)));
      c ← new_array (Dense (map_array of_nat idx));
      Pointset_new cls_Grid (VArray c) (Some (img_affine mask)) false
  end.

(** [l[:stop]] *)
Definition py_slice_stop {A} (stop : Z) (l : list A) : list A :=
  if (stop <? 0)%Z
  then take (Z.to_nat (Z.max 0 (Z.of_nat (length l) + stop))) l
  else take (Z.to_nat stop) l.

(** [np.max(a, axis=1)]: the maximum of every row. *)
Definition np_max_axis1 (a : ndarray R) : result (list R) :=
  if (shape a).2 =? 0
  then Raise (ValueError "zero-size array to reduction operation maximum which has no identity")
  else Ok (map (λ r, match r with
                     | [] => szero
                     | x :: r' => foldl (λ m y, if sleb m y then y else m) x r'
                     end) (data a)).

(** The extents [np.zeros] accepts. *)
Definition extent (v : R) : result nat :=
  match to_index v with
  | None => Raise (TypeError "object cannot be interpreted as an integer")
  | Some z =>
      if (z <? 0)%Z then Raise (ValueError "negative dimensions are not allowed")
      else Ok (Z.to_nat z)
  end.

(** [np.zeros(shape, dtype='bool')] *)
Definition np_zeros (shp : list nat) : ndarrayN bool :=
  NdArrayN shp (replicate (math_prod shp) false).

(** An entry of an index array, applied to an axis of length [n]. *)
Definition axis_index (n : nat) (v : R) : result nat :=
  match to_index v with
  | None => Raise (IndexError "arrays used as indices must be of integer (or boolean) type")
  | Some z =>
      if (z <? - Z.of_nat n)%Z || (Z.of_nat n <=? z)%Z
      then Raise (IndexError "index is out of bounds for axis 0")
      else Ok (Z.to_nat (z mod Z.of_nat n))
  end.

(** [a[idx] = True] for an integer array [idx]: a single index array
    selects along the first axis only, so every entry of [idx] sets a whole
    slab [a[i, ...]]. *)
Definition setitem_true (a : ndarrayN bool) (idx : ndarray R)
    : result (ndarrayN bool) :=
  match nshape a with
  | [] => Raise (IndexError "too many indices for array")
  | n :: rest =>
      let slab := math_prod rest in
      hits ← mapM (axis_index n) (concat (data idx));
      Ok (NdArrayN (nshape a)
            (foldl (λ f i, take (i * slab) f ++ replicate slab true
                            ++ drop ((i + 1) * slab) f) (flat a) hits))
  end.

(** [a[:, :stop]] *)
Definition columns_to (stop : Z) (a : ndarray R) : ndarray R :=
  NdArray ((shape a).1, length (py_slice_stop stop (seq 0 (shape a).2)))
    (map (py_slice_stop stop) (data a)).

(** [Grid.to_mask]; the result stands for [SpatialImage(mask_arr, affine)]. *)
Definition Grid_to_mask (self : oref) (shape : option (list nat))
    : py R (SpatialImage bool) :=
  o ← get_object self;
  match o with
  | OPointset cls_Grid p =>
      shp ← match shape with
            | Some shp => mret shp
            | None =>
                c ← np_asanyarray (coordinates p);
                C ← get_dense c;
                m ← lift (np_max_axis1 C);
                dim ← Pointset_dim (VArray (coordinates p)) (homogeneous p);
                lift (mapM extent (py_slice_stop dim m))
            end;
      let mask_arr := np_zeros shp in
      c ← np_asanyarray (coordinates p);
      C ← get_dense c;
      dim ← Pointset_dim (VArray (coordinates p)) (homogeneous p);
      mask_arr ← lift (setitem_true mask_arr (columns_to dim C));
      mret (mkSpatialImage mask_arr (affine p))
  | _ => raise (Unmodelled "not a Grid")
  end.

(** The positions of the true elements of a volume, in C order. *)
Definition true_positions (a : ndarrayN bool) : list (list nat) :=
  concat (imap (λ i (b : bool), if b then [unravel (nshape a) i] else []) (flat a)).
End grid.

(** ** Specification-side definitions *)

Section spec.
Context {R : Type} `{Scalar R}.

(** What a coordinate array converts to. *)
Definition coords_of (o : array_obj R) : result (ndarray R) :=
  match o with
  | Dense a => Ok a
  | Lazy g => a ← GridIndices_array g None; mret (map_array of_int a)
  end.

Definition obj_shape (o : array_obj R) : nat * nat :=
  match o with
  | Dense a => shape a
  | Lazy g => lazy_shape g
  end.

(** The last row of a homogeneous transform of [n] rows. *)
Definition affine_last_row (n : nat) : list R :=
  replicate (n - 1) szero ++ [sone].

(** The invariant [Pointset.__init__] establishes: the coordinates convert
    to the rows [C], the affine is the square array [A] of [dim + 1] rows,
    and its last row is [0, .., 0, 1]. *)
Record valid_pointset (h : heap R) (p : Pointset) (C A : ndarray R) : Prop := {
  vp_coords : ∃ o, arrays h !! coordinates p = Some o ∧
                   coords_of o = Ok C ∧ obj_shape o = shape C;
  vp_wf_coords : wf_ndarray C;
  vp_affine : arrays h !! affine p = Some (Dense A);
  vp_wf_affine : wf_ndarray A;
  vp_square : (shape A).1 = (shape A).2;
  vp_dim : (shape A).1 + (if homogeneous p then 1 else 0) = (shape C).2 + 1;
  vp_last_row : list.last (data A) = Some (affine_last_row (shape A).1)
}.

(** [h'] keeps everything [h] holds. *)
Definition heap_extends (h h' : heap R) : Prop :=
  arrays h `prefix_of` arrays h' ∧ objects h `prefix_of` objects h'.

(** The spec's steps of [get_coords] on one point: homogenise, apply the
    affine, go back to Cartesian. *)
Definition homogenize (hom : bool) (v : list R) : list R :=
  if hom then v else v ++ [sone].

Definition apply_affine (A : ndarray R) (v : list R) : list R :=
  map (λ u, dot u v) (data A).

Definition cartesian (v : list R) : list R := take (length v - 1) v.

Definition transformed_point (A : ndarray R) (ident hom as_hom : bool)
    (v : list R) : list R :=
  let v := homogenize hom v in
  let v := if ident then v else apply_affine A v in
  if as_hom then v else cartesian v.


(** The outcome of constructing a mesh over the coordinates [c] (of [k]
    columns) and the triangles [t]: a new identity affine and a new mesh
    object. *)
Definition mesh_built (h : heap R) (c : aref) (t : pyval) (k : nat)
    : result oref * heap R :=
  (Ok (length (objects h)),
   Heap (arrays h ++ [Dense (np_eye (k + 1))])
        (objects h ++ [OTriangularMesh (mkPointset c (length (arrays h)) false) t])).

(** The three forms of input the spec lists for [TriangularMesh]. *)
Inductive mesh_form (h : heap R) : pyval → Prop :=
| form_pair (coords triangles : pyval) :
    mesh_form h (VTuple [coords; triangles])
| form_attributes (mesh : pyval) :
    hasattr mesh "coords" h = (Ok true, h) →
    hasattr mesh "triangles" h = (Ok true, h) →
    mesh_form h mesh
| form_accessor (mesh : pyval) :
    hasattr mesh "get_mesh" h = (Ok true, h) →
    mesh_form h mesh.
End spec.

(** Modelled from the spec: [able_int_type] of [nibabel.casting], the
    smallest integer type that represents the extents exactly (sections 3
    and 4.6); unsigned types are enough for extents. *)
#[global] Instance smallest_uint : Casting := {|
  able_int_type := λ shp,
    let m := Z.of_nat (foldr Nat.max 0 shp) in
    Ok (if (m <? 2 ^ 8)%Z then Some uint8
        else if (m <? 2 ^ 16)%Z then Some uint16
        else if (m <? 2 ^ 32)%Z then Some uint32
        else if (m <? 2 ^ 64)%Z then Some uint64
        else None)
|}.

(** ** Example data *)

Definition ex_coords : ndarray Z := NdArray (2, 3) [[1; 2; 3]; [4; 5; 6]]%Z.

Definition ex_affine : ndarray Z :=
  NdArray (4, 4) [[2; 0; 0; 1]; [0; 2; 0; 1]; [0; 0; 2; 1]; [0; 0; 0; 1]]%Z.

Definition ex_outer : ndarray Z :=
  NdArray (4, 4) [[1; 0; 0; 5]; [0; 1; 0; 0]; [0; 0; 3; 0]; [0; 0; 0; 1]]%Z.

Definition ex_bad_shape : ndarray Z :=
  NdArray (3, 3) [[1; 0; 0]; [0; 1; 0]; [0; 0; 1]]%Z.

Definition ex_bad_row : ndarray Z :=
  NdArray (4, 4) [[1; 0; 0; 0]; [0; 1; 0; 0]; [0; 0; 1; 0]; [0; 0; 1; 1]]%Z.

Definition ex_pointset : Pointset := mkPointset 0 1 false.

(** A heap with one pointset over [ex_coords] and [ex_affine]. *)
Definition ex_heap : heap Z :=
  Heap [Dense ex_coords; Dense ex_affine; Dense ex_outer;
        Dense ex_bad_shape; Dense ex_bad_row]
       [OPointset cls_Pointset ex_pointset].

(** A heap that holds the affine of the masks below. *)
Definition ex_mask_heap : heap Z := Heap [Dense (np_eye 4)] [].

(** A mask of shape [(2, 2, 2)], true at [(0, 1, 0)] only. *)
Definition ex_mask : SpatialImage Z :=
  mkSpatialImage (NdArrayN [2; 2; 2] [0; 0; 1; 0; 0; 0; 0; 0]%Z) 0.

(** A mask of shape [(1, 1, 2)], true at [(0, 0, 1)] only. *)
Definition ex_flat_mask : SpatialImage Z :=
  mkSpatialImage (NdArrayN [1; 1; 2] [0; 1]%Z) 0.

(** The coordinate arrays of two meshes and their shared triangles. *)
Definition ex_mesh_heap : heap Z :=
  Heap [Dense (NdArray (2, 3) [[0; 0; 0]; [1; 0; 0]]%Z);
        Dense (NdArray (2, 3) [[0; 0; 1]; [1; 0; 1]]%Z);
        Dense (NdArray (1, 3) [[0; 1; 0]]%Z)] [].

Definition ex_grid_coords : ndarray Z :=
  NdArray (2, 3) [[0; 0; 2]; [1; 1; 2]]%Z.

(** A grid over explicit index coordinates. *)
Definition ex_grid_heap : heap Z :=
  Heap [Dense (np_eye 4); Dense ex_grid_coords]
       [OPointset cls_Grid (mkPointset 1 0 false)].

(** An affine that differs from the identity by less than the tolerance. *)
Definition ex_near_identity : ndarray Q :=
  NdArray (3, 3) [[1 + (1 # 1000000000); 0; 0]; [0; 1; 0]; [0; 0; 1]]%Q.

Definition ex_heap_Q : heap Q :=
  Heap [Dense (NdArray (2, 2) [[1 # 2; 3]; [5; 7 # 3]]%Q); Dense ex_near_identity] [].

(** ** Properties of the objects *)

Section properties.
Context {R : Type} `{Scalar R}.

(** The attributes [Pointset.__init__] set on [self]; a [TriMeshFamily]
    never runs that constructor and has none of them. *)
Definition instance_fields (self : oref) : py R Pointset :=
  o ← get_object self;
  match o with
  | OPointset _ p | OTriangularMesh p _ => mret p
  | OTriMeshFamily _ _ _ =>
      raise (AttributeError "'TriMeshFamily' object has no attribute 'coordinates'")
  end.

(** [Pointset.shape]: [self.coordinates.shape] *)
Definition Pointset_shape (self : oref) : py R (nat * nat) :=
  p ← instance_fields self;
  array_shape (coordinates p).

(** [Pointset.n_coords]: [self.coordinates.shape[0]] *)
Definition Pointset_n_coords (self : oref) : py R nat :=
  p ← instance_fields self;
  s ← array_shape (coordinates p);
  mret s.1.

(** [Pointset.dim] read on an object. *)
Definition Pointset_dim_of (self : oref) : py R Z :=
  p ← instance_fields self;
  Pointset_dim (VArray (coordinates p)) (homogeneous p).

(** [TriangularMesh.n_triangles]: [self._triangles.shape[0]] *)
Definition TriangularMesh_n_triangles (self : oref) : py R nat :=
  t ← TriangularMesh_get_triangles self;
  l ← as_coordinate_array t;
  s ← array_shape l;
  mret s.1.
End properties.

(** The tuples below the extents: one entry per axis, each entry below the
    extent of its axis. *)
Definition in_grid (shp r : list nat) : Prop := Forall2 lt r shp.


(** ** Further example data *)

(** [ex_heap] with the identity transform next to the pointset. *)
Definition ex_identity_heap : heap Z :=
  Heap [Dense ex_coords; Dense ex_affine; Dense (np_eye 4)]
       [OPointset cls_Pointset ex_pointset].

(** A mesh over [ex_coords] with the affine [ex_affine]. *)
Definition ex_mesh_object_heap : heap Z :=
  Heap [Dense ex_coords; Dense ex_affine; Dense ex_outer;
        Dense (NdArray (1, 3) [[0; 1; 0]]%Z)]
       [OTriangularMesh ex_pointset (VArray 3)].

(** A family object over the arrays of [ex_mesh_heap]. *)
Definition ex_family_heap : heap Z :=
  Heap (arrays ex_mesh_heap)
       [OTriMeshFamily (VArray 2) [("pial", VArray 0); ("white", VArray 1)]
          "pial"].

(** A grid without points. *)
Definition ex_empty_grid_heap : heap Z :=
  Heap [Dense (np_eye 4); Dense (NdArray (0, 3) [])]
       [OPointset cls_Grid (mkPointset 1 0 false)].





(** * Facts about the array operations *)

Lemma map_nth_seq {A B} (f : A → B) (l : list A) (d : A) :
  map (λ i, f (nth i l d)) (seq 0 (length l)) = map f l.
Proof.
  induction l as [|x l IH]; [done|].
  cbn [length seq map nth]. f_equal.
  rewrite <- seq_shift, map_map. exact IH.
Qed.

Lemma Forall_nth_length {A} (l : list (list A)) (n i : nat) :
  Forall (λ r, length r = n) l → i < length l → length (nth i l []) = n.
Proof.
  intros Hall Hi. rewrite Forall_forall in Hall. apply Hall.
  apply nth_In, Hi.
Qed.

Lemma nth_map_nth {A} (l : list (list A)) (d : A) (j k : nat) :
  nth j (map (λ r, nth k r d) l) d = nth k (nth j l []) d.
Proof.
  revert j. induction l as [|r l IH]; intros [|j]; cbn; try done.
  all: by destruct k.
Qed.

Section numpy_facts.
Context {R : Type} `{Scalar R}.

Lemma wf_ndarray_spec (a : ndarray R) : wf_ndarrayb a = true ↔ wf_ndarray a.
Proof.
  unfold wf_ndarrayb, wf_ndarray. rewrite andb_true_iff, Nat.eqb_eq, forallb_forall.
  rewrite Forall_forall. split; intros [Hl Hr]; split; try done.
  - intros r Hr'. apply Nat.eqb_eq, Hr, Hr'.
  - intros r Hr'. apply Nat.eqb_eq, Hr, Hr'.
Qed.

(** Column [j] of the transposed rows is row [j]. *)
Lemma column_transpose (X : ndarray R) (j : nat) :
  wf_ndarray X → j < (shape X).1 →
  column j (data (transpose X)) = nth j (data X) [].
Proof.
  intros [Hlen Hrows] Hj. unfold column, transpose. cbn [data].
  rewrite map_map. unfold column.
  assert (Hrow : length (nth j (data X) []) = (shape X).2).
  { apply Forall_nth_length; [done | lia]. }
  rewrite <- Hrow.
  rewrite <- (map_id (nth j (data X) [])) at 2.
  rewrite <- (map_nth_seq id _ szero).
  apply map_ext. intros k. apply nth_map_nth.
Qed.

Lemma vecmat_transpose (X : ndarray R) (u : list R) :
  wf_ndarray X → vecmat u (transpose X) = map (dot u) (data X).
Proof.
  intros HX. unfold vecmat. cbn [transpose shape snd].
  destruct HX as [Hlen Hrows]. rewrite <- Hlen.
  rewrite <- (map_nth_seq (dot u) (data X) []).
  apply map_ext_in. intros j Hj%in_seq.
  rewrite column_transpose; [done | done | lia].
Qed.

Lemma length_apply_affine (A : ndarray R) (v : list R) :
  length (apply_affine A v) = length (data A).
Proof. unfold apply_affine. by rewrite length_map. Qed.

(** [(A @ X.T).T] applies [A] to every row of [X]. *)
Lemma matmul_transpose_rows (A X : ndarray R) :
  wf_ndarray X → (shape A).2 = (shape X).2 →
  ∃ AC, np_matmul A (transpose X) = Ok AC ∧
        transpose AC = NdArray ((shape X).1, (shape A).1)
                         (map (apply_affine A) (data X)).
Proof.
  intros HX Hshape. unfold np_matmul. cbn [transpose shape fst snd].
  rewrite Hshape, Nat.eqb_refl. eexists. split; [reflexivity|].
  unfold transpose at 1. cbn [shape data fst snd]. f_equal.
  destruct HX as [Hlen Hrows]. rewrite <- Hlen.
  rewrite <- (map_nth_seq (apply_affine A) (data X) []).
  apply map_ext_in. intros i Hi%in_seq.
  unfold column, apply_affine. rewrite map_map.
  apply map_ext. intros u. rewrite vecmat_transpose by done.
  rewrite (nth_indep _ szero (dot u [])) by (rewrite length_map; lia).
  apply map_nth.
Qed.

Lemma hstack_ones (C : ndarray R) :
  wf_ndarray C →
  np_hstack C (strided_scalar ((shape C).1, 1) sone)
  = Ok (NdArray ((shape C).1, (shape C).2 + 1) (map (λ v, v ++ [sone]) (data C))).
Proof.
  intros [Hlen Hrows]. unfold np_hstack, strided_scalar. cbn [shape data fst snd].
  rewrite Nat.eqb_refl. do 2 f_equal. rewrite <- Hlen. clear.
  induction (data C) as [|v l IH]; [done|].
  cbn [length]. change (replicate (S (length l)) ?x) with (x :: replicate (length l) x).
  cbn [zip_with map]. f_equal. exact IH.
Qed.

Lemma cartesian_snoc (v : list R) (x : R) : cartesian (v ++ [x]) = v.
Proof.
  unfold cartesian. rewrite length_app. cbn [length].
  replace (length v + 1 - 1) with (length v) by lia.
  by rewrite take_app_length.
Qed.
End numpy_facts.

(** * Facts about the heap *)

Section heap_facts.
Context {R : Type} `{Scalar R}.

Lemma run_bind {A B} (m : py R A) (f : A → py R B) (h : heap R) :
  (m ≫= f) h = match m h with
               | (Ok a, h') => f a h'
               | (Raise e, h') => (Raise e, h')
               end.
Proof. reflexivity. Qed.

Lemma get_dense_ok (h : heap R) (l : aref) (A : ndarray R) :
  arrays h !! l = Some (Dense A) → get_dense l h = (Ok A, h).
Proof. intros Hl. unfold get_dense. rewrite run_bind. unfold get_array. by rewrite Hl. Qed.

Lemma array_shape_ok (h : heap R) (l : aref) (o : array_obj R) :
  arrays h !! l = Some o → array_shape l h = (Ok (obj_shape o), h).
Proof.
  intros Hl. unfold array_shape. rewrite run_bind. unfold get_array.
  rewrite Hl. by destruct o.
Qed.

Lemma get_object_ok (h : heap R) (l : oref) (o : object) :
  objects h !! l = Some o → get_object l h = (Ok o, h).
Proof. intros Hl. unfold get_object. by rewrite Hl. Qed.

Lemma heap_extends_refl (h : heap R) : heap_extends h h.
Proof. by split. Qed.

Lemma heap_extends_trans (h1 h2 h3 : heap R) :
  heap_extends h1 h2 → heap_extends h2 h3 → heap_extends h1 h3.
Proof. intros [? ?] [? ?]. split; by etrans. Qed.

Lemma heap_extends_new_array (h : heap R) (o : array_obj R) :
  heap_extends h (Heap (arrays h ++ [o]) (objects h)).
Proof. split; cbn; [by apply prefix_app_r | done]. Qed.

Lemma heap_extends_array (h h' : heap R) (l : aref) (o : array_obj R) :
  heap_extends h h' → arrays h !! l = Some o → arrays h' !! l = Some o.
Proof. intros [Hp _] Hl. by eapply prefix_lookup_Some. Qed.

Lemma heap_extends_object (h h' : heap R) (l : oref) (o : object) :
  heap_extends h h' → objects h !! l = Some o → objects h' !! l = Some o.
Proof. intros [_ Hp] Hl. by eapply prefix_lookup_Some. Qed.

Lemma lookup_new (A : Type) (l : list A) (x : A) : (l ++ [x]) !! length l = Some x.
Proof. by rewrite list_lookup_middle. Qed.

(** [np.asanyarray] yields the rows the coordinate array converts to, and
    the array itself when it is a numpy array. *)
Lemma np_asanyarray_spec (h : heap R) (l : aref) (o : array_obj R) (C : ndarray R) :
  arrays h !! l = Some o → coords_of o = Ok C →
  ∃ l' h', np_asanyarray l h = (Ok l', h') ∧
           arrays h' !! l' = Some (Dense C) ∧
           heap_extends h h' ∧ objects h' = objects h ∧
           (∀ a, o = Dense a → l' = l ∧ h' = h).
Proof.
  intros Hl Ho. unfold np_asanyarray. rewrite run_bind. unfold get_array. rewrite Hl.
  destruct o as [a|g]; cbn in Ho.
  - injection Ho as ->. exists l, h. by repeat split.
  - destruct (GridIndices_array g None) as [a|e] eqn:Hg; [|done].
    cbn in Ho. injection Ho as <-.
    eexists _, _. split; [reflexivity|]. cbn [arrays objects].
    repeat split; try done.
    + apply lookup_new.
    + by apply prefix_app_r.
Qed.
End heap_facts.

(** One step of a computation whose first action returns at once. *)
Ltac py_ret_step :=
  rewrite run_bind; unfold mret at 1, py_ret at 1; cbv beta iota.

(** * Pointset.get_coords *)

Section get_coords_facts.
Context {R : Type} `{Scalar R}.

Lemma valid_pointset_rows (h : heap R) (p : Pointset) (C A : ndarray R) :
  valid_pointset h p C A → 0 < (shape A).1.
Proof.
  intros [_ _ _ [Hlen _] _ _ Hlast]. rewrite <- Hlen.
  destruct (data A); [done | cbn; lia].
Qed.

Lemma allclose_eye_defined (A : ndarray R) :
  (shape A).1 = (shape A).2 →
  ∃ ident, np_allclose A (np_eye (shape A).1) = Ok ident.
Proof.
  intros Hsq. unfold np_allclose, shape_eqb. cbn [np_eye shape fst snd].
  rewrite <- Hsq, !Nat.eqb_refl. cbn [andb]. by eexists.
Qed.

(** [_homogeneous_coords] yields the homogenised rows. *)
Lemma homogeneous_coords_spec (h : heap R) (p : Pointset) (C A : ndarray R) :
  valid_pointset h p C A →
  ∃ r h', Pointset_homogeneous_coords p h = (Ok r, h') ∧
          arrays h' !! r
          = Some (Dense (NdArray ((shape C).1, (shape A).1)
                           (map (homogenize (homogeneous p)) (data C)))) ∧
          heap_extends h h'.
Proof.
  intros [(o & Hc & Ho & Hshape) HwfC Ha HwfA Hsq Hdim Hlast].
  unfold Pointset_homogeneous_coords.
  destruct (np_asanyarray_spec h _ o C Hc Ho) as (c' & h1 & Hrun & Hc' & Hext & _ & _).
  destruct (homogeneous p) eqn:Hhom.
  - exists c', h1. split; [done|]. split; [|done].
    rewrite Hc'. do 2 f_equal. destruct C as [[N k] d]. cbn in *.
    unfold homogenize. rewrite map_id. do 2 f_equal. clear -Hdim. lia.
  - rewrite run_bind, (array_shape_ok h _ o Hc), Hshape. cbn zeta.
    rewrite run_bind, Hrun, run_bind, (get_dense_ok h1 c' C Hc').
    rewrite run_bind. unfold lift. rewrite hstack_ones by done.
    eexists _, _. split; [reflexivity|]. cbn [arrays]. split.
    + rewrite lookup_new. do 4 f_equal. clear -Hdim. lia.
    + eapply heap_extends_trans; [done | apply heap_extends_new_array].
Qed.

Lemma homogenize_length (p : Pointset) (C A : ndarray R) (h : heap R) (v : list R) :
  valid_pointset h p C A → In v (data C) →
  length (homogenize (homogeneous p) v) = (shape A).1.
Proof.
  intros [_ [_ HwfC] _ _ _ Hdim _] Hv.
  rewrite Forall_forall in HwfC. specialize (HwfC v Hv).
  unfold homogenize. destruct (homogeneous p); [|rewrite length_app; cbn]; lia.
Qed.
End get_coords_facts.

Section get_coords_theorems.
Context {R : Type} `{Scalar R}.

(** The rows [get_coords] returns, step by step. *)
Lemma get_coords_rows (h : heap R) (p : Pointset) (C A : ndarray R) (b : bool) :
  valid_pointset h p C A →
  ∃ ident r h' X,
    np_allclose A (np_eye (shape A).1) = Ok ident ∧
    Pointset_get_coords p b h = (Ok r, h') ∧
    arrays h' !! r = Some (Dense X) ∧
    shape X = ((shape C).1,
               (shape C).2 - (if homogeneous p then 1 else 0)
               + (if b then 1 else 0)) ∧
    data X = map (transformed_point A ident (homogeneous p) b) (data C) ∧
    heap_extends h h'.
Proof.
  intros Hvalid.
  pose proof (valid_pointset_rows _ _ _ _ Hvalid) as Hpos.
  pose proof (homogeneous_coords_spec _ _ _ _ Hvalid) as (hc & h1 & Hhc & Hhc' & Hext1).
  pose proof (λ v, homogenize_length p C A h v Hvalid) as Hlenh.
  destruct Hvalid as [(o & Hc & Ho & Hshape) HwfC Ha HwfA Hsq Hdim Hlast].
  destruct (allclose_eye_defined A Hsq) as [ident Hident].
  exists ident. unfold Pointset_get_coords.
  rewrite run_bind, (get_dense_ok h _ A Ha), run_bind. unfold lift at 1.
  rewrite Hident.
  destruct (Bool.eqb (homogeneous p) b && ident) eqn:Hfast.
  - (* the stored array is returned *)
    apply andb_true_iff in Hfast as [Hb ->]. apply Bool.eqb_prop in Hb. subst b.
    destruct (np_asanyarray_spec h _ o C Hc Ho) as (c' & h2 & Hrun & Hc' & Hext & _ & _).
    exists c', h2, C. split; [done|]. split; [done|]. split; [done|].
    split; [|split; [|done]].
    + rewrite (surjective_pairing (shape C)) at 1. f_equal.
      clear -Hdim Hpos. destruct (homogeneous p); lia.
    + unfold transformed_point, homogenize.
      rewrite <- (map_id (data C)) at 1. apply map_ext. intros v.
      destruct (homogeneous p); [done | by rewrite cartesian_snoc].
  - (* homogenise, transform, project *)
    rewrite run_bind, Hhc.
    set (Hc0 := NdArray ((shape C).1, (shape A).1)
                  (map (homogenize (homogeneous p)) (data C))) in *.
    assert (HwfH : wf_ndarray Hc0).
    { split; cbn; [rewrite length_map; apply HwfC|].
      apply Forall_forall. intros v (v0 & <- & Hv0)%in_map_iff. by apply Hlenh. }
    assert (∃ r2 h2 X2,
      (if negb ident
       then C0 ← get_dense hc;
            AC ← lift (np_matmul A (transpose C0));
            new_array (Dense (transpose AC))
       else mret hc) h1 = (Ok r2, h2) ∧
      arrays h2 !! r2 = Some (Dense X2) ∧ heap_extends h1 h2 ∧
      shape X2 = ((shape C).1, (shape A).1) ∧
      data X2 = map (λ v, if ident then homogenize (homogeneous p) v
                          else apply_affine A (homogenize (homogeneous p) v))
                    (data C))
      as (r2 & h2 & X2 & Hrun2 & Hr2 & Hext2 & HshapeX2 & HdataX2).
    { destruct ident; cbn [negb].
      - exists hc, h1, Hc0. split; [done|]. split; [done|].
        split; [apply heap_extends_refl|]. by split.
      - destruct (matmul_transpose_rows A Hc0 HwfH) as (AC & HAC & HT).
        { cbn. clear -Hsq. lia. }
        rewrite run_bind, (get_dense_ok h1 hc Hc0 Hhc'), run_bind.
        unfold lift. rewrite HAC, HT.
        eexists _, _, _. split; [reflexivity|]. cbn [arrays].
        split; [apply lookup_new|]. split; [apply heap_extends_new_array|].
        split; [done|]. unfold Hc0. cbn [data]. by rewrite map_map. }
    rewrite run_bind, Hrun2.
    assert (Hrows2 : Forall (λ v, length v = (shape A).1) (data X2)).
    { rewrite HdataX2. apply Forall_forall. intros v (v0 & <- & Hv0)%in_map_iff.
      destruct ident; [by apply Hlenh|].
      rewrite length_apply_affine. apply HwfA. }
    destruct b; cbn [negb].
    + exists r2, h2, X2. split; [done|]. split; [done|]. split; [done|].
      split; [|split].
      * rewrite HshapeX2. f_equal. clear -Hdim Hpos. destruct (homogeneous p); lia.
      * rewrite HdataX2. done.
      * by eapply heap_extends_trans.
    + rewrite run_bind, (get_dense_ok h2 r2 X2 Hr2).
      eexists _, _, _. split; [done|]. split; [reflexivity|]. cbn [arrays].
      split; [apply lookup_new|]. split; [|split].
      * cbn [drop_last_column shape]. rewrite HshapeX2. cbn [fst snd]. f_equal.
        clear -Hdim Hpos. destruct (homogeneous p); lia.
      * cbn [drop_last_column data]. rewrite HshapeX2. cbn [snd].
        revert Hrows2. rewrite HdataX2, map_map. intros Hrows2.
        apply map_ext_in. intros v Hv. unfold transformed_point, cartesian.
        cbn zeta. rewrite Forall_forall in Hrows2.
        specialize (Hrows2 _ (in_map _ _ _ Hv)). cbn beta in Hrows2.
        by rewrite Hrows2.
      * eapply heap_extends_trans; [done|].
        eapply heap_extends_trans; [done | apply heap_extends_new_array].
Qed.

(** C6. When the affine passes the identity check (within the tolerance of
    [isclose], not exact equality) and the stored flag equals the requested
    one, [get_coords] is the conversion of the stored coordinates and
    nothing more: a stored numpy array is returned itself, and the heap is
    left as it was. *)
Theorem get_coords_identity_fast_path (h : heap R) (p : Pointset)
    (A : ndarray R) (b : bool) :
  arrays h !! affine p = Some (Dense A) →
  np_allclose A (np_eye (shape A).1) = Ok true →
  homogeneous p = b →
  Pointset_get_coords p b h = np_asanyarray (coordinates p) h ∧
  ∀ C, arrays h !! coordinates p = Some (Dense C) →
       Pointset_get_coords p b h = (Ok (coordinates p), h).
Proof.
  intros Ha Hident <-.
  assert (Heq : Pointset_get_coords p (homogeneous p) h
                = np_asanyarray (coordinates p) h).
  { unfold Pointset_get_coords.
    rewrite run_bind, (get_dense_ok h _ A Ha), run_bind. unfold lift.
    rewrite Hident. by rewrite Bool.eqb_reflx. }
  split; [done|]. intros C HC. rewrite Heq.
  unfold np_asanyarray. rewrite run_bind. unfold get_array. by rewrite HC.
Qed.
End get_coords_theorems.

(** * Matrix products over exact scalars *)


Section exact_facts.
Context {R : Type} `{ExactScalar R}.

Lemma seqb_refl (x : R) : seqb x x = true.
Proof. by apply seqb_eq. Qed.




Lemma dot_cons (x y : R) (u v : list R) :
  dot (x :: u) (y :: v) = sadd (smul x y) (dot u v).
Proof. done. Qed.








End exact_facts.


Lemma last_nth {A} (l : list A) (x d : A) :
  list.last l = Some x → nth (length l - 1) l d = x.
Proof.
  rewrite last_lookup. intros Hl. rewrite nth_lookup.
  replace (length l - 1) with (pred (length l)) by lia. by rewrite Hl.
Qed.

Lemma last_map {A B} (f : A → B) (l : list A) :
  list.last (map f l) = option_map f (list.last l).
Proof.
  induction l as [|x [|y l] IH]; [done | done |].
  change (list.last (map f (y :: l)) = option_map f (list.last (y :: l))).
  exact IH.
Qed.

Section matmul_facts.
Context {R : Type} `{ExactScalar R}.

Lemma wf_matmul (A B AB : ndarray R) :
  wf_ndarray A → np_matmul A B = Ok AB →
  wf_ndarray AB ∧ shape AB = ((shape A).1, (shape B).2).
Proof.
  intros [Hlen _]. unfold np_matmul.
  destruct ((shape A).2 =? (shape B).1); [|done]. intros [= <-].
  split; [|done]. split; cbn.
  - by rewrite length_map.
  - apply Forall_forall. intros v (u & <- & _)%in_map_iff.
    unfold vecmat. by rewrite length_map, length_seq.
Qed.


Lemma dot_unit (m : nat) (c : list R) :
  length c = S m → dot (replicate m szero ++ [sone]) c = nth m c szero.
Proof.
  revert c. induction m as [|m IH]; intros [|y c] Hlen; try done.
  - destruct c; [|done]. cbn. by rewrite smul_1_l, sadd_0_r.
  - change (dot (szero :: (replicate m szero ++ [sone])) (y :: c) = nth m c szero).
    rewrite dot_cons, IH by (cbn in Hlen; lia).
    by rewrite smul_0_l, sadd_0_l.
Qed.

Lemma length_affine_last_row (n : nat) :
  0 < n → length (affine_last_row n : list R) = n.
Proof.
  intros Hn. unfold affine_last_row.
  rewrite length_app, length_replicate. cbn. lia.
Qed.

(** The product of two homogeneous transforms is one. *)
Lemma matmul_last_row (M A MA : ndarray R) (n : nat) :
  wf_ndarray A → shape A = (n, n) →
  list.last (data M) = Some (affine_last_row n) →
  list.last (data A) = Some (affine_last_row n) →
  np_matmul M A = Ok MA →
  list.last (data MA) = Some (affine_last_row n).
Proof.
  intros [HlenA HrowsA] HshapeA HM HA. unfold np_matmul.
  destruct ((shape M).2 =? (shape A).1); [|done]. intros [= <-]. cbn [data].
  rewrite last_map, HM. cbn [option_map]. f_equal.
  rewrite HshapeA in *. cbn [fst snd] in *.
  assert (Hn : 0 < n).
  { rewrite <- HlenA. destruct (data A); [done | cbn; lia]. }
  unfold vecmat. rewrite HshapeA. cbn [snd].
  transitivity (map id (affine_last_row n : list R)); [|apply map_id].
  rewrite <- (map_nth_seq id (affine_last_row n) szero).
  rewrite length_affine_last_row by done.
  apply map_ext. intros j. unfold affine_last_row at 1.
  rewrite dot_unit.
  - unfold column. rewrite nth_map_nth. unfold id. f_equal.
    replace (n - 1) with (length (data A) - 1) by (clear -HlenA; lia).
    by apply last_nth.
  - unfold column. rewrite length_map. lia.
Qed.
End matmul_facts.

(** * Pointset.__init__ *)

Section init_facts.
Context {R : Type} `{Scalar R}.

Lemma Pointset_dim_ok (h : heap R) (c : aref) (o : array_obj R) (hom : bool) :
  arrays h !! c = Some o →
  Pointset_dim (VArray c) hom h
  = (Ok (Z.of_nat (obj_shape o).2 - Z.b2z hom)%Z, h).
Proof.
  intros Hc. unfold Pointset_dim, as_coordinate_array.
  rewrite run_bind. cbn [mret py_ret].
  by rewrite run_bind, (array_shape_ok h c o Hc).
Qed.

Lemma np_asanyarray_dense (h : heap R) (a : aref) (A : ndarray R) :
  arrays h !! a = Some (Dense A) → np_asanyarray a h = (Ok a, h).
Proof. intros Ha. unfold np_asanyarray. rewrite run_bind. unfold get_array. by rewrite Ha. Qed.

(** The checks of the constructor, in the order it makes them. *)
Lemma Pointset_init_checks (h : heap R) (c a : aref) (o : array_obj R)
    (A : ndarray R) (hom : bool) :
  arrays h !! c = Some o → arrays h !! a = Some (Dense A) →
  Pointset_init (VArray c) (Some a) hom h
  = if shape_ne (shape A) (Z.of_nat (obj_shape o).2 - Z.b2z hom + 1)
    then (Raise (ValueError "Invalid affine for coordinates"), h)
    else match last_row_init A with
         | Raise e => (Raise e, h)
         | Ok r =>
             if np_any_ne r szero
             then (Raise (ValueError "Invalid affine matrix"), h)
             else match last_entry A with
                  | Raise e => (Raise e, h)
                  | Ok x =>
                      if negb (seqb x sone)
                      then (Raise (ValueError "Invalid affine matrix"), h)
                      else (Ok (mkPointset c a hom), h)
                  end
         end.
Proof.
  intros Hc Ha. unfold Pointset_init.
  rewrite run_bind, (np_asanyarray_dense h a A Ha).
  rewrite run_bind, (get_dense_ok h a A Ha).
  rewrite run_bind, (Pointset_dim_ok h c o hom Hc).
  destruct (shape_ne _ _); [done|].
  rewrite run_bind. unfold lift at 1.
  destruct (last_row_init A) as [r|e]; [|done].
  destruct (np_any_ne r szero); [done|].
  rewrite run_bind. unfold lift at 1.
  destruct (last_entry A) as [x|e]; [|done].
  by destruct (negb (seqb x sone)).
Qed.

(** Without an affine the constructor allocates the identity and goes on
    as if it had been passed. *)
Lemma Pointset_init_default (h : heap R) (c : aref) (o : array_obj R) (hom : bool) :
  arrays h !! c = Some o →
  (if hom then 0 < (obj_shape o).2 else True) →
  Pointset_init (VArray c) None hom h
  = Pointset_init (VArray c) (Some (length (arrays h))) hom
      (Heap (arrays h ++ [Dense (np_eye ((obj_shape o).2 + 1 - (if hom then 1 else 0)))])
            (objects h)).
Proof.
  intros Hc Hk. unfold Pointset_init at 1.
  rewrite run_bind, run_bind, (Pointset_dim_ok h c o hom Hc).
  rewrite run_bind. unfold lift at 1. unfold np_eye_int.
  destruct (_ <? 0)%Z eqn:Hneg.
  { exfalso. apply Z.ltb_lt in Hneg. clear -Hneg Hk. destruct hom; cbn in *; lia. }
  replace (Z.to_nat (Z.of_nat (obj_shape o).2 - Z.b2z hom + 1))
    with ((obj_shape o).2 + 1 - (if hom then 1 else 0))
    by (clear -Hk; destruct hom; cbn in *; lia).
  unfold new_array at 1. unfold Pointset_init.
  rewrite (run_bind (np_asanyarray _)).
  erewrite np_asanyarray_dense; [done|]. cbn [arrays]. apply lookup_new.
Qed.
End init_facts.

Section init_exact.
Context {R : Type} `{Scalar R} `{!ExactEq R}.

Lemma seqb_same (x : R) : seqb x x = true.
Proof. by apply seqb_eq. Qed.

Lemma any_ne_zeros (n : nat) : np_any_ne (replicate n szero) (szero : R) = false.
Proof.
  induction n as [|n IH]; [done|].
  change (negb (seqb szero szero) || np_any_ne (replicate n szero) (szero : R) = false).
  by rewrite seqb_same, IH.
Qed.

Lemma any_ne_zeros_inv (l : list R) :
  np_any_ne l szero = false → l = replicate (length l) szero.
Proof.
  induction l as [|x l IH]; [done|]. cbn [np_any_ne existsb].
  intros [Hx Hl]%orb_false_iff. apply negb_false_iff, seqb_eq in Hx.
  cbn [length]. rewrite replicate_S. f_equal; [done | by apply IH].
Qed.

Lemma last_row_init_affine (A : ndarray R) (n : nat) :
  (shape A).2 = n → list.last (data A) = Some (affine_last_row n) →
  last_row_init A = Ok (replicate (n - 1) szero) ∧ last_entry A = Ok sone.
Proof.
  intros Hn Hlast. unfold last_row_init, last_entry. rewrite Hlast, Hn.
  unfold affine_last_row. split.
  - f_equal. rewrite take_app_length'; [done | by rewrite length_replicate].
  - by rewrite last_snoc.
Qed.

(** The constructor accepts a homogeneous transform of the right size. *)
Lemma Pointset_init_ok (h : heap R) (c a : aref) (o : array_obj R)
    (A : ndarray R) (hom : bool) (n : nat) :
  arrays h !! c = Some o → arrays h !! a = Some (Dense A) →
  shape A = (n, n) →
  n + (if hom then 1 else 0) = (obj_shape o).2 + 1 →
  list.last (data A) = Some (affine_last_row n) →
  Pointset_init (VArray c) (Some a) hom h = (Ok (mkPointset c a hom), h).
Proof.
  intros Hc Ha Hshape Hdim Hlast.
  rewrite (Pointset_init_checks h c a o A hom Hc Ha).
  destruct (last_row_init_affine A n) as [-> ->]; [by rewrite Hshape | done |].
  rewrite any_ne_zeros, seqb_same. cbn [negb].
  unfold shape_ne. rewrite Hshape. cbn [fst snd].
  replace (Z.of_nat (obj_shape o).2 - Z.b2z hom + 1)%Z with (Z.of_nat n)
    by (clear -Hdim; destruct hom; cbn; lia).
  by rewrite Z.eqb_refl.
Qed.

(** A last row that passes both checks is [0, .., 0, 1]. *)
Lemma affine_last_row_intro (r : list R) (x : R) :
  np_any_ne (take (length r - 1) r) szero = false →
  list.last r = Some x → seqb x sone = true →
  r = affine_last_row (length r).
Proof.
  intros Hany [l ->]%last_Some Hx%seqb_eq. subst x.
  unfold affine_last_row. rewrite length_app in *. cbn [length] in *.
  replace (length l + 1 - 1) with (length l) in * by lia.
  rewrite take_app_length in Hany. apply any_ne_zeros_inv in Hany.
  by rewrite <- Hany.
Qed.

(** C8. With coordinates of [k] columns and an affine given as a numpy
    array, the constructor raises [ValueError] "Invalid affine for
    coordinates" (the spec's ShapeError) when the affine is not of shape
    [(dim + 1, dim + 1)], and [ValueError] "Invalid affine matrix" (the
    spec's InvalidTransformError) when the shape fits and the last row is
    not exactly [0, .., 0, 1]; either way no object is created and the heap
    is as before. *)
Theorem init_rejects_malformed_affine (h : heap R) (cls : class) (c a : aref)
    (o : array_obj R) (A : ndarray R) (hom : bool) :
  arrays h !! c = Some o → arrays h !! a = Some (Dense A) → wf_ndarray A →
  let dim := (Z.of_nat (obj_shape o).2 - Z.b2z hom)%Z in
  (¬ (Z.of_nat (shape A).1 = (dim + 1)%Z ∧ Z.of_nat (shape A).2 = (dim + 1)%Z) →
   Pointset_new cls (VArray c) (Some a) hom h
   = (Raise (ValueError "Invalid affine for coordinates"), h)) ∧
  (Z.of_nat (shape A).1 = (dim + 1)%Z → Z.of_nat (shape A).2 = (dim + 1)%Z →
   ∀ r, list.last (data A) = Some r → r ≠ affine_last_row (shape A).1 →
   Pointset_new cls (VArray c) (Some a) hom h
   = (Raise (ValueError "Invalid affine matrix"), h)).
Proof.
  intros Hc Ha [HlenA HrowsA] dim. unfold Pointset_new.
  rewrite run_bind, (Pointset_init_checks h c a o A hom Hc Ha). fold dim.
  split.
  - intros Hshape. unfold shape_ne.
    destruct (Z.of_nat (shape A).1 =? dim + 1)%Z eqn:H1;
      destruct (Z.of_nat (shape A).2 =? dim + 1)%Z eqn:H2; try done.
    apply Z.eqb_eq in H1, H2. by destruct Hshape.
  - intros H1 H2 r Hlast Hr. unfold shape_ne.
    rewrite H1, H2, Z.eqb_refl. cbn [andb negb].
    assert (Hlen : length r = (shape A).1).
    { rewrite Forall_forall in HrowsA. rewrite (HrowsA r).
      - clear -H1 H2. lia.
      - apply last_Some in Hlast as [l ->]. apply in_or_app. right. by left. }
    unfold last_row_init, last_entry. rewrite Hlast.
    replace ((shape A).2 - 1) with (length r - 1) by (clear -Hlen H1 H2; lia).
    destruct (np_any_ne (take (length r - 1) r) szero) eqn:Hany; [done|].
    destruct (list.last r) as [x|] eqn:Hx.
    + destruct (seqb x sone) eqn:Hone; [|done].
      exfalso. apply Hr. rewrite <- Hlen. by eapply affine_last_row_intro.
    + exfalso. apply last_None in Hx. subst r. cbn in Hlen.
      rewrite <- HlenA in Hlen. destruct (data A); done.
Qed.
End init_exact.

Section get_coords_contract.
Context {R : Type} `{Scalar R}.

Lemma length_transformed_point (A : ndarray R) (ident hom b : bool)
    (v : list R) (n : nat) :
  length (homogenize hom v) = n → length (data A) = n →
  length (transformed_point A ident hom b v) = n - (if b then 0 else 1).
Proof.
  intros Hv HA. unfold transformed_point, cartesian. cbn zeta.
  assert (Hlen : length (if ident then homogenize hom v
                         else apply_affine A (homogenize hom v)) = n).
  { destruct ident; [done | by rewrite length_apply_affine]. }
  destruct b; [lia|]. rewrite length_take. lia.
Qed.

(** C1. For a valid pointset with coordinates of shape [N, k], [get_coords]
    returns a well-formed array of shape [N, dim] (Cartesian) or
    [N, dim + 1] (homogeneous), where [dim] is what [Pointset.dim] computes,
    [k - 1] if the stored flag is set and [k] otherwise.  Its rows are the
    stored points, homogenised by a trailing one unless the flag says they
    already are, multiplied by the affine unless the identity check holds,
    and without their last entry when Cartesian output is asked for. *)
Theorem get_coords_spec (h : heap R) (p : Pointset) (C A : ndarray R) (b : bool) :
  valid_pointset h p C A →
  ∃ ident dim r h' X,
    np_allclose A (np_eye (shape A).1) = Ok ident ∧
    Pointset_dim (VArray (coordinates p)) (homogeneous p) h = (Ok dim, h) ∧
    dim = (Z.of_nat (shape C).2 - Z.b2z (homogeneous p))%Z ∧
    Pointset_get_coords p b h = (Ok r, h') ∧
    arrays h' !! r = Some (Dense X) ∧
    wf_ndarray X ∧
    Z.of_nat (shape X).1 = Z.of_nat (shape C).1 ∧
    Z.of_nat (shape X).2 = (dim + Z.b2z b)%Z ∧
    data X = map (transformed_point A ident (homogeneous p) b) (data C) ∧
    heap_extends h h'.
Proof.
  intros Hvalid.
  destruct (get_coords_rows h p C A b Hvalid)
    as (ident & r & h' & X & Hident & Hrun & Hr & Hshape & Hdata & Hext).
  pose proof (valid_pointset_rows _ _ _ _ Hvalid) as Hpos.
  pose proof (λ v, homogenize_length p C A h v Hvalid) as Hlenh.
  destruct Hvalid as [(o & Hc & Ho & Hoshape) [HlenC HrowsC] Ha [HlenA _] Hsq Hdim _].
  exists ident, (Z.of_nat (shape C).2 - Z.b2z (homogeneous p))%Z, r, h', X.
  split; [done|]. split.
  { by rewrite (Pointset_dim_ok h _ o _ Hc), Hoshape. }
  split; [done|]. split; [done|]. split; [done|]. split; [|split; [|split]].
  - split.
    + by rewrite Hdata, length_map, Hshape.
    + rewrite Hdata, Hshape. cbn [snd]. apply Forall_forall.
      intros w (v & <- & Hv)%in_map_iff.
      rewrite (length_transformed_point A ident _ b v (shape A).1);
        [|by apply Hlenh | done].
      clear -Hdim Hpos. destruct (homogeneous p), b; lia.
  - by rewrite Hshape.
  - rewrite Hshape. cbn [snd]. clear -Hdim Hpos.
    destruct (homogeneous p), b; cbn; lia.
  - done.
Qed.
End get_coords_contract.

(** * Pointset.__rmatmul__ *)

Section rmatmul.
Context {R : Type} `{ExactScalar R}.

Lemma valid_pointset_extends (h h' : heap R) (p : Pointset) (C A : ndarray R) :
  heap_extends h h' → valid_pointset h p C A → valid_pointset h' p C A.
Proof.
  intros Hext [(o & Hc & Ho) HwfC Ha HwfA Hsq Hdim Hlast].
  split; try done.
  - exists o. split; [|done]. by eapply heap_extends_array.
  - by eapply heap_extends_array.
Qed.

(** What [M @ P] does to the heap: one new array, the product, and one new
    object that refers to it and to the coordinates of [P]. *)
Lemma rmatmul_run (h : heap R) (self : oref) (cls : class) (p : Pointset)
    (C A : ndarray R) (m : aref) (M : ndarray R) :
  objects h !! self = Some (OPointset cls p) →
  valid_pointset h p C A →
  arrays h !! m = Some (Dense M) → wf_ndarray M → shape M = shape A →
  list.last (data M) = Some (affine_last_row (shape M).1) →
  ∃ MA, np_matmul M A = Ok MA ∧
    let p' := mkPointset (coordinates p) (length (arrays h)) (homogeneous p) in
    let h' := Heap (arrays h ++ [Dense MA]) (objects h ++ [OPointset cls p']) in
    Pointset_rmatmul self m h = (Ok (length (objects h)), h') ∧
    valid_pointset h' p' C MA.
Proof.
  intros Hself Hvalid Hm HwfM HshapeM HlastM.
  pose proof Hvalid as [(o & Hc & Ho & Hshape) HwfC Ha HwfA Hsq Hdim Hlast].
  destruct (np_matmul M A) as [MA|e] eqn:HMA; cycle 1.
  { exfalso. revert HMA. unfold np_matmul. rewrite HshapeM, <- Hsq.
    by rewrite Nat.eqb_refl. }
  destruct (wf_matmul M A MA HwfM HMA) as [HwfMA HshapeMA].
  set (n := (shape A).1) in *.
  assert (HshapeA : shape A = (n, n)).
  { rewrite (surjective_pairing (shape A)). by rewrite <- Hsq. }
  rewrite HshapeM, HshapeA in HshapeMA. cbn [fst snd] in HshapeMA.
  assert (HlastMA : list.last (data MA) = Some (affine_last_row n)).
  { eapply (matmul_last_row M A MA n); try done.
    by rewrite HshapeM in HlastM. }
  exists MA. split; [done|]. cbn zeta.
  set (h1 := Heap (arrays h ++ [Dense MA]) (objects h)).
  assert (Hext : heap_extends h h1) by apply heap_extends_new_array.
  split.
  - unfold Pointset_rmatmul.
    rewrite run_bind, (get_object_ok h self _ Hself).
    rewrite run_bind, (np_asanyarray_dense h m M Hm).
    rewrite run_bind, (get_dense_ok h m M Hm).
    rewrite run_bind, (get_dense_ok h _ A Ha).
    rewrite run_bind. unfold lift at 1. rewrite HMA.
    rewrite run_bind. unfold new_array at 1. fold h1.
    unfold Pointset_new. rewrite run_bind.
    rewrite (Pointset_init_ok h1 (coordinates p) (length (arrays h)) o MA
               (homogeneous p) n); try done.
    + by eapply heap_extends_array.
    + apply lookup_new.
    + by rewrite Hshape.
  - split; try done.
    + exists o. split; [|done]. cbn [coordinates arrays].
      by apply lookup_app_l_Some.
    + cbn [affine arrays]. apply lookup_new.
    + by rewrite HshapeMA.
    + by rewrite HshapeMA.
    + by rewrite HshapeMA.
Qed.

(** X8. For a valid pointset [P] of class [Pointset] or [Grid] and a
    homogeneous transform [M] of its size, over exact arithmetic, [M @ P]
    returns a new object of that class whose affine is the product
    [M . P.affine], whose coordinates field is the reference [P] holds, whose
    flag is that of [P], and it leaves [P] and every array of the heap as
    they were. *)
Theorem rmatmul_spec (h : heap R) (self : oref) (cls : class) (p : Pointset)
    (C A : ndarray R) (m : aref) (M : ndarray R) :
  objects h !! self = Some (OPointset cls p) →
  valid_pointset h p C A →
  arrays h !! m = Some (Dense M) → wf_ndarray M → shape M = shape A →
  list.last (data M) = Some (affine_last_row (shape M).1) →
  ∃ q h' p' MA,
    Pointset_rmatmul self m h = (Ok q, h') ∧
    q ≠ self ∧
    objects h' !! q = Some (OPointset cls p') ∧
    np_matmul M A = Ok MA ∧
    arrays h' !! affine p' = Some (Dense MA) ∧
    coordinates p' = coordinates p ∧
    homogeneous p' = homogeneous p ∧
    objects h' !! self = Some (OPointset cls p) ∧
    (∀ l o, arrays h !! l = Some o → arrays h' !! l = Some o).
Proof.
  intros Hself Hvalid Hm HwfM HshapeM HlastM.
  destruct (rmatmul_run h self cls p C A m M) as (MA & HMA & Hrun & Hvalid');
    try done.
  cbn zeta in Hrun.
  eexists _, _, _, MA. split; [exact Hrun|].
  split. { apply lookup_lt_Some in Hself. lia. }
  split. { cbn [objects]. apply lookup_new. }
  split; [done|].
  split. { cbn [affine arrays]. apply lookup_new. }
  split; [done|]. split; [done|].
  split. { cbn [objects]. by apply lookup_app_l_Some. }
  intros l o Hl. cbn [arrays]. by apply lookup_app_l_Some.
Qed.
End rmatmul.

Section composition.
Context {R : Type} `{ExactScalar R}.

Lemma ndarray_eq (X Y : ndarray R) :
  shape X = shape Y → data X = data Y → X = Y.
Proof. destruct X, Y. cbn. by intros -> ->. Qed.


End composition.

(** * GridIndices.__array__ *)

Lemma length_tile {A} (n : nat) (l : list A) : length (tile n l) = n * length l.
Proof.
  unfold tile. induction n as [|n IH]; [done|].
  cbn [replicate concat]. rewrite length_app, IH. lia.
Qed.

Lemma tile_mul {A} (a b : nat) (l : list A) : tile (a * b) l = tile a (tile b l).
Proof.
  unfold tile. induction a as [|a IH]; [done|].
  cbn [Nat.mul replicate concat]. rewrite <- IH.
  rewrite replicate_add, concat_app. done.
Qed.

Lemma tile_1 {A} (l : list A) : tile 1 l = l.
Proof. unfold tile. cbn. apply app_nil_r. Qed.

Lemma length_bind_replicate {A} (l : list A) (n : nat) :
  length (l ≫= replicate n) = length l * n.
Proof.
  induction l as [|x l IH]; [done|].
  rewrite bind_cons, length_app, length_replicate, IH. cbn. lia.
Qed.

Lemma nth_bind_replicate {A} (l : list A) (n i j : nat) (d : A) :
  j < n → nth (i * n + j) (l ≫= replicate n) d = nth i l d.
Proof.
  intros Hj. revert i. induction l as [|x l IH]; intros i.
  - cbn. by destruct (i * n + j), i.
  - rewrite bind_cons. destruct i as [|i].
    + cbn [Nat.mul Nat.add nth]. rewrite app_nth1 by (rewrite length_replicate; lia).
      rewrite nth_lookup, lookup_replicate_2; done.
    + rewrite app_nth2 by (rewrite length_replicate; lia).
      rewrite length_replicate.
      replace (S i * n + j - n) with (i * n + j) by lia. cbn [nth]. apply IH.
Qed.

Lemma nth_tile {A} (l : list A) (s i j : nat) (d : A) :
  i < s → j < length l → nth (i * length l + j) (tile s l) d = nth j l d.
Proof.
  intros Hi Hj. revert i Hi. unfold tile.
  induction s as [|s IH]; intros i Hi; [lia|].
  cbn [replicate concat]. destruct i as [|i].
  - cbn [Nat.mul Nat.add]. by rewrite app_nth1.
  - rewrite app_nth2 by lia.
    replace (S i * length l + j - length l) with (i * length l + j) by lia.
    apply IH. lia.
Qed.

Lemma map_seq_from {B} (f : nat → B) (k n : nat) :
  map f (seq k n) = map (λ j, f (k + j)) (seq 0 n).
Proof.
  revert f k. induction n as [|n IH]; intros f k; [done|].
  cbn [seq map]. rewrite Nat.add_0_r. f_equal.
  rewrite (IH f (S k)), (IH (λ j, f (k + j)) 1).
  apply map_ext. intros j. f_equal. lia.
Qed.

(** The indices below [s * n], grouped by quotient. *)
Lemma map_seq_mul {B} (f : nat → B) (s n : nat) :
  map f (seq 0 (s * n))
  = seq 0 s ≫= (λ i, map (λ j, f (i * n + j)) (seq 0 n)).
Proof.
  induction s as [|s IH]; [done|].
  rewrite seq_S, bind_app, bind_singleton. cbn [Nat.add].
  replace (S s * n) with (s * n + n) by lia.
  rewrite seq_app, map_app, IH. f_equal. cbn [Nat.add].
  apply map_seq_from.
Qed.

Lemma bind_ext_in {A B} (f g : A → list B) (l : list A) :
  (∀ x, In x l → f x = g x) → l ≫= f = l ≫= g.
Proof.
  induction l as [|x l IH]; intros Hfg; [done|].
  rewrite !bind_cons, (Hfg x) by (by left). f_equal.
  apply IH. intros y Hy. apply Hfg. by right.
Qed.

Lemma mesh_rows_cons (s : nat) (shp : list nat) :
  mesh_rows (s :: shp)
  = (seq 0 s ≫= replicate (math_prod shp)) :: map (tile s) (mesh_rows shp).
Proof.
  unfold mesh_rows. rewrite imap_cons. f_equal.
  - unfold broadcast_axis. cbn [take drop math_prod foldr]. apply tile_1.
  - change (map (tile s) ?l) with (tile s <$> l). rewrite fmap_imap.
    apply imap_ext. intros k x _. unfold compose, broadcast_axis.
    cbn [take drop]. change (math_prod (s :: ?l)) with (s * math_prod l).
    apply tile_mul.
Qed.

Lemma mesh_rows_length (shp : list nat) :
  Forall (λ r, length r = math_prod shp) (mesh_rows shp).
Proof.
  induction shp as [|s shp IH]; [constructor|].
  rewrite mesh_rows_cons. constructor.
  - rewrite length_bind_replicate, length_seq. done.
  - apply Forall_forall. intros r (r0 & <- & Hr0)%in_map_iff.
    rewrite Forall_forall in IH. rewrite length_tile, (IH r0 Hr0). done.
Qed.

Lemma length_mesh_rows (shp : list nat) : length (mesh_rows shp) = length shp.
Proof. unfold mesh_rows. apply length_imap. Qed.

(** Reading the meshgrid outputs column by column enumerates the tuples in
    row-major order. *)
Lemma mesh_columns (shp : list nat) :
  map (λ j, map (λ r, nth j r 0) (mesh_rows shp)) (seq 0 (math_prod shp))
  = ij_rows shp.
Proof.
  induction shp as [|s shp IH]; [done|].
  change (math_prod (s :: shp)) with (s * math_prod shp).
  change (ij_rows (s :: shp)) with (seq 0 s ≫= (λ i, map (cons i) (ij_rows shp))).
  rewrite map_seq_mul, mesh_rows_cons, <- IH.
  apply bind_ext_in. intros i Hi%in_seq.
  rewrite map_map. apply map_ext_in. intros j Hj%in_seq. cbn [map]. f_equal.
  - rewrite nth_bind_replicate by lia. rewrite seq_nth by lia. done.
  - rewrite map_map. apply map_ext_in. intros r Hr.
    pose proof (mesh_rows_length shp) as Hlen. rewrite Forall_forall in Hlen.
    rewrite <- (Hlen r Hr) in *. apply nth_tile; lia.
Qed.

Lemma bind_concat_map {A B} (f : A → list B) (l : list A) :
  l ≫= f = concat (map f l).
Proof.
  induction l as [|x l IH]; [done|]. rewrite bind_cons, IH. done.
Qed.

(** Cutting a concatenation of [c]-long rows back into rows. *)
Lemma chunks_concat {A} (rows : list (list A)) (c : nat) :
  Forall (λ r, length r = c) rows →
  map (λ i, take c (drop (i * c) (concat rows))) (seq 0 (length rows)) = rows.
Proof.
  induction 1 as [|r rows Hr Hrows IH]; [done|].
  cbn [length seq map concat Nat.mul drop]. f_equal.
  - by apply take_app_length'.
  - rewrite map_seq_from. rewrite <- IH at 2.
    apply map_ext. intros i. f_equal.
    replace ((1 + i) * c) with (length r + i * c) by lia.
    apply drop_app_add.
Qed.

Lemma length_concat_rows {A} (rows : list (list A)) (c : nat) :
  Forall (λ r, length r = c) rows → length (concat rows) = length rows * c.
Proof.
  induction 1 as [|r rows Hr Hrows IH]; [done|].
  cbn [concat length]. rewrite length_app, IH. lia.
Qed.

Lemma map_tile {A B} (f : A → B) (n : nat) (l : list A) :
  map f (tile n l) = tile n (map f l).
Proof.
  unfold tile. induction n as [|n IH]; [done|].
  cbn [replicate concat]. by rewrite map_app, IH.
Qed.

Lemma map_bind_replicate {A B} (f : A → B) (x : list A) (m : nat) :
  map f (x ≫= replicate m) = map f x ≫= replicate m.
Proof.
  induction x as [|a x IH]; [done|].
  cbn [map mbind list_bind]. rewrite map_app, IH. f_equal.
  change (map f ?l) with (f <$> l). apply fmap_replicate.
Qed.

(** Broadcasting moves the elements of an axis around and leaves each as
    it is. *)
Lemma broadcast_axis_map {A B} (f : A → B) (shp : list nat) (k : nat)
    (x : list A) :
  broadcast_axis shp k (map f x) = map f (broadcast_axis shp k x).
Proof. unfold broadcast_axis. by rewrite map_tile, map_bind_replicate. Qed.

Lemma meshgrid_flat (shp : list nat) (dt : option np_dtype) :
  np_meshgrid_ij (map (λ s, np_arange s dt) shp) ≫= flat
  = map (arange_value dt) (concat (mesh_rows shp)).
Proof.
  rewrite bind_concat_map, concat_map. f_equal.
  unfold np_meshgrid_ij, mesh_rows, np_arange.
  rewrite map_map.
  replace (map (λ s, length (map (arange_value dt) (seq 0 s))) shp) with shp;
    cycle 1.
  { rewrite <- (map_id shp) at 1. apply map_ext. intros s.
    by rewrite length_map, length_seq. }
  change (map flat ?l) with (flat <$> l). rewrite fmap_imap.
  change (map ?f shp) with (f <$> shp) at 1. rewrite imap_fmap.
  change (map ?f (imap ?g shp)) with (f <$> imap g shp). rewrite fmap_imap.
  apply imap_ext. intros k s _. cbn. apply broadcast_axis_map.
Qed.

Lemma arange_value_0 (dt : option np_dtype) : arange_value dt 0 = 0%Z.
Proof. by destruct dt as [[]|]. Qed.

Lemma map_chunks {A B} (f : A → B) (c n : nat) (l : list A) :
  map (λ i, take c (drop (i * c) (map f l))) (seq 0 n)
  = map (map f) (map (λ i, take c (drop (i * c) l)) (seq 0 n)).
Proof.
  rewrite map_map. apply map_ext. intros i.
  change (map f ?l) with (f <$> l). by rewrite fmap_take, fmap_drop.
Qed.

Lemma transpose_with_map {A B} (f : A → B) (d : A) (a : ndarray A) :
  transpose_with (f d) (map_array f a) = map_array f (transpose_with d a).
Proof.
  unfold transpose_with, map_array. cbn [shape data]. f_equal.
  rewrite !map_map. apply map_ext. intros j. rewrite !map_map.
  apply map_ext. intros r. apply map_nth.
Qed.

(** The array [__array__] builds for a grid with at least one axis: the
    index tuples in row-major order, every entry stored in the element
    type. *)
Lemma GridIndices_array_rows (g : GridIndices) (dt : option np_dtype) :
  gridshape g ≠ [] →
  GridIndices_array g dt
  = Ok (map_array
          (arange_value match dt with None => dtype g | Some d => Some d end)
          (NdArray (math_prod (gridshape g), length (gridshape g))
             (ij_rows (gridshape g)))).
Proof.
  intros Hne. unfold GridIndices_array.
  set (shp := gridshape g) in *.
  set (dt' := match dt with None => dtype g | Some d => Some d end).
  unfold np_reshape_rows. cbn zeta. rewrite meshgrid_flat, !length_map.
  pose proof (mesh_rows_length shp) as Hlen.
  rewrite (length_concat_rows _ _ Hlen), length_mesh_rows.
  assert (Hn : length shp ≠ 0) by (by destruct shp).
  rewrite (Nat.mul_comm (length shp)).
  rewrite Nat.Div0.mod_mul, Nat.div_mul by done.
  destruct (length shp =? 0) eqn:H0; [by apply Nat.eqb_eq in H0|].
  cbn [orb negb Nat.eqb mbind result_bind mret result_ret].
  rewrite map_chunks.
  rewrite <- (length_mesh_rows shp) at 2.
  rewrite (chunks_concat _ _ Hlen). f_equal.
  rewrite <- (arange_value_0 dt').
  change (NdArray (length shp, math_prod shp)
            (map (map (arange_value dt')) (mesh_rows shp)))
    with (map_array (arange_value dt')
            (NdArray (length shp, math_prod shp) (mesh_rows shp))).
  rewrite transpose_with_map. f_equal.
  unfold transpose_with. cbn [shape data fst snd].
  by rewrite mesh_columns.
Qed.



Lemma length_ij_rows (shp : list nat) : length (ij_rows shp) = math_prod shp.
Proof.
  induction shp as [|s shp IH]; [done|].
  change (ij_rows (s :: shp)) with (seq 0 s ≫= (λ i, map (cons i) (ij_rows shp))).
  change (math_prod (s :: shp)) with (s * math_prod shp).
  rewrite <- IH. generalize 0. induction s as [|s IHs]; intros k; [done|].
  cbn [seq]. rewrite bind_cons, length_app, length_map, IHs. lia.
Qed.



(** ** The index tuples and the element type *)

Lemma ij_rows_cons (s : nat) (shp : list nat) :
  ij_rows (s :: shp) = (seq 0 s ≫= λ i, map (cons i) (ij_rows shp)).
Proof. done. Qed.

(** The rows are exactly the index tuples inside the grid. *)
Lemma ij_rows_in_grid (shp r : list nat) :
  r ∈ ij_rows shp ↔ in_grid shp r.
Proof.
  unfold in_grid. revert r. induction shp as [|s shp IH]; intros r.
  - cbn. rewrite list_elem_of_singleton. split.
    + intros ->. constructor.
    + by intros ->%Forall2_nil_inv_r.
  - rewrite ij_rows_cons, list_elem_of_bind. split.
    + intros (i & Hr & Hi). change (map ?f ?l) with (f <$> l) in Hr.
      apply list_elem_of_fmap in Hr as (r' & -> & Hr').
      apply elem_of_seq in Hi. constructor; [lia|]. by apply IH.
    + intros (i & r' & Hi & Hr' & ->)%Forall2_cons_inv_r.
      exists i. split.
      * change (map ?f ?l) with (f <$> l). apply list_elem_of_fmap.
        exists r'. split; [done|]. by apply IH.
      * apply elem_of_seq. lia.
Qed.

Lemma ij_rows_NoDup (shp : list nat) : base.NoDup (ij_rows shp).
Proof.
  induction shp as [|s shp IH].
  - cbn. apply NoDup_singleton.
  - rewrite ij_rows_cons. apply NoDup_bind.
    + intros i j r _ _ Hi Hj.
      change (map ?f ?l) with (f <$> l) in Hi, Hj.
      apply list_elem_of_fmap in Hi as (ri & -> & _).
      apply list_elem_of_fmap in Hj as (rj & [= -> _] & _). done.
    + intros i _. change (map ?f ?l) with (f <$> l).
      apply NoDup_fmap_2; [|done]. by intros ?? [= ->].
    + apply NoDup_seq.
Qed.

Lemma ij_rows_width (shp r : list nat) :
  In r (ij_rows shp) → length r = length shp.
Proof.
  intros Hr%list_elem_of_In%ij_rows_in_grid. symmetry.
  by apply Forall2_length in Hr.
Qed.

Lemma dtype_range_bounds (d : np_dtype) :
  ((dtype_range d).1 ≤ 0 < (dtype_range d).2)%Z.
Proof. destruct d; cbn; lia. Qed.

Lemma dtype_cast_id (d : np_dtype) (z : Z) :
  ((dtype_range d).1 ≤ z < (dtype_range d).2)%Z → dtype_cast d z = z.
Proof.
  intros Hz. unfold dtype_cast. cbn zeta. rewrite Z.mod_small by lia. lia.
Qed.

(** An element type that holds the indices stores the tuples as they are. *)
Lemma grid_row_holds (dt : option np_dtype) (shp r : list nat) :
  dtype_holds dt shp → in_grid shp r →
  map (arange_value dt) r = map Z.of_nat r.
Proof.
  destruct dt as [d|]; [|done]. cbn [dtype_holds arange_value].
  intros Hholds Hr. revert Hholds. unfold in_grid in Hr.
  induction Hr as [|i s r shp Hi Hr IH]; [done|].
  intros [Hs Hshp]%Forall_cons_iff. cbn [map]. f_equal; [|by apply IH].
  apply dtype_cast_id. pose proof (dtype_range_bounds d). lia.
Qed.

Lemma GridIndices_array_holds (g : GridIndices) (dt : option np_dtype) :
  gridshape g ≠ [] →
  dtype_holds match dt with None => dtype g | Some d => Some d end (gridshape g) →
  GridIndices_array g dt
  = Ok (map_array Z.of_nat
          (NdArray (math_prod (gridshape g), length (gridshape g))
             (ij_rows (gridshape g)))).
Proof.
  intros Hne Hholds. rewrite (GridIndices_array_rows g dt Hne). f_equal.
  unfold map_array. cbn [shape data]. f_equal. apply map_ext_in.
  intros r Hr. apply (grid_row_holds _ (gridshape g)); [done|].
  by apply ij_rows_in_grid, list_elem_of_In.
Qed.

Section grid_indices.
Context {R : Type} `{Scalar R}.

End grid_indices.



(** * TriangularMesh and TriMeshFamily *)

Section mesh_facts.
Context {R : Type} `{Scalar R} `{!ExactEq R}.

Lemma eye_row_zeros (n k m : nat) :
  k + m ≤ n →
  map (λ j, if n =? j then sone else szero) (seq k m) = replicate m (szero : R).
Proof.
  revert k. induction m as [|m IH]; intros k Hk; [done|].
  cbn [seq map]. rewrite replicate_S. f_equal.
  - destruct (n =? k) eqn:Hn; [|done]. apply Nat.eqb_eq in Hn. lia.
  - apply IH. lia.
Qed.

Lemma eye_last_row (n : nat) :
  list.last (data (np_eye (S n) : ndarray R)) = Some (affine_last_row (S n)).
Proof.
  unfold np_eye. cbn [data]. rewrite last_map.
  replace (list.last (seq 0 (S n))) with (Some n)
    by (by rewrite seq_S, last_snoc).
  cbn [option_map]. f_equal.
  unfold affine_last_row. rewrite seq_S, map_app. cbn [Nat.add map].
  rewrite Nat.eqb_refl, Nat.sub_succ, Nat.sub_0_r. f_equal.
  apply eye_row_zeros. lia.
Qed.

Lemma TriangularMesh_init_parts (h : heap R) (mesh : pyval) (c : aref)
    (t : pyval) (o : array_obj R) :
  arrays h !! c = Some o →
  mesh_parts mesh h = (Ok (VArray c, t), h) →
  TriangularMesh_init mesh h = mesh_built h c t (obj_shape o).2.
Proof.
  intros Hc Hparts. unfold TriangularMesh_init.
  rewrite run_bind, Hparts. cbn [fst snd].
  rewrite run_bind, (Pointset_init_default h c o false Hc I).
  set (k := (obj_shape o).2). set (h1 := Heap _ _).
  rewrite (Pointset_init_ok h1 c (length (arrays h)) o (np_eye (k + 1 - 0)) false
             (k + 1)).
  - unfold mesh_built, new_object, h1. cbn [arrays objects].
    by rewrite Nat.sub_0_r.
  - by apply lookup_app_l_Some.
  - apply lookup_new.
  - by rewrite Nat.sub_0_r.
  - fold k. lia.
  - rewrite Nat.sub_0_r, Nat.add_1_r. apply eye_last_row.
Qed.
End mesh_facts.

Section mesh_theorems.
Context {R : Type} `{Scalar R} `{!ExactEq R}.

Lemma mesh_parts_attributes (h : heap R) (fields : list (string * pyval))
    (methods : list (string * result pyval)) (coords triangles : pyval) :
  dict_get fields "coords" = Some coords →
  dict_get fields "triangles" = Some triangles →
  mesh_parts (VDuck fields methods) h = (Ok (coords, triangles), h).
Proof.
  intros Hc Ht. unfold mesh_parts, hasattr, getattr, duck_hasattr.
  rewrite Hc, Ht. reflexivity.
Qed.

Lemma mesh_parts_accessor (h : heap R) (fields : list (string * pyval))
    (methods : list (string * result pyval)) (coords triangles : pyval) :
  duck_hasattr fields methods "coords" && duck_hasattr fields methods "triangles"
  = false →
  dict_get methods "get_mesh" = Some (Ok (VTuple [coords; triangles])) →
  mesh_parts (VDuck fields methods) h = (Ok (coords, triangles), h).
Proof.
  intros Hattrs Hget.
  assert (Hg : duck_hasattr fields methods "get_mesh" = true).
  { unfold duck_hasattr. rewrite Hget. by destruct (dict_get fields _). }
  unfold mesh_parts, hasattr. do 2 py_ret_step. rewrite Hattrs.
  py_ret_step. rewrite Hg. unfold call_get_mesh. rewrite Hget. reflexivity.
Qed.

Lemma mesh_parts_no_form (h : heap R) (mesh : pyval) :
  (∀ l, mesh = VObject l → is_Some (objects h !! l)) →
  ¬ mesh_form h mesh →
  mesh_parts mesh h
  = (Raise (ValueError "Cannot interpret input as triangular mesh"), h).
Proof.
  intros Hobj Hform. destruct mesh as [| | | |l|items|items|fields methods];
    try reflexivity.
  - destruct (Hobj l eq_refl) as [o Ho].
    assert (Hattr : ∀ name, hasattr (VObject l) name h
              = (Ok match o with
                    | OPointset _ _ => false
                    | _ => String.eqb name "get_mesh"
                    end, h)).
    { intros name. unfold hasattr.
      rewrite run_bind, (get_object_ok h l o Ho). by destruct o. }
    unfold mesh_parts. rewrite run_bind, Hattr, run_bind, Hattr.
    destruct o.
    + cbn [andb]. by rewrite run_bind, Hattr.
    + exfalso. apply Hform, form_accessor. by rewrite Hattr.
    + exfalso. apply Hform, form_accessor. by rewrite Hattr.
  - destruct items as [|a [|b [|c items]]]; try reflexivity.
    exfalso. apply Hform, form_pair.
  - unfold mesh_parts, hasattr. do 2 py_ret_step.
    destruct (duck_hasattr fields methods "coords") eqn:Hc;
      destruct (duck_hasattr fields methods "triangles") eqn:Ht; cbn [andb];
      try (py_ret_step;
           destruct (duck_hasattr fields methods "get_mesh") eqn:Hg;
           [exfalso; apply Hform, form_accessor; unfold hasattr;
            cbn [mret py_ret]; by rewrite Hg | reflexivity]).
    exfalso. apply Hform, form_attributes; unfold hasattr; cbn [mret py_ret];
      by rewrite ?Hc, ?Ht.
Qed.

(** C10. [TriangularMesh] accepts a pair, an object with [coords] and
    [triangles] attributes, and an object whose [get_mesh()] returns a pair;
    for the same coordinates and triangles the three yield the same mesh.
    Any other input, a dict among them, raises [ValueError] and leaves the
    heap as it was. *)
Theorem TriangularMesh_init_dispatch (h : heap R) (c : aref) (o : array_obj R)
    (t : pyval) :
  arrays h !! c = Some o →
  let built := mesh_built h c t (obj_shape o).2 in
  TriangularMesh_init (VTuple [VArray c; t]) h = built ∧
  (∀ fields methods,
     dict_get fields "coords" = Some (VArray c) →
     dict_get fields "triangles" = Some t →
     TriangularMesh_init (VDuck fields methods) h = built) ∧
  (∀ fields methods,
     duck_hasattr fields methods "coords"
     && duck_hasattr fields methods "triangles" = false →
     dict_get methods "get_mesh" = Some (Ok (VTuple [VArray c; t])) →
     TriangularMesh_init (VDuck fields methods) h = built) ∧
  (∀ mesh,
     (∀ l, mesh = VObject l → is_Some (objects h !! l)) →
     ¬ mesh_form h mesh →
     TriangularMesh_init mesh h
     = (Raise (ValueError "Cannot interpret input as triangular mesh"), h)) ∧
  (∀ items,
     TriangularMesh_init (VDict items) h
     = (Raise (ValueError "Cannot interpret input as triangular mesh"), h)).
Proof.
  intros Hc built. split; [|split; [|split; [|split]]].
  - by apply (TriangularMesh_init_parts h _ c t o).
  - intros fields methods Hcoords Htriangles.
    apply (TriangularMesh_init_parts h _ c t o Hc).
    by apply mesh_parts_attributes.
  - intros fields methods Hattrs Hget.
    apply (TriangularMesh_init_parts h _ c t o Hc).
    by apply mesh_parts_accessor.
  - intros mesh Hobj Hform. unfold TriangularMesh_init.
    by rewrite run_bind, mesh_parts_no_form.
  - intros items. reflexivity.
Qed.
End mesh_theorems.

Section family.
Context {R : Type} `{Scalar R}.

Lemma TriangularMesh_init_object (h h1 : heap R) (mesh : pyval) (m : oref) :
  TriangularMesh_init mesh h = (Ok m, h1) →
  ∃ p t, objects h1 !! m = Some (OTriangularMesh p t).
Proof.
  unfold TriangularMesh_init. rewrite run_bind.
  destruct (mesh_parts mesh h) as [[parts|e] h2]; [|done].
  rewrite run_bind.
  destruct (Pointset_init parts.1 None false h2) as [[p|e] h3]; [|done].
  unfold new_object. intros [= <- <-]. cbn [objects].
  eexists _, _. apply lookup_new.
Qed.

(** [get_mesh] on a [TriangularMesh] passes [name=] to
    [Pointset.get_coords], whose signature has no such keyword. *)
Lemma get_mesh_unexpected_keyword (h : heap R) (m : oref) (p : Pointset)
    (t name : pyval) :
  objects h !! m = Some (OTriangularMesh p t) →
  TriangularMesh_get_mesh m name h
  = (Raise (TypeError "get_coords() got an unexpected keyword argument"), h).
Proof.
  intros Hm. unfold TriangularMesh_get_mesh, call_get_coords.
  by rewrite !run_bind, (get_object_ok h m _ Hm).
Qed.

Lemma dict_set_head {V} (d : list (string * V)) (k k' : string) (v v' : V) :
  ∃ w d', dict_set ((k, v) :: d) k' v' = (k, w) :: d'.
Proof. cbn. destruct (String.eqb k k'); by eexists _, _. Qed.

Lemma py_dict_head {V} (k : string) (v : V) (items : list (string * V)) :
  ∃ w d, py_dict ((k, v) :: items) = (k, w) :: d.
Proof.
  unfold py_dict. cbn [foldl dict_set fst snd].
  generalize (@nil (string * V)). generalize v.
  induction items as [|[k' v'] items IH]; intros w d; [by eexists _, _|].
  cbn [foldl fst snd].
  destruct (dict_set_head d k k' w v') as (w' & d' & ->). apply IH.
Qed.

(** The loop of [TriMeshFamily.__init__] stops at its first item. *)
Lemma TriMeshFamily_init_loop_first (h : heap R) (name : string) (mesh : pyval)
    (items : list (string * pyval)) (triangles : pyval)
    (coords : list (string * pyval)) :
  ∃ h',
    TriMeshFamily_init_loop ((name, mesh) :: items) triangles coords h
    = (Raise match (TriangularMesh_init mesh h).1 with
             | Ok _ => TypeError "get_coords() got an unexpected keyword argument"
             | Raise e => e
             end, h').
Proof.
  cbn [TriMeshFamily_init_loop]. rewrite run_bind.
  destruct (TriangularMesh_init mesh h) as [[m|e] h1] eqn:Hinit; [|by eexists].
  destruct (TriangularMesh_init_object h h1 mesh m Hinit) as (p & t & Hm).
  rewrite run_bind, (get_mesh_unexpected_keyword h1 m p t VNone Hm).
  by eexists.
Qed.

(** No family with entries can be constructed: the first entry already
    raises, [TypeError] if its mesh could be built. *)
Lemma TriMeshFamily_init_fails (h : heap R) (name : string) (mesh : pyval)
    (mapping : list (string * pyval)) (default : option string) :
  ∃ mesh' items h',
    py_dict ((name, mesh) :: mapping) = (name, mesh') :: items ∧
    TriMeshFamily_init ((name, mesh) :: mapping) default h
    = (Raise match (TriangularMesh_init mesh' h).1 with
             | Ok _ => TypeError "get_coords() got an unexpected keyword argument"
             | Raise e => e
             end, h').
Proof.
  unfold TriMeshFamily_init.
  destruct (py_dict_head name mesh mapping) as (mesh' & d & ->).
  destruct (TriMeshFamily_init_loop_first h name mesh' d VNone []) as [h' Hloop].
  exists mesh', d, h'. split; [done|]. by rewrite run_bind, Hloop.
Qed.

(** On a family object [get_names] lists the keys of the coordinate
    dictionary in insertion order and leaves the heap as it was; [get_coords]
    returns the entry stored under the name, without a name it is the
    lookup of the default name, and a name that is not a key raises
    [KeyError] with that name. *)
Lemma TriMeshFamily_accessors (h : heap R) (self : oref) (triangles : pyval)
    (coords : list (string * pyval)) (default : string) :
  objects h !! self = Some (OTriMeshFamily triangles coords default) →
  TriMeshFamily_get_names self h = (Ok (map fst coords), h) ∧
  (∀ name c, dict_get coords name = Some c →
     TriMeshFamily_get_coords self (VStr name) h = (Ok c, h)) ∧
  TriMeshFamily_get_coords self VNone h
  = TriMeshFamily_get_coords self (VStr default) h ∧
  (∀ name, dict_get coords name = None →
     TriMeshFamily_get_coords self (VStr name) h = (Raise (KeyError name), h)).
Proof.
  intros Hself.
  assert (Hget : ∀ name, TriMeshFamily_get_coords self (VStr name) h
            = match dict_get coords name with
              | Some c => (Ok c, h)
              | None => (Raise (KeyError name), h)
              end).
  { intros name. unfold TriMeshFamily_get_coords.
    rewrite run_bind, (get_object_ok h self _ Hself). py_ret_step.
    by destruct (dict_get coords name). }
  split; [|split; [|split]].
  - unfold TriMeshFamily_get_names.
    by rewrite run_bind, (get_object_ok h self _ Hself).
  - intros name c Hc. by rewrite Hget, Hc.
  - rewrite Hget. unfold TriMeshFamily_get_coords.
    rewrite run_bind, (get_object_ok h self _ Hself). py_ret_step.
    by destruct (dict_get coords default).
  - intros name Hc. by rewrite Hget, Hc.
Qed.
End family.

(** C3. The constructor of [TriMeshFamily] never returns for a mapping with
    entries: it builds the mesh of the first entry and then raises
    [TypeError] in that mesh's [get_mesh] (or raises already while building
    it), so no family object exists.  For the spec's example, two meshes
    that share their triangles, the error is the [TypeError]. *)
Theorem TriMeshFamily_init_raises :
  (∀ (h : heap Z) name mesh mapping default,
     is_ok (TriMeshFamily_init ((name, mesh) :: mapping) default h).1 = false) ∧
  (TriMeshFamily_init [("a", VTuple [VArray 0; VArray 2]);
                       ("b", VTuple [VArray 1; VArray 2])] None ex_mesh_heap).1
  = Raise (TypeError "get_coords() got an unexpected keyword argument").
Proof.
  split; [|reflexivity].
  intros h name mesh mapping default.
  destruct (TriMeshFamily_init_fails h name mesh mapping default)
    as (mesh' & items & h' & _ & ->).
  reflexivity.
Qed.

(** * Grid *)

(** C2. A mask of shape [(2, 2, 2)] whose only true element is at
    [(0, 1, 0)]: [from_mask] stores the coordinates [[0, 1, 0]], and
    [to_mask(shape=mask.shape)] uses that array as one index along the first
    axis, which sets the slabs [0] and [1], the whole volume.  The true
    positions of the result are not those of the mask.  For a mask of shape
    [(1, 1, 2)] with its true element at [(0, 0, 1)] the same assignment
    raises [IndexError] and there is no result at all. *)
Theorem mask_round_trip_example :
  true_positions (np_bool_ (dataobj ex_mask)) = [[0; 1; 0]] ∧
  ((g ← Grid_from_mask ex_mask; get_object g) ex_mask_heap).1
  = Ok (OPointset cls_Grid (mkPointset 1 0 false)) ∧
  (∃ img,
     ((g ← Grid_from_mask ex_mask;
       Grid_to_mask g (Some (nshape (dataobj ex_mask)))) ex_mask_heap).1
     = Ok img ∧
     nshape (dataobj img) = [2; 2; 2] ∧
     flat (dataobj img) = replicate 8 true ∧
     true_positions (dataobj img) ≠ true_positions (np_bool_ (dataobj ex_mask))) ∧
  ((g ← Grid_from_mask ex_flat_mask;
    Grid_to_mask g (Some (nshape (dataobj ex_flat_mask)))) ex_mask_heap).1
  = Raise (IndexError "index is out of bounds for axis 0").
Proof.
  split; [reflexivity|]. split; [reflexivity|]. split; [|reflexivity].
  eexists. split; [reflexivity|]. split; [reflexivity|].
  split; [reflexivity | discriminate].
Qed.

(** An instance: for the coordinates [[0, 0, 2], [1, 1, 2]] the inferred
    shape is the maxima of the two rows, [(2, 2)], and the value 2 is then
    an index past the end of the first axis. *)
Example to_mask_default_shape_example :
  np_max_axis1 ex_grid_coords = Ok [2; 2]%Z ∧
  (Grid_to_mask 0 None ex_grid_heap).1
  = Raise (IndexError "index is out of bounds for axis 0").
Proof. split; reflexivity. Qed.

Lemma mapM_result_cons {A B} (f : A → result B) (x : A) (l : list A) :
  mapM f (x :: l) = (y ← f x; k ← mapM f l; mret (y :: k)).
Proof. reflexivity. Qed.

Lemma result_bind_ok {A B} (a : A) (f : A → result B) : (Ok a ≫= f) = f a.
Proof. reflexivity. Qed.

Lemma mapM_result_raises {A B} (f : A → result B) (l : list A) (x : A) :
  In x l → is_ok (f x) = false → is_ok (mapM f l) = false.
Proof.
  induction l as [|y l IH]; [done|]. intros [->|Hx] Hf; rewrite mapM_result_cons.
  - by destruct (f x).
  - destruct (f y); [|done]. cbn. specialize (IH Hx Hf).
    by destruct (mapM f l).
Qed.

Lemma row_max_in (x : Z) (r : list Z) :
  In (foldl (λ m y, if sleb m y then y else m) x r) (x :: r).
Proof.
  revert x. induction r as [|y r IH]; intros x; [by left|].
  cbn [foldl]. destruct (IH (if sleb x y then y else x)) as [Heq|Hin].
  - rewrite <- Heq. destruct (sleb x y); [right; by left | by left].
  - right. by right.
Qed.

(** C9. For a grid of integer index coordinates that are not homogeneous
    and have at least one row and one column, [to_mask()] builds no volume:
    it raises.  The inferred shape holds the maximum of each row, not of
    each axis; its first extent is the largest entry of the first row, and
    the index assignment then applies that entry to the first axis, where it
    is out of bounds. *)
Theorem to_mask_default_shape_raises (h : heap Z) (self : oref) (p : Pointset)
    (C : ndarray Z) :
  objects h !! self = Some (OPointset cls_Grid p) →
  homogeneous p = false →
  arrays h !! coordinates p = Some (Dense C) →
  wf_ndarray C → 0 < (shape C).1 → 0 < (shape C).2 →
  is_ok (Grid_to_mask self None h).1 = false.
Proof.
  intros Hself Hhom Hc [HlenC HrowsC] HN Hk. unfold Grid_to_mask.
  rewrite run_bind, (get_object_ok h self _ Hself).
  rewrite run_bind, run_bind, (np_asanyarray_dense h _ C Hc).
  rewrite run_bind, (get_dense_ok h _ C Hc).
  rewrite run_bind. unfold lift at 1. unfold np_max_axis1.
  destruct ((shape C).2 =? 0) eqn:Hk0; [apply Nat.eqb_eq in Hk0; lia|].
  rewrite run_bind, (Pointset_dim_ok h _ (Dense C) _ Hc), Hhom.
  cbn [obj_shape Z.b2z]. rewrite Z.sub_0_r.
  destruct (data C) as [|r0 rows] eqn:HdataC; [cbn in HlenC; lia|].
  apply Forall_cons_iff in HrowsC as [Hr0 Hrows].
  destruct r0 as [|x r0]; [cbn in Hr0; lia|].
  set (top := foldl (λ m y, if sleb m y then y else m) x r0).
  assert (Htop : In top (x :: r0)) by apply row_max_in.
  unfold py_slice_stop.
  destruct (Z.of_nat (shape C).2 <? 0)%Z eqn:Hneg; [apply Z.ltb_lt in Hneg; lia|].
  rewrite Nat2Z.id. cbn [map].
  destruct (shape C).2 as [|k] eqn:Hshape2; [lia|]. cbn [take].
  unfold lift at 1. rewrite mapM_result_cons. fold top.
  destruct (extent top) as [n0|e] eqn:Hext; [|done].
  assert (Hn0 : (0 ≤ top)%Z ∧ n0 = Z.to_nat top).
  { revert Hext. unfold extent. cbn [to_index Z_scalar].
    destruct (top <? 0)%Z eqn:Htop0; [done|]. apply Z.ltb_ge in Htop0.
    by intros [= <-]. }
  destruct Hn0 as [Htop0 ->]. rewrite result_bind_ok.
  destruct (mapM extent _) as [rest|e]; [|done]. rewrite result_bind_ok.
  unfold mret at 1, result_ret at 1.
  rewrite run_bind, (np_asanyarray_dense h _ C Hc).
  rewrite run_bind, (get_dense_ok h _ C Hc).
  rewrite run_bind, (Pointset_dim_ok h _ (Dense C) _ Hc).
  rewrite run_bind. unfold lift. unfold setitem_true. cbn [np_zeros nshape].
  assert (Hraise : is_ok (mapM (axis_index (Z.to_nat top))
                            (concat (data (columns_to
                               (Z.of_nat (obj_shape (Dense C)).2 - Z.b2z false) C))))
                   = false).
  { apply (mapM_result_raises _ _ top).
    - unfold columns_to. cbn [data obj_shape Z.b2z]. rewrite HdataC, Hshape2.
      cbn [map concat]. apply in_or_app. left.
      unfold py_slice_stop. rewrite Z.sub_0_r.
      destruct (Z.of_nat (S k) <? 0)%Z; [lia|]. rewrite Nat2Z.id.
      rewrite <- Hr0, firstn_all. exact Htop.
    - unfold axis_index. cbn [to_index Z_scalar]. rewrite Z2Nat.id by done.
      destruct (top <? - top)%Z; [done|].
      by rewrite Z.leb_refl. }
  destruct (mapM _ _); [done | done].
Qed.

(** * Instances of the laws and of the results *)

#[global] Instance Z_exact_eq : ExactEq Z.
Proof. intros x y. apply Z.eqb_eq. Qed.

#[global] Instance Z_exact : ExactScalar Z.
Proof.
  split; try apply _; intros; cbn [szero sone sadd smul Z_scalar]; lia.
Qed.

Ltac ex_valid :=
  split;
  [ exists (Dense ex_coords); repeat split; reflexivity
  | split; [reflexivity | repeat constructor]
  | reflexivity
  | split; [reflexivity | repeat constructor]
  | reflexivity | reflexivity | reflexivity ].

Lemma get_coords_spec_witness :
  valid_pointset ex_heap ex_pointset ex_coords ex_affine ∧
  ∃ ident dim r h' X,
    np_allclose ex_affine (np_eye (shape ex_affine).1) = Ok ident ∧
    Pointset_dim (VArray (coordinates ex_pointset)) (homogeneous ex_pointset)
      ex_heap = (Ok dim, ex_heap) ∧
    dim = (Z.of_nat (shape ex_coords).2 - Z.b2z (homogeneous ex_pointset))%Z ∧
    Pointset_get_coords ex_pointset false ex_heap = (Ok r, h') ∧
    arrays h' !! r = Some (Dense X) ∧
    wf_ndarray X ∧
    Z.of_nat (shape X).1 = Z.of_nat (shape ex_coords).1 ∧
    Z.of_nat (shape X).2 = (dim + Z.b2z false)%Z ∧
    data X = map (transformed_point ex_affine ident (homogeneous ex_pointset) false)
               (data ex_coords) ∧
    heap_extends ex_heap h'.
Proof.
  split; [ex_valid|].
  apply (get_coords_spec ex_heap ex_pointset ex_coords ex_affine false). ex_valid.
Defined.

Lemma get_coords_identity_fast_path_witness :
  arrays ex_heap_Q !! 1 = Some (Dense ex_near_identity) ∧
  np_allclose ex_near_identity (np_eye 3) = Ok true ∧
  ex_near_identity ≠ np_eye 3 ∧
  Pointset_get_coords (mkPointset 0 1 false) false ex_heap_Q = (Ok 0, ex_heap_Q).
Proof.
  split; [reflexivity|]. split; [reflexivity|]. split; [discriminate|].
  eapply (get_coords_identity_fast_path ex_heap_Q (mkPointset 0 1 false)
            ex_near_identity false); reflexivity.
Defined.

Lemma init_rejects_malformed_affine_witness :
  Pointset_new cls_Pointset (VArray 0) (Some 3) false ex_heap
  = (Raise (ValueError "Invalid affine for coordinates"), ex_heap) ∧
  Pointset_new cls_Pointset (VArray 0) (Some 4) false ex_heap
  = (Raise (ValueError "Invalid affine matrix"), ex_heap).
Proof.
  split.
  - apply (init_rejects_malformed_affine ex_heap cls_Pointset 0 3
             (Dense ex_coords) ex_bad_shape false);
      [reflexivity | reflexivity | split; [reflexivity | repeat constructor] |].
    cbn. lia.
  - apply (init_rejects_malformed_affine ex_heap cls_Pointset 0 4
             (Dense ex_coords) ex_bad_row false)
      with (r := [0; 0; 1; 1]%Z);
      [reflexivity | reflexivity | split; [reflexivity | repeat constructor]
      | reflexivity | reflexivity | reflexivity | discriminate].
Defined.

Lemma rmatmul_spec_witness :
  objects ex_heap !! 0 = Some (OPointset cls_Pointset ex_pointset) ∧
  valid_pointset ex_heap ex_pointset ex_coords ex_affine ∧
  ∃ q h' p' MA,
    Pointset_rmatmul 0 2 ex_heap = (Ok q, h') ∧
    q ≠ 0 ∧
    objects h' !! q = Some (OPointset cls_Pointset p') ∧
    np_matmul ex_outer ex_affine = Ok MA ∧
    arrays h' !! affine p' = Some (Dense MA) ∧
    coordinates p' = coordinates ex_pointset ∧
    homogeneous p' = homogeneous ex_pointset ∧
    objects h' !! 0 = Some (OPointset cls_Pointset ex_pointset) ∧
    (∀ l o, arrays ex_heap !! l = Some o → arrays h' !! l = Some o).
Proof.
  split; [reflexivity|]. split; [ex_valid|].
  apply (rmatmul_spec ex_heap 0 cls_Pointset ex_pointset ex_coords ex_affine 2
           ex_outer);
    [reflexivity | ex_valid | reflexivity
    | split; [reflexivity | repeat constructor] | reflexivity | reflexivity].
Defined.



Lemma TriangularMesh_init_dispatch_witness :
  arrays ex_heap !! 0 = Some (Dense ex_coords) ∧
  TriangularMesh_init (VTuple [VArray 0; VArray 2]) ex_heap
  = mesh_built ex_heap 0 (VArray 2) 3 ∧
  TriangularMesh_init (VDuck [("coords", VArray 0); ("triangles", VArray 2)] [])
    ex_heap
  = mesh_built ex_heap 0 (VArray 2) 3 ∧
  TriangularMesh_init
    (VDuck [] [("get_mesh", Ok (VTuple [VArray 0; VArray 2]))]) ex_heap
  = mesh_built ex_heap 0 (VArray 2) 3 ∧
  TriangularMesh_init (VDict [("a", VArray 0)]) ex_heap
  = (Raise (ValueError "Cannot interpret input as triangular mesh"), ex_heap).
Proof.
  split; [reflexivity|].
  pose proof (TriangularMesh_init_dispatch ex_heap 0 (Dense ex_coords) (VArray 2)
                eq_refl) as (Hpair & Hattr & Hacc & _ & Hdict).
  split; [exact Hpair|].
  split; [apply Hattr; reflexivity|].
  split; [apply Hacc; reflexivity|].
  apply Hdict.
Defined.

(** * The invariant and the limits of [__rmatmul__] *)

Section invariant.
Context {R : Type} `{Scalar R} `{!ExactEq R}.

(** X1. Whatever [Pointset.__init__] accepts is a valid pointset: the
    hypothesis of the results on [get_coords] and [__rmatmul__] is what the
    constructor checks. *)
Lemma Pointset_init_establishes_invariant (h h' : heap R) (c a : aref)
    (o : array_obj R) (C A : ndarray R) (hom : bool) (p : Pointset) :
  arrays h !! c = Some o → coords_of o = Ok C → obj_shape o = shape C →
  wf_ndarray C →
  arrays h !! a = Some (Dense A) → wf_ndarray A →
  Pointset_init (VArray c) (Some a) hom h = (Ok p, h') →
  h' = h ∧ p = mkPointset c a hom ∧ valid_pointset h p C A.
Proof.
  intros Hc Ho Hshape HwfC Ha HwfA.
  rewrite (Pointset_init_checks h c a o A hom Hc Ha).
  unfold shape_ne.
  destruct (Z.of_nat (shape A).1 =? _)%Z eqn:H1; [|done].
  destruct (Z.of_nat (shape A).2 =? _)%Z eqn:H2; [|done].
  apply Z.eqb_eq in H1, H2. cbn [andb negb].
  unfold last_row_init, last_entry.
  destruct (list.last (data A)) as [r|] eqn:Hlast; [|done].
  destruct (np_any_ne _ _) eqn:Hany; [done|].
  destruct (list.last r) as [x|] eqn:Hx; [|done].
  destruct (seqb x sone) eqn:Hone; [|done]. cbn [negb].
  intros [= <- <-]. split; [done|]. split; [done|].
  assert (Hlen : length r = (shape A).2).
  { destruct HwfA as [_ HrowsA]. rewrite Forall_forall in HrowsA.
    apply HrowsA. apply last_Some in Hlast as [l ->].
    apply in_or_app. right. by left. }
  split; cbn [coordinates affine homogeneous]; try done.
  - by exists o.
  - clear -H1 H2. lia.
  - rewrite Hshape in H1. clear -H1. destruct hom; cbn in H1; lia.
  - rewrite Hlast. f_equal.
    replace (shape A).1 with (length r) by (clear -Hlen H1 H2; lia).
    apply (affine_last_row_intro r x); [|done|done].
    by rewrite Hlen.
Qed.
End invariant.

Section rmatmul_limits.
Context {R : Type} `{Scalar R} `{!ExactEq R}.

(** What [M @ mesh] does on a [TriangularMesh]: the product is computed
    and stored, then [replace] fails in the constructor. *)
Lemma rmatmul_mesh_run (h : heap R) (self : oref) (p : Pointset) (t : pyval)
    (m : aref) (M A : ndarray R) :
  objects h !! self = Some (OTriangularMesh p t) →
  arrays h !! m = Some (Dense M) →
  arrays h !! affine p = Some (Dense A) →
  Pointset_rmatmul self m h
  = match np_matmul M A with
    | Ok MA =>
        (Raise (TypeError "__init__() got an unexpected keyword argument 'affine'"),
         Heap (arrays h ++ [Dense MA]) (objects h))
    | Raise e => (Raise e, h)
    end.
Proof.
  intros Hself Hm Ha. unfold Pointset_rmatmul.
  rewrite run_bind, (get_object_ok h self _ Hself).
  rewrite run_bind, (np_asanyarray_dense h m M Hm).
  rewrite run_bind, (get_dense_ok h m M Hm).
  rewrite run_bind, (get_dense_ok h _ A Ha).
  rewrite run_bind. unfold lift at 1.
  destruct (np_matmul M A) as [MA|e]; [|done].
  by rewrite run_bind.
Qed.

(** C4. The claim fails on the pointsets that are meshes.  After
    [TriangularMesh((coords, triangles))], [M @ mesh] with a matrix [M]
    whose column count is that of the mesh's affine computes the product
    with the identity affine, stores it, and then [replace] raises
    [TypeError]: it calls [TriangularMesh.__init__] with the keyword
    [affine], which that constructor does not take.  No new pointset is
    returned, for any [M]; and no mesh, however it was built, can be
    transformed. *)
Theorem rmatmul_refused_on_mesh (h : heap R) (c : aref) (o : array_obj R)
    (t : pyval) (a : aref) (M : ndarray R) :
  arrays h !! c = Some o → arrays h !! a = Some (Dense M) →
  let k := (obj_shape o).2 in
  let mesh := OTriangularMesh (mkPointset c (length (arrays h)) false) t in
  let run := (m ← TriangularMesh_init (VTuple [VArray c; t]);
              Pointset_rmatmul m a) h in
  ((shape M).2 = k + 1 →
   ∃ MA, np_matmul M (np_eye (k + 1)) = Ok MA ∧
         run = (Raise (TypeError "__init__() got an unexpected keyword argument 'affine'"),
                Heap (arrays h ++ [Dense (np_eye (k + 1)); Dense MA])
                     (objects h ++ [mesh]))) ∧
  ((shape M).2 ≠ k + 1 →
   run = (Raise (ValueError "matmul: Input operand 1 has a mismatch in its core dimension 0"),
          Heap (arrays h ++ [Dense (np_eye (k + 1))]) (objects h ++ [mesh]))) ∧
  (∀ (input : pyval) (h0 h1 : heap R) (m a' : oref),
     TriangularMesh_init input h0 = (Ok m, h1) →
     is_ok (Pointset_rmatmul m a' h1).1 = false).
Proof.
  intros Hc Ha k mesh run.
  pose proof (TriangularMesh_init_parts h (VTuple [VArray c; t]) c t o Hc eq_refl)
    as Hinit.
  unfold mesh_built in Hinit. fold k in Hinit.
  set (h1 := Heap (arrays h ++ [Dense (np_eye (k + 1))]) (objects h ++ [mesh])).
  assert (Hrun : run
            = match np_matmul M (np_eye (k + 1)) with
              | Ok MA =>
                  (Raise (TypeError "__init__() got an unexpected keyword argument 'affine'"),
                   Heap (arrays h1 ++ [Dense MA]) (objects h1))
              | Raise e => (Raise e, h1)
              end).
  { unfold run. rewrite run_bind, Hinit.
    apply (rmatmul_mesh_run h1 _ (mkPointset c (length (arrays h)) false) t a M).
    - apply lookup_new.
    - by apply lookup_app_l_Some.
    - apply lookup_new. }
  split; [|split].
  - intros Hk. rewrite Hrun. unfold np_matmul. cbn [np_eye shape fst snd].
    apply Nat.eqb_eq in Hk as ->. eexists. split; [reflexivity|].
    cbn [h1 arrays objects]. by rewrite <- app_assoc.
  - intros Hk. rewrite Hrun. unfold np_matmul. cbn [np_eye shape fst snd].
    by apply Nat.eqb_neq in Hk as ->.
  - intros input h0 h2 m a' Hbuilt.
    destruct (TriangularMesh_init_object h0 h2 input m Hbuilt) as (p & t' & Hm).
    unfold Pointset_rmatmul. rewrite run_bind, (get_object_ok h2 m _ Hm).
    rewrite run_bind.
    destruct (np_asanyarray a' h2) as [[m'|e] h3]; [|done].
    rewrite run_bind. destruct (get_dense m' h3) as [[M'|e] h4]; [|done].
    rewrite run_bind. destruct (get_dense (affine p) h4) as [[A'|e] h5]; [|done].
    rewrite run_bind. unfold lift at 1.
    destruct (np_matmul M' A') as [MA|e]; [|done].
    by rewrite run_bind.
Qed.
End rmatmul_limits.

Lemma rmatmul_refused_on_mesh_witness :
  arrays ex_heap !! 0 = Some (Dense ex_coords) ∧
  arrays ex_heap !! 2 = Some (Dense ex_outer) ∧
  ∃ MA, np_matmul ex_outer (np_eye 4) = Ok MA ∧
    (m ← TriangularMesh_init (VTuple [VArray 0; VArray 3]);
     Pointset_rmatmul m 2) ex_heap
    = (Raise (TypeError "__init__() got an unexpected keyword argument 'affine'"),
       Heap (arrays ex_heap ++ [Dense (np_eye 4); Dense MA])
            (objects ex_heap
             ++ [OTriangularMesh (mkPointset 0 5 false) (VArray 3)])).
Proof.
  split; [reflexivity|]. split; [reflexivity|].
  apply (proj1 (rmatmul_refused_on_mesh ex_heap 0 (Dense ex_coords) (VArray 3)
                  2 ex_outer eq_refl eq_refl)).
  reflexivity.
Defined.

(** An outer matrix whose product with the affine is not a homogeneous
    transform is refused by the constructor that [replace] calls: with the
    last row [0, 0, 1, 1] no new pointset is returned. *)
Lemma rmatmul_rejects_non_affine :
  wf_ndarray ex_bad_row ∧ shape ex_bad_row = shape ex_affine ∧
  Pointset_rmatmul 0 4 ex_heap
  = (Raise (ValueError "Invalid affine matrix"),
     Heap (arrays ex_heap
           ++ [Dense (NdArray (4, 4)
                        [[2; 0; 0; 1]; [0; 2; 0; 1]; [0; 0; 2; 1]; [0; 0; 2; 2]]%Z)])
          (objects ex_heap)).
Proof. split; [split; [reflexivity | repeat constructor]|]. split; reflexivity. Qed.

Lemma to_mask_default_shape_raises_witness :
  objects ex_grid_heap !! 0 = Some (OPointset cls_Grid (mkPointset 1 0 false)) ∧
  arrays ex_grid_heap !! 1 = Some (Dense ex_grid_coords) ∧
  wf_ndarray ex_grid_coords ∧
  is_ok (Grid_to_mask 0 None ex_grid_heap).1 = false.
Proof.
  split; [reflexivity|]. split; [reflexivity|].
  split; [split; [reflexivity | repeat constructor]|].
  apply (to_mask_default_shape_raises ex_grid_heap 0 (mkPointset 1 0 false)
           ex_grid_coords);
    [reflexivity | reflexivity | reflexivity
    | split; [reflexivity | repeat constructor] | cbn; lia | cbn; lia].
Defined.


(** * Further results on the constructor *)

Section constructor_results.
Context {R : Type} `{Scalar R} `{!ExactEq R}.

Lemma wf_np_eye (n : nat) : wf_ndarray (np_eye n : ndarray R).
Proof.
  split; cbn.
  - by rewrite length_map, length_seq.
  - apply Forall_forall. intros r (i & <- & _)%in_map_iff.
    by rewrite length_map, length_seq.
Qed.

(** X2. Without an affine, the constructor builds the identity of [dim + 1]
    rows, keeps the reference to the coordinates it was given, and the
    result satisfies the invariant.  The one exception is homogeneous
    coordinates without columns: [dim] is [-1], the identity has no rows, and
    reading its last row raises [IndexError]. *)
Theorem Pointset_init_default_affine (h : heap R) (c : aref) (o : array_obj R)
    (C : ndarray R) (hom : bool) :
  arrays h !! c = Some o → coords_of o = Ok C → obj_shape o = shape C →
  wf_ndarray C →
  let n := (shape C).2 + 1 - (if hom then 1 else 0) in
  let h' := Heap (arrays h ++ [Dense (np_eye n)]) (objects h) in
  (0 < n →
   Pointset_init (VArray c) None hom h
   = (Ok (mkPointset c (length (arrays h)) hom), h') ∧
   valid_pointset h' (mkPointset c (length (arrays h)) hom) C (np_eye n)) ∧
  (n = 0 →
   Pointset_init (VArray c) None hom h
   = (Raise (IndexError "index -1 is out of bounds for axis 0 with size 0"), h')).
Proof.
  intros Hc Ho Hshape HwfC n h'.
  assert (Hrun : Pointset_init (VArray c) None hom h
                 = Pointset_init (VArray c) (Some (length (arrays h))) hom h').
  { unfold Pointset_init at 1.
    rewrite run_bind, run_bind, (Pointset_dim_ok h c o hom Hc).
    rewrite run_bind. unfold lift at 1. unfold np_eye_int.
    destruct (_ <? 0)%Z eqn:Hneg.
    { exfalso. apply Z.ltb_lt in Hneg. clear -Hneg. destruct hom; cbn in *; lia. }
    replace (Z.to_nat (Z.of_nat (obj_shape o).2 - Z.b2z hom + 1)) with n
      by (unfold n; rewrite Hshape; clear; destruct hom; cbn; lia).
    unfold new_array at 1. unfold Pointset_init.
    rewrite (run_bind (np_asanyarray _)).
    erewrite np_asanyarray_dense; [done|]. cbn [arrays]. apply lookup_new. }
  assert (Hc' : arrays h' !! c = Some o) by (by apply lookup_app_l_Some).
  assert (Ha' : arrays h' !! length (arrays h) = Some (Dense (np_eye n)))
    by apply lookup_new.
  split.
  - intros Hn. destruct n as [|m] eqn:Hm; [lia|].
    assert (Hdim : S m + (if hom then 1 else 0) = (obj_shape o).2 + 1).
    { rewrite Hshape. clear -Hm. destruct hom; lia. }
    split.
    + rewrite Hrun.
      apply (Pointset_init_ok h' c _ o (np_eye (S m)) hom (S m)); try done.
      apply eye_last_row.
    + split; cbn [coordinates affine homogeneous]; try done.
      * by exists o.
      * apply wf_np_eye.
      * cbn [np_eye shape fst]. by rewrite <- Hshape.
      * apply eye_last_row.
  - intros Hn. rewrite Hrun, (Pointset_init_checks h' c _ o (np_eye n) hom Hc' Ha').
    rewrite Hn. unfold shape_ne. cbn [np_eye shape fst snd].
    replace (Z.of_nat (obj_shape o).2 - Z.b2z hom + 1)%Z with 0%Z
      by (rewrite Hshape; clear -Hn; unfold n in Hn; destruct hom; cbn; lia).
    reflexivity.
Qed.
End constructor_results.


(** * Further results on [__rmatmul__] *)

Section rmatmul_results.
Context {R : Type} `{ExactScalar R}.

(** X5. [M @ P] is again a valid pointset over the same coordinate rows, with
    the product as its affine, and [P] stays valid: transforms can be
    chained. *)
Theorem rmatmul_preserves_invariant (h : heap R) (self : oref) (cls : class)
    (p : Pointset) (C A : ndarray R) (m : aref) (M : ndarray R) :
  objects h !! self = Some (OPointset cls p) →
  valid_pointset h p C A →
  arrays h !! m = Some (Dense M) → wf_ndarray M → shape M = shape A →
  list.last (data M) = Some (affine_last_row (shape M).1) →
  ∃ q h' p' MA,
    Pointset_rmatmul self m h = (Ok q, h') ∧
    objects h' !! q = Some (OPointset cls p') ∧
    np_matmul M A = Ok MA ∧
    valid_pointset h' p' C MA ∧
    valid_pointset h' p C A.
Proof.
  intros Hself Hvalid Hm HwfM HshapeM HlastM.
  destruct (rmatmul_run h self cls p C A m M) as (MA & HMA & Hrun & Hvalid');
    try done.
  cbn zeta in Hrun, Hvalid'.
  eexists _, _, _, MA. split; [exact Hrun|].
  split; [cbn [objects]; apply lookup_new|]. split; [done|]. split; [done|].
  eapply valid_pointset_extends; [|done].
  split; cbn [arrays objects]; by apply prefix_app_r.
Qed.

(** A unit row picks an entry: [e_i . c = c[i]]. *)
Lemma dot_eye_row (i k : nat) (c : list R) :
  dot (map (λ j, if i =? j then sone else szero) (seq k (length c))) c
  = if decide (k ≤ i < k + length c) then nth (i - k) c szero else szero.
Proof.
  revert k. induction c as [|y c IH]; intros k.
  - cbn. by case_decide; [lia|].
  - cbn [length seq map]. rewrite dot_cons, IH.
    destruct (i =? k) eqn:Hik.
    + apply Nat.eqb_eq in Hik. subst k.
      rewrite smul_1_l. case_decide; [lia|]. rewrite sadd_0_r.
      case_decide; [|lia]. by rewrite Nat.sub_diag.
    + apply Nat.eqb_neq in Hik. rewrite smul_0_l, sadd_0_l.
      repeat case_decide; try lia; [|done].
      replace (i - k) with (S (i - S k)) by lia. done.
Qed.

Lemma length_column (j : nat) (b : list (list R)) :
  length (column j b) = length b.
Proof. unfold column. by rewrite length_map. Qed.

(** [np.eye(n) @ A = A] *)
Lemma matmul_eye_l (A : ndarray R) :
  wf_ndarray A → np_matmul (np_eye (shape A).1) A = Ok A.
Proof.
  intros [HlenA HrowsA]. unfold np_matmul. cbn [np_eye shape fst snd data].
  rewrite Nat.eqb_refl. f_equal. destruct A as [[n k] rows]. cbn in *.
  f_equal. rewrite map_map. subst n.
  transitivity (map id rows); [|apply map_id].
  rewrite <- (map_nth_seq id rows []).
  apply map_ext_in. intros i Hi%in_seq. unfold vecmat. cbn [shape data snd].
  assert (Hrow : length (nth i rows []) = k).
  { apply Forall_nth_length; [done | lia]. }
  unfold id at 1.
  transitivity (map id (nth i rows [])); [|apply map_id].
  rewrite <- (map_nth_seq id (nth i rows []) szero), Hrow.
  apply map_ext. intros j.
  rewrite <- (length_column j rows), dot_eye_row. unfold column.
  rewrite length_map. case_decide; [|lia]. rewrite Nat.sub_0_r. unfold id.
  apply nth_map_nth.
Qed.

(** X6. The identity as the outer transform leaves the affine as it was, value
    for value, and [get_coords] on the result returns the rows it returns
    on [P]. *)
Theorem rmatmul_identity (h : heap R) (self : oref) (cls : class)
    (p : Pointset) (C A : ndarray R) (m : aref) (b : bool) :
  objects h !! self = Some (OPointset cls p) →
  valid_pointset h p C A →
  arrays h !! m = Some (Dense (np_eye (shape A).1)) →
  ∃ q h' p' r1 h1 r2 h2 X,
    Pointset_rmatmul self m h = (Ok q, h') ∧
    objects h' !! q = Some (OPointset cls p') ∧
    arrays h' !! affine p' = Some (Dense A) ∧
    Pointset_get_coords p' b h' = (Ok r1, h1) ∧
    Pointset_get_coords p b h' = (Ok r2, h2) ∧
    arrays h1 !! r1 = Some (Dense X) ∧
    arrays h2 !! r2 = Some (Dense X).
Proof.
  intros Hself Hvalid Hm.
  pose proof Hvalid as [_ _ _ HwfA Hsq _ Hlast].
  pose proof (valid_pointset_rows _ _ _ _ Hvalid) as Hpos.
  destruct (rmatmul_run h self cls p C A m (np_eye (shape A).1))
    as (MA & HMA & Hrun & Hvalid'); try done.
  { apply wf_np_eye. }
  { cbn [np_eye shape]. rewrite (surjective_pairing (shape A)). by rewrite <- Hsq. }
  { cbn [np_eye shape fst]. destruct (shape A).1 as [|n]; [lia|]. apply eye_last_row. }
  rewrite matmul_eye_l in HMA by done. injection HMA as <-.
  cbn zeta in Hrun, Hvalid'.
  set (p' := mkPointset (coordinates p) (length (arrays h)) (homogeneous p)) in *.
  set (h' := Heap _ _) in *.
  assert (Hold : valid_pointset h' p C A).
  { eapply valid_pointset_extends; [|done].
    split; cbn [arrays objects]; by apply prefix_app_r. }
  destruct (get_coords_rows h' p' C A b Hvalid')
    as (i1 & r1 & h1 & X1 & Hi1 & Hg1 & Hr1 & Hs1 & Hd1 & _).
  destruct (get_coords_rows h' p C A b Hold)
    as (i2 & r2 & h2 & X2 & Hi2 & Hg2 & Hr2 & Hs2 & Hd2 & _).
  assert (i2 = i1) as -> by congruence.
  assert (X2 = X1) as ->.
  { apply ndarray_eq; [by rewrite Hs1, Hs2 | by rewrite Hd1, Hd2]. }
  exists (length (objects h)), h', p', r1, h1, r2, h2, X1.
  split; [done|]. split; [cbn [objects]; apply lookup_new|].
  split; [cbn [affine arrays]; apply lookup_new|]. done.
Qed.
End rmatmul_results.

(** * Further results on [get_coords] *)

Lemma nth_map_default {A B} (f : A → B) (l : list A) (i : nat) (d : A) (e : B) :
  i < length l → nth i (map f l) e = f (nth i l d).
Proof.
  intros Hi. rewrite (nth_indep _ e (f d)) by (by rewrite length_map).
  apply map_nth.
Qed.

Lemma forallb_zip_diag {A} (f : A * A → bool) (l : list A) :
  (∀ x, In x l → f (x, x) = true) → forallb f (zip l l) = true.
Proof.
  induction l as [|x l IH]; intros Hf; [done|].
  cbn. rewrite Hf by (by left). apply IH. intros y Hy. apply Hf. by right.
Qed.

Section get_coords_results.
Context {R : Type} `{ExactScalar R}.

(** X4. The affine never changes the homogeneous coordinate: in the
    homogeneous output every row ends in the last entry of the homogenised
    input row, which is one when the stored coordinates are Cartesian; and
    the Cartesian output is the homogeneous output without its last
    column. *)
Theorem get_coords_homogeneous_entry (h : heap R) (p : Pointset)
    (C A : ndarray R) :
  valid_pointset h p C A →
  ∃ rh hh Xh rc hc Xc,
    Pointset_get_coords p true h = (Ok rh, hh) ∧
    arrays hh !! rh = Some (Dense Xh) ∧
    Pointset_get_coords p false h = (Ok rc, hc) ∧
    arrays hc !! rc = Some (Dense Xc) ∧
    (∀ i, i < (shape C).1 →
       list.last (nth i (data Xh) [])
       = list.last (homogenize (homogeneous p) (nth i (data C) []))) ∧
    (homogeneous p = false →
     Forall (λ r, list.last r = Some sone) (data Xh)) ∧
    data Xc = map (λ r, take (length r - 1) r) (data Xh).
Proof.
  intros Hvalid.
  destruct (get_coords_rows h p C A true Hvalid)
    as (i1 & rh & hh & Xh & Hi1 & Hgh & Hrh & _ & Hdh & _).
  destruct (get_coords_rows h p C A false Hvalid)
    as (i2 & rc & hc & Xc & Hi2 & Hgc & Hrc & _ & Hdc & _).
  assert (i2 = i1) as -> by congruence.
  pose proof Hvalid as [_ [HlenC HrowsC] _ [HlenA HrowsA] Hsq Hdim Hlast].
  pose proof (valid_pointset_rows _ _ _ _ Hvalid) as Hpos.
  assert (Hentry : ∀ v, In v (data C) →
            list.last (transformed_point A i1 (homogeneous p) true v)
            = list.last (homogenize (homogeneous p) v)).
  { intros v Hv. unfold transformed_point. cbn zeta.
    destruct i1; [done|]. unfold apply_affine.
    rewrite last_map, Hlast. cbn [option_map].
    pose proof (homogenize_length p C A h v Hvalid Hv) as Hlen.
    unfold affine_last_row. rewrite dot_unit by (rewrite Hlen; lia).
    destruct (list.last (homogenize (homogeneous p) v)) as [x|] eqn:Hx.
    - f_equal. rewrite <- (last_nth _ x szero Hx), Hlen. done.
    - apply last_None in Hx. rewrite Hx in Hlen. cbn in Hlen. lia. }
  exists rh, hh, Xh, rc, hc, Xc. repeat (split; [done|]).
  split; [|split].
  - intros i Hi. rewrite Hdh.
    rewrite (nth_map_default _ _ _ []) by lia.
    apply Hentry, nth_In. lia.
  - intros Hhom. rewrite Hdh. apply Forall_forall.
    intros r (v & <- & Hv)%in_map_iff. rewrite (Hentry v Hv), Hhom.
    unfold homogenize. by rewrite last_snoc.
  - rewrite Hdc, Hdh, map_map. apply map_ext. intros v.
    unfold transformed_point, cartesian. done.
Qed.
End get_coords_results.

Section default_affine.
Context {R : Type} `{Scalar R} `{!ExactEq R}.

(** The default affine passes the identity test of [get_coords] as soon as
    zero and one are close to themselves. *)
Lemma allclose_eye_refl (n : nat) :
  isclose (szero : R) szero = true → isclose (sone : R) sone = true →
  np_allclose (np_eye n : ndarray R) (np_eye (shape (np_eye n : ndarray R)).1)
  = Ok true.
Proof.
  intros H0 H1. unfold np_allclose. cbn [np_eye shape fst snd data].
  unfold shape_eqb. cbn [fst snd]. rewrite Nat.eqb_refl. cbn [andb]. f_equal.
  apply forallb_zip_diag. intros u Hu. apply forallb_zip_diag.
  intros x Hx. apply in_map_iff in Hu as (i & <- & _).
  apply in_map_iff in Hx as (j & <- & _). by destruct (i =? j).
Qed.

(** X3. A pointset built without an affine hands out the array it was built
    over: [get_coords] in the representation of the stored coordinates
    returns the reference the constructor received, and the heap is the one
    the constructor left. *)
Theorem default_pointset_returns_its_array (h : heap R) (c : aref)
    (C : ndarray R) (b : bool) :
  isclose (szero : R) szero = true → isclose (sone : R) sone = true →
  arrays h !! c = Some (Dense C) →
  (if b then 0 < (shape C).2 else True) →
  ∃ p h',
    Pointset_init (VArray c) None b h = (Ok p, h') ∧
    coordinates p = c ∧
    Pointset_get_coords p b h' = (Ok c, h').
Proof.
  intros H0 H1 Hc Hk.
  set (n := (shape C).2 + 1 - (if b then 1 else 0)).
  set (h' := Heap (arrays h ++ [Dense (np_eye n)]) (objects h)).
  assert (Hc' : arrays h' !! c = Some (Dense C)) by (by apply lookup_app_l_Some).
  assert (Ha' : arrays h' !! length (arrays h) = Some (Dense (np_eye n)))
    by apply lookup_new.
  exists (mkPointset c (length (arrays h)) b), h'. split; [|split; [done|]].
  - rewrite (Pointset_init_default h c (Dense C) b Hc Hk). fold n h'.
    apply (Pointset_init_ok h' c _ (Dense C) (np_eye n) b n); try done.
    + cbn [obj_shape]. unfold n. clear -Hk. destruct b; lia.
    + unfold n in *. destruct ((shape C).2 + 1 - _) as [|m] eqn:Hm.
      * exfalso. clear -Hm Hk. destruct b; lia.
      * apply eye_last_row.
  - unfold Pointset_get_coords. cbn [affine coordinates homogeneous].
    rewrite run_bind, (get_dense_ok h' _ _ Ha').
    rewrite run_bind. unfold lift at 1.
    rewrite (allclose_eye_refl n H0 H1).
    rewrite Bool.eqb_reflx. cbn [andb].
    by apply np_asanyarray_dense with C.
Qed.
End default_affine.

(** * Further results on [GridIndices] *)

(** X9. A [GridIndices] of at least one axis converts to an array of the
    shape its [shape] attribute announces, whose rows are the index tuples in
    row-major order with every entry stored in the element type asked for
    (the configured one by default), where it wraps around.  When that type
    holds every index, the rows are the index tuples inside the grid, each
    exactly once. *)
Theorem GridIndices_rows_exact `{Casting} (shp : list nat)
    (dt dt' : option np_dtype) (g : GridIndices) :
  shp ≠ [] → GridIndices_init shp dt = Ok g →
  let eff := match dt' with None => dtype g | Some d => Some d end in
  ∃ X, GridIndices_array g dt' = Ok X ∧
       shape X = lazy_shape g ∧
       wf_ndarray X ∧
       data X = map (map (arange_value eff)) (ij_rows shp) ∧
       (dtype_holds eff shp →
        base.NoDup (data X) ∧
        ∀ r, r ∈ data X ↔ ∃ k, in_grid shp k ∧ r = map Z.of_nat k).
Proof.
  intros Hshp Hinit eff. unfold GridIndices_init in Hinit.
  assert (Hg : gridshape g = shp ∧ lazy_shape g = (math_prod shp, length shp)).
  { destruct dt as [d|]; [by injection Hinit as <-|].
    destruct (able_int_type shp) as [d|e]; [|done]. by injection Hinit as <-. }
  destruct Hg as [Hgrid Hlazy].
  exists (map_array (arange_value eff)
            (NdArray (math_prod shp, length shp) (ij_rows shp))).
  split; [|split; [|split; [|split]]].
  - rewrite <- Hgrid. apply GridIndices_array_rows. by rewrite Hgrid.
  - by rewrite Hlazy.
  - split; cbn [map_array data shape fst snd].
    + by rewrite length_map, length_ij_rows.
    + apply Forall_forall. intros r (k & <- & Hk)%in_map_iff.
      rewrite length_map. by apply ij_rows_width.
  - done.
  - intros Hholds. cbn [map_array data].
    assert (Hrows : map (map (arange_value eff)) (ij_rows shp)
                    = map Z.of_nat <$> ij_rows shp).
    { apply map_ext_in. intros k Hk. apply (grid_row_holds _ shp); [done|].
      by apply ij_rows_in_grid, list_elem_of_In. }
    rewrite Hrows. split.
    + apply NoDup_fmap_2; [|apply ij_rows_NoDup].
      apply list_fmap_eq_inj, Nat2Z.inj'.
    + intros r. rewrite list_elem_of_fmap. split.
      * intros (k & -> & Hk). exists k. split; [|done]. by apply ij_rows_in_grid.
      * intros (k & Hk & ->). exists k. split; [done|]. by apply ij_rows_in_grid.
Qed.

(** * Further results on [Grid] *)

Lemma wf_map_array {A B} (f : A → B) (a : ndarray A) :
  wf_ndarray a → wf_ndarray (map_array f a).
Proof.
  intros [Hlen Hrows]. split; cbn [map_array data shape].
  - by rewrite length_map.
  - apply Forall_forall. intros r (r' & <- & Hr')%in_map_iff.
    rewrite length_map. rewrite Forall_forall in Hrows. by apply Hrows.
Qed.

Lemma wf_ij_rows (shp : list nat) :
  wf_ndarray (NdArray (math_prod shp, length shp) (ij_rows shp)).
Proof.
  split; cbn [data shape fst snd].
  - apply length_ij_rows.
  - apply Forall_forall. intros r Hr. by apply ij_rows_width.
Qed.

(** An index array converted to the element type. *)
Lemma map_array_of_nat {R} `{Scalar R} (a : ndarray nat) :
  map_array of_int (map_array Z.of_nat a) = map_array of_nat a.
Proof.
  unfold map_array. cbn [shape data]. f_equal.
  rewrite map_map. apply map_ext. intros r. by rewrite map_map.
Qed.

Section grid_results.
Context {R : Type} `{Scalar R} `{!ExactEq R} `{Casting} `{!ExactCasting}.

(** X10. [Grid.from_image] keeps the first three extents of the image and stores
    the grid lazily: no coordinate array is built.  The affine must be the
    homogeneous transform of one row more than the extents kept, so an image
    of fewer than three axes with a four-by-four affine is refused. *)
Theorem Grid_from_image_spec (h : heap R) (img_shape : list nat) (a : aref)
    (A : ndarray R) (dt : option np_dtype) :
  arrays h !! a = Some (Dense A) → wf_ndarray A →
  able_int_type (take 3 img_shape) = Ok dt →
  let shp := take 3 img_shape in
  let g := mkGridIndices shp dt (math_prod shp, length shp) in
  let p := mkPointset (length (arrays h)) a false in
  let h1 := Heap (arrays h ++ [Lazy g]) (objects h) in
  let h' := Heap (arrays h ++ [Lazy g]) (objects h ++ [OPointset cls_Grid p]) in
  (shape A = (length shp + 1, length shp + 1) →
   list.last (data A) = Some (affine_last_row (length shp + 1)) →
   Grid_from_image img_shape a h = (Ok (length (objects h)), h') ∧
   (img_shape ≠ [] →
    valid_pointset h' p
      (map_array of_nat (NdArray (math_prod shp, length shp) (ij_rows shp))) A)) ∧
  (shape A ≠ (length shp + 1, length shp + 1) →
   Grid_from_image img_shape a h
   = (Raise (ValueError "Invalid affine for coordinates"), h1)).
Proof.
  intros Ha HwfA Hdt shp g p h1 h'.
  assert (Hc1 : arrays h1 !! length (arrays h) = Some (Lazy g)) by apply lookup_new.
  assert (Ha1 : arrays h1 !! a = Some (Dense A)) by (by apply lookup_app_l_Some).
  assert (Hrun : Grid_from_image img_shape a h
                 = Pointset_new cls_Grid (VArray (length (arrays h))) (Some a) false h1).
  { unfold Grid_from_image. rewrite run_bind. unfold lift at 1.
    unfold GridIndices_init. rewrite Hdt. cbn [mbind result_bind mret result_ret].
    by rewrite run_bind. }
  split.
  - intros HshapeA Hlast. split.
    + rewrite Hrun. unfold Pointset_new. rewrite run_bind.
      rewrite (Pointset_init_ok h1 _ a (Lazy g) A false (length shp + 1));
        try done.
    + intros Hne. assert (Hshp : shp ≠ []) by (unfold shp; by destruct img_shape).
      split; cbn [coordinates affine homogeneous map_array shape fst snd];
        try done.
      * exists (Lazy g). split; [apply lookup_new|]. split; [|done].
        cbn [coords_of].
        rewrite (GridIndices_array_holds g None Hshp)
          by apply (able_int_type_holds _ _ Hdt).
        cbn [mbind result_bind mret result_ret]. f_equal.
        apply map_array_of_nat.
      * apply (wf_map_array of_nat), wf_ij_rows.
      * by rewrite HshapeA.
      * rewrite HshapeA. cbn. lia.
      * by rewrite HshapeA.
  - intros HshapeA. rewrite Hrun. unfold Pointset_new. rewrite run_bind.
    rewrite (Pointset_init_checks h1 _ a (Lazy g) A false Hc1 Ha1).
    cbn [obj_shape lazy_shape g snd Z.b2z].
    replace (shape_ne _ _) with true; [done|].
    symmetry. unfold shape_ne. apply negb_true_iff, andb_false_iff.
    destruct (decide ((shape A).1 = length shp + 1)) as [Hrows|Hrows].
    + right. apply Z.eqb_neq. intros Hcols. apply HshapeA.
      rewrite (surjective_pairing (shape A)). f_equal; [done|]. lia.
    + left. apply Z.eqb_neq. lia.
Qed.
End grid_results.

(** ** The coordinates [from_mask] stores *)

Lemma concat_imap_hits {B} (g : nat → B) (k : nat → nat) (l : list bool) :
  concat (imap (λ i (b : bool), if b then [g (k i)] else []) l)
  = map g (concat (imap (λ i (b : bool), if b then [k i] else []) l)).
Proof.
  revert k. induction l as [|b l IH]; intros k; [done|].
  rewrite !imap_cons. cbn [concat]. rewrite map_app. f_equal.
  - by destruct b.
  - apply (IH (k ∘ S)).
Qed.

Lemma hits_bounded (k : nat → nat) (l : list bool) (j : nat) :
  In j (concat (imap (λ i (b : bool), if b then [k i] else []) l)) →
  ∃ i, i < length l ∧ nth i l false = true ∧ j = k i.
Proof.
  revert k. induction l as [|b l IH]; intros k; [done|].
  rewrite imap_cons. cbn [concat]. intros [Hj|Hj]%in_app_or.
  - destruct b; [|done]. destruct Hj as [<-|[]]. exists 0. cbn. split; [lia|done].
  - apply (IH (k ∘ S)) in Hj as (i & Hi & Hb & ->).
    exists (S i). cbn. split; [lia|done].
Qed.

Lemma imap_nth_self {A B} (l : list A) (l' : list B) (d : B) :
  length l' = length l → imap (λ k _, nth k l' d) l = l'.
Proof.
  intros Hlen. apply list_eq. intros i. rewrite list_lookup_imap.
  destruct (l !! i) as [x|] eqn:Hx; cbn.
  - apply lookup_lt_Some in Hx.
    destruct (nth_lookup_or_length l' i d) as [->|]; [done|lia].
  - apply lookup_ge_None in Hx. symmetry. apply lookup_ge_None. lia.
Qed.

Lemma length_unravel (shp : list nat) (i : nat) :
  length (unravel shp i) = length shp.
Proof. apply length_imap. Qed.

Lemma true_positions_hits (a : ndarrayN bool) :
  true_positions a
  = map (unravel (nshape a))
      (concat (imap (λ i (b : bool), if b then [i] else []) (flat a))).
Proof. apply (concat_imap_hits (unravel (nshape a)) id). Qed.

(** [np.c_[np.nonzero(a)]] has one row per true element: its position. *)
Lemma np_c_nonzero (a : ndarrayN bool) :
  nshape a ≠ [] →
  np_c_ (np_nonzero a)
  = NdArray (length (true_positions a), length (nshape a)) (true_positions a).
Proof.
  intros Hne. rewrite true_positions_hits. unfold np_c_, np_nonzero.
  set (hits := concat _). set (shp := nshape a) in *.
  set (cols := imap _ shp).
  assert (Hcount : match cols with c :: _ => length c | [] => 0 end = length hits).
  { unfold cols. destruct shp as [|s shp']; [done|].
    rewrite imap_cons. by rewrite length_map. }
  rewrite Hcount. unfold transpose_with. cbn [shape data fst snd].
  unfold cols at 1. rewrite length_imap, length_map. f_equal.
  rewrite <- (map_nth_seq (unravel shp) hits 0).
  apply map_ext_in. intros j Hj%in_seq.
  unfold cols. change (map ?f ?l) with (f <$> l) at 1.
  rewrite fmap_imap. rewrite <- (imap_nth_self shp (unravel shp (nth j hits 0)) 0)
    by apply length_unravel.
  apply imap_ext. intros k s _. cbn.
  apply (nth_map_default (λ i, nth k (unravel shp i) 0) hits j 0 0). lia.
Qed.

Lemma math_prod_pos (shp : list nat) :
  0 < math_prod shp → Forall (λ s, 0 < s) shp.
Proof.
  induction shp as [|s shp IH]; intros Hpos; [constructor|].
  change (0 < s * math_prod shp) in Hpos.
  apply Forall_cons_iff. split; [|apply IH]; nia.
Qed.

Lemma unravel_in_grid (shp : list nat) (i : nat) :
  0 < math_prod shp → in_grid shp (unravel shp i).
Proof.
  intros Hpos%math_prod_pos. unfold in_grid, unravel.
  apply Forall2_same_length_lookup. split; [by rewrite length_imap|].
  intros k x s Hx Hs. rewrite list_lookup_imap, Hs in Hx. cbn in Hx.
  injection Hx as <-. apply Nat.mod_upper_bound.
  rewrite Forall_forall in Hpos. apply list_elem_of_lookup_2, list_elem_of_In in Hs.
  apply Hpos in Hs. lia.
Qed.

Lemma list_match_cons {A B} (l : list A) (x y : B) :
  l ≠ [] → match l with [] => x | _ :: _ => y end = y.
Proof. by destruct l. Qed.

Section from_mask_results.
Context {R : Type} `{Scalar R} `{!ExactEq R} `{Casting}.

(** The run of [Grid.from_mask] on a mask with at least one axis and an
    affine the constructor accepts. *)
Lemma Grid_from_mask_run (h : heap R) (mask : SpatialImage R)
    (A : ndarray R) (dt : option np_dtype) :
  let shp := nshape (dataobj mask) in
  let pos := true_positions (np_bool_ (dataobj mask)) in
  let C := map_array of_nat (NdArray (length pos, length shp) pos) in
  let p := mkPointset (length (arrays h)) (img_affine mask) false in
  shp ≠ [] →
  arrays h !! img_affine mask = Some (Dense A) →
  able_int_type shp = Ok dt →
  shape A = (length shp + 1, length shp + 1) →
  list.last (data A) = Some (affine_last_row (length shp + 1)) →
  Grid_from_mask mask h
  = (Ok (length (objects h)),
     Heap (arrays h ++ [Dense C]) (objects h ++ [OPointset cls_Grid p])).
Proof.
  intros shp pos C p Hshp Ha Hdt HshapeA Hlast.
  set (h1 := Heap (arrays h ++ [Dense C]) (objects h)).
  assert (Hc1 : arrays h1 !! length (arrays h) = Some (Dense C)) by apply lookup_new.
  assert (Ha1 : arrays h1 !! img_affine mask = Some (Dense A))
    by (by apply lookup_app_l_Some).
  unfold Grid_from_mask. cbn [np_bool_ nshape].
  rewrite (list_match_cons _ _ _ Hshp).
  rewrite run_bind. unfold lift at 1. unfold shp in Hdt. rewrite Hdt.
  rewrite run_bind. unfold new_array at 1.
  rewrite (np_c_nonzero (np_bool_ (dataobj mask))) by done.
  cbn [np_bool_ nshape].
  unfold Pointset_new. rewrite run_bind.
  rewrite (Pointset_init_ok h1 _ (img_affine mask) (Dense C) A false
             (length (nshape (dataobj mask)) + 1)); try done.
Qed.

Lemma true_positions_width (a : ndarrayN bool) :
  Forall (λ r, length r = length (nshape a)) (true_positions a).
Proof.
  rewrite true_positions_hits. apply Forall_forall.
  intros r (i & <- & _)%in_map_iff. apply length_unravel.
Qed.

(** X11. [Grid.from_mask] stores one row per non-zero element of the mask, its
    position, in the order of the elements; every row lies inside the mask's
    shape, and the result satisfies the pointset invariant with the mask's
    affine. *)
Theorem Grid_from_mask_spec (h : heap R) (mask : SpatialImage R)
    (A : ndarray R) (dt : option np_dtype) :
  let shp := nshape (dataobj mask) in
  let pos := true_positions (np_bool_ (dataobj mask)) in
  let C := map_array of_nat (NdArray (length pos, length shp) pos) in
  let p := mkPointset (length (arrays h)) (img_affine mask) false in
  let h' := Heap (arrays h ++ [Dense C]) (objects h ++ [OPointset cls_Grid p]) in
  shp ≠ [] → length (flat (dataobj mask)) = math_prod shp →
  arrays h !! img_affine mask = Some (Dense A) → wf_ndarray A →
  able_int_type shp = Ok dt →
  shape A = (length shp + 1, length shp + 1) →
  list.last (data A) = Some (affine_last_row (length shp + 1)) →
  Grid_from_mask mask h = (Ok (length (objects h)), h') ∧
  valid_pointset h' p C A ∧
  Forall (in_grid shp) pos.
Proof.
  intros shp pos C p h' Hshp Hflat Ha HwfA Hdt HshapeA Hlast.
  split; [|split].
  - by apply (Grid_from_mask_run h mask A dt).
  - split; cbn [coordinates affine homogeneous]; try done.
    + exists (Dense C). split; [apply lookup_new|done].
    + apply (wf_map_array of_nat). split; [done|].
      apply (true_positions_width (np_bool_ (dataobj mask))).
    + by apply lookup_app_l_Some.
    + by rewrite HshapeA.
    + rewrite HshapeA. cbn. lia.
    + by rewrite HshapeA.
  - unfold pos. rewrite true_positions_hits. apply Forall_forall.
    intros r (i & <- & Hi)%in_map_iff. cbn [np_bool_ nshape flat] in *.
    apply hits_bounded in Hi as (j & Hj & _ & _).
    rewrite length_map in Hj. apply unravel_in_grid. unfold shp in *. lia.
Qed.
End from_mask_results.

(** ** What [to_mask] marks *)

Lemma slice_stop_dim {A} (r : list A) (k : nat) (hom : bool) :
  length r = k →
  py_slice_stop (Z.of_nat k - Z.b2z hom) r
  = take (k - (if hom then 1 else 0)) r.
Proof.
  intros Hlen. unfold py_slice_stop.
  destruct (_ <? 0)%Z eqn:Hneg.
  - apply Z.ltb_lt in Hneg. destruct hom; cbn in Hneg; [|lia].
    assert (k = 0) as -> by lia. destruct r; [done|]. cbn in Hlen. lia.
  - apply Z.ltb_ge in Hneg. f_equal. destruct hom; cbn in *; lia.
Qed.

Lemma existsb_map_compose {A B} (f : B → bool) (g : A → B) (l : list A) :
  existsb f (map g l) = existsb (λ x, f (g x)) l.
Proof. induction l as [|x l IH]; [done|]. cbn. by rewrite IH. Qed.

(** The entries of an integer index array against an axis of length [n]:
    they are all taken modulo [n], or the first one out of range raises. *)
Lemma mapM_axis_index (n : nat) (l : list Z) :
  mapM (axis_index n) l
  = if decide (Forall (λ v, - Z.of_nat n ≤ v < Z.of_nat n)%Z l)
    then Ok (map (λ v, Z.to_nat (v mod Z.of_nat n)) l)
    else Raise (IndexError "index is out of bounds for axis 0").
Proof.
  induction l as [|x l IH].
  - case_decide as Hnil; [done|]. exfalso. apply Hnil. constructor.
  - rewrite mapM_result_cons, IH. clear IH. unfold axis_index at 1. cbn [to_index Z_scalar].
    destruct (_ || _) eqn:Hx.
    + cbn. case_decide as Hall; [|done].
      apply Forall_cons_iff in Hall as [Hin _].
      apply orb_true_iff in Hx as [Hx%Z.ltb_lt|Hx%Z.leb_le]; lia.
    + apply orb_false_iff in Hx as [Hlo%Z.ltb_ge Hhi%Z.leb_gt].
      rewrite result_bind_ok.
      case_decide as Hl.
      * rewrite result_bind_ok. case_decide as Hall; [done|].
        exfalso. apply Hall. apply Forall_cons_iff. split; [lia|done].
      * cbn. case_decide as Hall; [|done].
        by apply Forall_cons_iff in Hall as [_ Hall].
Qed.

(** One assignment sets the slab [i] of the first axis. *)
Lemma slab_step_lookup (slab n i q : nat) (f : list bool) (b : bool) :
  length f = n * slab → i < n → f !! q = Some b →
  (take (i * slab) f ++ replicate slab true ++ drop ((i + 1) * slab) f) !! q
  = Some (b || (i =? q / slab)).
Proof.
  intros Hlen Hi Hq. pose proof (lookup_lt_Some _ _ _ Hq) as Hlt.
  assert (Hslab : slab ≠ 0) by (intros ->; lia).
  assert (Htake : length (take (i * slab) f) = i * slab)
    by (rewrite length_take; nia).
  destruct (decide (q < i * slab)) as [Hlo|Hlo].
  - rewrite lookup_app_l by lia. rewrite lookup_take_lt by lia. rewrite Hq.
    f_equal. replace (i =? q / slab) with false; [by rewrite orb_false_r|].
    symmetry. apply Nat.eqb_neq.
    assert (q / slab < i) by (apply Nat.Div0.div_lt_upper_bound; lia). lia.
  - rewrite lookup_app_r by lia. rewrite Htake.
    destruct (decide (q < (i + 1) * slab)) as [Hhi|Hhi].
    + rewrite lookup_app_l by (rewrite length_replicate; lia).
      rewrite lookup_replicate_2 by lia. f_equal.
      replace (i =? q / slab) with true; [by rewrite orb_true_r|].
      symmetry. apply Nat.eqb_eq.
      assert (q / slab < i + 1) by (apply Nat.Div0.div_lt_upper_bound; lia).
      assert (i ≤ q / slab) by (apply Nat.div_le_lower_bound; lia). lia.
    + rewrite lookup_app_r by (rewrite length_replicate; lia).
      rewrite length_replicate, lookup_drop.
      replace ((i + 1) * slab + (q - i * slab - slab)) with q by lia.
      rewrite Hq. f_equal.
      replace (i =? q / slab) with false; [by rewrite orb_false_r|].
      symmetry. apply Nat.eqb_neq.
      assert (i + 1 ≤ q / slab) by (apply Nat.div_le_lower_bound; lia). lia.
Qed.

Lemma slab_step_length (slab n i : nat) (f : list bool) :
  length f = n * slab → i < n →
  length (take (i * slab) f ++ replicate slab true ++ drop ((i + 1) * slab) f)
  = n * slab.
Proof.
  intros Hlen Hi. rewrite !length_app, length_take, length_replicate, length_drop.
  nia.
Qed.

Lemma slab_fold (slab n : nat) (hits : list nat) (f : list bool) :
  length f = n * slab → Forall (λ i, i < n) hits →
  let f' := foldl (λ f i, take (i * slab) f ++ replicate slab true
                          ++ drop ((i + 1) * slab) f) f hits in
  length f' = n * slab ∧
  ∀ q b, f !! q = Some b →
         f' !! q = Some (b || existsb (λ i, i =? q / slab) hits).
Proof.
  revert f. induction hits as [|i hits IH]; intros f Hlen Hall; cbn zeta.
  - split; [done|]. intros q b Hq. cbn. by rewrite orb_false_r.
  - apply Forall_cons_iff in Hall as [Hi Hall]. cbn [foldl].
    destruct (IH _ (slab_step_length slab n i f Hlen Hi) Hall) as [Hlen' Hget].
    split; [done|]. intros q b Hq.
    rewrite (Hget q _ (slab_step_lookup slab n i q f b Hlen Hi Hq)).
    cbn [existsb]. by rewrite orb_assoc.
Qed.

(** [a[idx] = True] on a fresh array of shape [(n, ...)]: the element at
    position [q] ends up true exactly when some entry of [idx], taken
    modulo [n], is the index of [q] along the first axis. *)
Lemma setitem_true_zeros (n : nat) (rest : list nat) (idx : ndarray Z) :
  setitem_true (np_zeros (n :: rest)) idx
  = if decide (Forall (λ v, - Z.of_nat n ≤ v < Z.of_nat n)%Z (concat (data idx)))
    then Ok (NdArrayN (n :: rest)
               (map (λ q, existsb (λ v, Z.to_nat (v mod Z.of_nat n)
                                        =? q / math_prod rest)
                            (concat (data idx)))
                  (seq 0 (n * math_prod rest))))
    else Raise (IndexError "index is out of bounds for axis 0").
Proof.
  unfold setitem_true. cbn [np_zeros nshape flat].
  rewrite mapM_axis_index. case_decide as Hall; [|done].
  rewrite result_bind_ok. do 2 f_equal.
  change (math_prod (n :: rest)) with (n * math_prod rest).
  set (slab := math_prod rest). set (entries := concat (data idx)) in *.
  set (hits := map _ entries).
  assert (Hhits : Forall (λ i, i < n) hits).
  { apply Forall_forall. intros i (v & <- & Hv)%in_map_iff.
    rewrite Forall_forall in Hall. apply Hall in Hv.
    pose proof (Z.mod_pos_bound v (Z.of_nat n)). lia. }
  destruct (slab_fold slab n hits (replicate (n * slab) false)
              (length_replicate _ _) Hhits) as [Hlen Hget].
  apply list_eq. intros q.
  destruct (decide (q < n * slab)) as [Hq|Hq].
  - rewrite (Hget q false) by (by apply lookup_replicate_2).
    change (map ?f ?l) with (f <$> l). rewrite list_lookup_fmap.
    rewrite lookup_seq_lt by done. cbn. f_equal. unfold hits.
    by rewrite existsb_map_compose.
  - rewrite !lookup_ge_None_2; [done| |lia].
    by rewrite length_map, length_seq; lia.
Qed.

(** The entries of the first [dim] columns. *)
Lemma columns_to_dim_entries {R} (C : ndarray R) (hom : bool) :
  wf_ndarray C →
  data (columns_to (Z.of_nat (shape C).2 - Z.b2z hom) C)
  = map (take ((shape C).2 - (if hom then 1 else 0))) (data C).
Proof.
  intros [_ HrowsC]. unfold columns_to. cbn [data]. apply map_ext_in.
  intros r Hr. apply slice_stop_dim.
  rewrite Forall_forall in HrowsC. by apply HrowsC.
Qed.

Section to_mask_results.
Context {R : Type} `{Scalar R}.

(** The run of [Grid.to_mask] with an explicit shape on a grid over a numpy
    array: the heap is left as it was. *)
Lemma Grid_to_mask_run (h : heap R) (self : oref) (p : Pointset)
    (C : ndarray R) (shp : list nat) :
  objects h !! self = Some (OPointset cls_Grid p) →
  arrays h !! coordinates p = Some (Dense C) →
  Grid_to_mask self (Some shp) h
  = match setitem_true (np_zeros shp)
            (columns_to (Z.of_nat (shape C).2 - Z.b2z (homogeneous p)) C) with
    | Ok m => (Ok (mkSpatialImage m (affine p)), h)
    | Raise e => (Raise e, h)
    end.
Proof.
  intros Hself Hc.
  unfold Grid_to_mask. rewrite run_bind, (get_object_ok h self _ Hself).
  py_ret_step.
  rewrite run_bind, (np_asanyarray_dense h _ C Hc).
  rewrite run_bind, (get_dense_ok h _ C Hc).
  rewrite run_bind, (Pointset_dim_ok h _ (Dense C) _ Hc). cbn [obj_shape].
  rewrite run_bind. unfold lift at 1. by destruct (setitem_true _ _).
Qed.
End to_mask_results.

(** X12. [Grid.to_mask] with an explicit shape [(n, ...)] on integer
    coordinates: every entry of the first [dim] columns is used as an index
    along the first axis, so the mask is true at a position exactly when
    its first index occurs among those entries (negative entries counting
    from the end); an entry outside [-n, n) raises [IndexError].  The heap
    is left as it was and the image carries the affine of the grid. *)
Theorem Grid_to_mask_marks_slabs (h : heap Z) (self : oref) (p : Pointset)
    (C : ndarray Z) (n : nat) (rest : list nat) :
  objects h !! self = Some (OPointset cls_Grid p) →
  arrays h !! coordinates p = Some (Dense C) → wf_ndarray C →
  let idx := concat (map (take ((shape C).2 - (if homogeneous p then 1 else 0)))
                       (data C)) in
  let in_range := Forall (λ v, - Z.of_nat n ≤ v < Z.of_nat n)%Z idx in
  (in_range →
   Grid_to_mask self (Some (n :: rest)) h
   = (Ok (mkSpatialImage
            (NdArrayN (n :: rest)
               (map (λ q, existsb (λ v, Z.to_nat (v mod Z.of_nat n)
                                        =? q / math_prod rest) idx)
                  (seq 0 (n * math_prod rest))))
            (affine p)), h)) ∧
  (¬ in_range →
   Grid_to_mask self (Some (n :: rest)) h
   = (Raise (IndexError "index is out of bounds for axis 0"), h)).
Proof.
  intros Hself Hc HwfC idx in_range.
  rewrite (Grid_to_mask_run h self p C _ Hself Hc), setitem_true_zeros.
  rewrite (columns_to_dim_entries C (homogeneous p) HwfC).
  fold idx in_range.
  split; intros Hr; by case_decide.
Qed.

(** ** From a mask to a grid and back *)

Lemma no_hits (k : nat → nat) (l : list bool) :
  Forall (λ b, b = false) l →
  concat (imap (λ i (b : bool), if b then [k i] else []) l) = [].
Proof.
  revert k. induction l as [|b l IH]; intros k Hall; [done|].
  apply Forall_cons_iff in Hall as [-> Hall]. rewrite imap_cons. cbn.
  by apply (IH (k ∘ S)).
Qed.

Lemma hit_found (k : nat → nat) (l : list bool) (i : nat) :
  nth i l false = true →
  In (k i) (concat (imap (λ i (b : bool), if b then [k i] else []) l)).
Proof.
  revert k i. induction l as [|b l IH]; intros k [|i] Hi; try done.
  - cbn in Hi. subst b. rewrite imap_cons. cbn. by left.
  - rewrite imap_cons. cbn [concat]. apply in_or_app. right.
    by apply (IH (k ∘ S) i).
Qed.

Lemma map_const_seq {A} (x : A) (j m : nat) :
  map (λ _, x) (seq j m) = replicate m x.
Proof. revert j. induction m as [|m IH]; intros j; [done|]. cbn. by rewrite IH. Qed.

Lemma take_rows_all {A} (k : nat) (rows : list (list A)) :
  Forall (λ r, length r = k) rows → map (take k) rows = rows.
Proof.
  intros Hall. rewrite <- (map_id rows) at 2. apply map_ext_in.
  intros r Hr. rewrite Forall_forall in Hall. apply firstn_all2.
  by rewrite (Hall r Hr).
Qed.

Section round_trip.
Context `{Casting}.

(** X13. [to_mask(from_mask(mask), shape)] with the mask's own shape gives the
    mask back when no element is set.  As soon as an element is set, the
    whole slab of its first index is marked (or an index is out of range):
    a mask with a set and an unset element under one first index never
    comes back. *)
Theorem mask_round_trip (h : heap Z) (mask : SpatialImage Z) (A : ndarray Z)
    (dt : option np_dtype) (n : nat) (rest : list nat) :
  nshape (dataobj mask) = n :: rest →
  length (flat (dataobj mask)) = n * math_prod rest →
  arrays h !! img_affine mask = Some (Dense A) →
  able_int_type (n :: rest) = Ok dt →
  shape A = (length (n :: rest) + 1, length (n :: rest) + 1) →
  list.last (data A) = Some (affine_last_row (length (n :: rest) + 1)) →
  let round := (g ← Grid_from_mask mask; Grid_to_mask g (Some (n :: rest))) h in
  (Forall (λ x, x = 0%Z) (flat (dataobj mask)) →
   round.1 = Ok (mkSpatialImage (np_bool_ (dataobj mask)) (img_affine mask))) ∧
  (∀ q1 q2,
     nth q1 (flat (dataobj mask)) 0%Z ≠ 0%Z →
     q2 < n * math_prod rest → nth q2 (flat (dataobj mask)) 0%Z = 0%Z →
     q1 / math_prod rest = q2 / math_prod rest →
     ∀ img, round.1 = Ok img → dataobj img ≠ np_bool_ (dataobj mask)).
Proof.
  intros Hshp Hflat Ha Hdt HshapeA Hlast round.
  set (slab := math_prod rest) in *.
  set (pos := true_positions (np_bool_ (dataobj mask))).
  set (C := map_array of_nat (NdArray (length pos, length (n :: rest)) pos)
            : ndarray Z).
  set (p := mkPointset (length (arrays h)) (img_affine mask) false).
  set (h' := Heap (arrays h ++ [Dense C]) (objects h ++ [OPointset cls_Grid p])).
  assert (Hwidth : Forall (λ r, length r = length (n :: rest)) (data C)).
  { cbn [C map_array data]. apply Forall_forall.
    intros r (r' & <- & Hr')%in_map_iff. rewrite length_map.
    pose proof (true_positions_width (np_bool_ (dataobj mask))) as Hw.
    rewrite Forall_forall in Hw. cbn [np_bool_ nshape] in Hw.
    rewrite <- Hshp. by apply Hw. }
  assert (HwfC : wf_ndarray C).
  { split; [|done]. cbn [C map_array data shape fst]. by rewrite length_map. }
  assert (Hround : round
            = match setitem_true (np_zeros (n :: rest)) C with
              | Ok m => (Ok (mkSpatialImage m (img_affine mask)), h')
              | Raise e => (Raise e, h')
              end).
  { unfold round. rewrite run_bind.
    rewrite (Grid_from_mask_run h mask A dt); rewrite ?Hshp; try done.
    fold pos C p h'.
    rewrite (Grid_to_mask_run h' (length (objects h)) p C (n :: rest));
      [|apply lookup_new|apply lookup_new].
    replace (columns_to _ C) with C; [done|].
    apply ndarray_eq.
    - unfold columns_to. cbn [shape homogeneous p Z.b2z].
      rewrite (surjective_pairing (shape C)) at 1. f_equal.
      rewrite Z.sub_0_r. unfold py_slice_stop.
      destruct (_ <? 0)%Z eqn:Hneg; [apply Z.ltb_lt in Hneg; lia|].
      rewrite Nat2Z.id, firstn_all2 by (by rewrite length_seq).
      by rewrite length_seq.
    - rewrite (columns_to_dim_entries C (homogeneous p) HwfC).
      cbn [homogeneous p]. rewrite Nat.sub_0_r. symmetry.
      by apply take_rows_all. }
  rewrite Hround, setitem_true_zeros. clear Hround. fold slab. split.
  - intros Hzero.
    assert (Hpos : pos = []).
    { unfold pos. rewrite true_positions_hits. cbn [np_bool_ flat].
      rewrite no_hits; [done|]. apply Forall_forall.
      intros b (x & <- & Hx)%in_map_iff. rewrite Forall_forall in Hzero.
      by rewrite (Hzero x Hx). }
    cbn [C map_array data]. rewrite Hpos. cbn [map concat].
    case_decide as Hall; [|by destruct Hall]. cbn [fst]. do 2 f_equal.
    unfold np_bool_. rewrite Hshp. f_equal. cbn [existsb].
    rewrite map_const_seq, <- Hflat.
    clear -Hzero. induction Hzero as [|x l -> _ IH]; [done|]. cbn. by rewrite IH.
  - intros q1 q2 Hq1 Hq2 Hz2 Hsame img.
    case_decide as Hall; [|done]. cbn [fst]. intros [= <-]. cbn [dataobj].
    intros Heq. apply (f_equal flat) in Heq. cbn [np_bool_ flat] in Heq.
    apply (f_equal (λ l, nth q2 l false)) in Heq.
    rewrite (nth_map_default _ _ _ 0) in Heq by (rewrite length_seq; lia).
    rewrite seq_nth in Heq by lia. cbn [Nat.add] in Heq.
    rewrite (nth_map_default _ _ _ 0%Z) in Heq by lia.
    rewrite Hz2 in Heq. change (negb (seqb 0%Z szero)) with false in Heq.
    assert (Hlt1 : q1 < n * slab).
    { rewrite <- Hflat. destruct (decide (q1 < length (flat (dataobj mask))));
        [done|]. rewrite nth_overflow in Hq1 by lia. done. }
    assert (Hslab : slab ≠ 0) by (intros Hs; rewrite Hs in Hlt1; lia).
    assert (Hdiv : q1 / slab < n) by (apply Nat.Div0.div_lt_upper_bound; lia).
    assert (Hin : In (Z.of_nat (q1 / slab)) (concat (data C))).
    { apply in_concat. exists (map Z.of_nat (unravel (n :: rest) q1)). split.
      - cbn [C map_array data]. apply in_map. unfold pos.
        rewrite true_positions_hits. cbn [np_bool_ nshape flat]. rewrite Hshp.
        apply in_map. apply (hit_found id).
        rewrite (nth_map_default _ _ _ 0%Z) by lia.
        apply negb_true_iff. by apply Z.eqb_neq.
      - unfold unravel. rewrite imap_cons. cbn [map drop]. left.
        fold slab. by rewrite Nat.mod_small. }
    enough (Htrue : existsb (λ v, Z.to_nat (v mod Z.of_nat n) =? q2 / slab)
                      (concat (data C)) = true)
      by exact (eq_true_false_abs _ Htrue Heq).
    apply existsb_exists. exists (Z.of_nat (q1 / slab)). split; [done|].
    apply Nat.eqb_eq. rewrite <- Hsame.
    rewrite Z.mod_small by lia. apply Nat2Z.id.
Qed.
End round_trip.

(** * Further results on the meshes *)

Section mesh_results.
Context {R : Type} `{Scalar R} `{!ExactEq R}.

(** X15. After [TriangularMesh((coords, triangles))] the accessors give back
    what was passed: the triangles as they are, the shape, row count and
    column count of the coordinate array, and the row count of the
    triangles; [get_names] is not implemented and [get_mesh] raises
    [TypeError] for every name. *)
Theorem TriangularMesh_accessors (h : heap R) (c : aref) (o : array_obj R)
    (t name : pyval) :
  arrays h !! c = Some o →
  ∃ m h',
    TriangularMesh_init (VTuple [VArray c; t]) h = (Ok m, h') ∧
    TriangularMesh_get_triangles m h' = (Ok t, h') ∧
    Pointset_shape m h' = (Ok (obj_shape o), h') ∧
    Pointset_n_coords m h' = (Ok (obj_shape o).1, h') ∧
    Pointset_dim_of m h' = (Ok (Z.of_nat (obj_shape o).2), h') ∧
    (∀ l ot, t = VArray l → arrays h !! l = Some ot →
       TriangularMesh_n_triangles m h' = (Ok (obj_shape ot).1, h')) ∧
    (t = VNone →
     TriangularMesh_n_triangles m h'
     = (Raise (AttributeError "object has no attribute 'shape'"), h')) ∧
    TriangularMesh_get_names m h' = (Raise NotImplementedError, h') ∧
    TriangularMesh_get_mesh m name h'
    = (Raise (TypeError "get_coords() got an unexpected keyword argument"), h').
Proof.
  intros Hc.
  pose proof (TriangularMesh_init_parts h (VTuple [VArray c; t]) c t o Hc eq_refl)
    as Hinit.
  unfold mesh_built in Hinit.
  set (p := mkPointset c (length (arrays h)) false) in *.
  set (h' := Heap _ _) in *.
  assert (Hm : objects h' !! length (objects h) = Some (OTriangularMesh p t))
    by apply lookup_new.
  assert (Hc' : arrays h' !! c = Some o) by (by apply lookup_app_l_Some).
  assert (Hfields : instance_fields (length (objects h)) h' = (Ok p, h')).
  { unfold instance_fields. by rewrite run_bind, (get_object_ok h' _ _ Hm). }
  assert (Htri : TriangularMesh_get_triangles (length (objects h)) h' = (Ok t, h')).
  { unfold TriangularMesh_get_triangles.
    by rewrite run_bind, (get_object_ok h' _ _ Hm). }
  exists (length (objects h)), h'. split; [done|]. split; [done|].
  split; [|split; [|split; [|split; [|split; [|split]]]]].
  - unfold Pointset_shape. rewrite run_bind, Hfields.
    apply (array_shape_ok h' c o Hc').
  - unfold Pointset_n_coords. rewrite run_bind, Hfields.
    change (coordinates p) with c.
    by rewrite run_bind, (array_shape_ok h' c o Hc').
  - unfold Pointset_dim_of. rewrite run_bind, Hfields.
    change (coordinates p) with c. change (homogeneous p) with false.
    rewrite (Pointset_dim_ok h' c o false Hc'). cbn [Z.b2z].
    by rewrite Z.sub_0_r.
  - intros l ot -> Hl. unfold TriangularMesh_n_triangles.
    rewrite run_bind, Htri. cbv beta iota. unfold as_coordinate_array.
    py_ret_step.
    assert (Hl' : arrays h' !! l = Some ot) by (by apply lookup_app_l_Some).
    by rewrite run_bind, (array_shape_ok h' l ot Hl').
  - intros ->. unfold TriangularMesh_n_triangles.
    by rewrite run_bind, Htri, run_bind.
  - done.
  - apply (get_mesh_unexpected_keyword h' _ p t name Hm).
Qed.
End mesh_results.

Section family_results.
Context {R : Type} `{Scalar R}.

Lemma bind_name_single (v acc : pyval) : bind_name [("name", v)] acc = Ok v.
Proof. reflexivity. Qed.

Lemma family_get_coords_run (h : heap R) (self : oref) (triangles : pyval)
    (coords : list (string * pyval)) (default : string) (name : pyval) :
  objects h !! self = Some (OTriMeshFamily triangles coords default) →
  ∃ r, TriMeshFamily_get_coords self name h = (r, h) ∧
       (name = VNone →
        r = match dict_get coords default with
            | Some c => Ok c
            | None => Raise (KeyError default)
            end) ∧
       (∀ s, name = VStr s →
        r = match dict_get coords s with
            | Some c => Ok c
            | None => Raise (KeyError s)
            end).
Proof.
  intros Hself. unfold TriMeshFamily_get_coords.
  rewrite run_bind, (get_object_ok h self _ Hself).
  destruct name; try (by eexists; split; [reflexivity|split; [done|done]]).
  - py_ret_step. destruct (dict_get coords default); eexists;
      (split; [reflexivity|split; [done|done]]).
  - py_ret_step. destruct (dict_get coords s) eqn:Hs; eexists;
      (split; [reflexivity|split; [done|intros ? [= <-]; by rewrite Hs]]).
Qed.

(** The inherited [get_mesh] on a family: the family's [get_coords], then
    the shared triangles. *)
Lemma family_get_mesh_run (h : heap R) (self : oref) (triangles : pyval)
    (coords : list (string * pyval)) (default : string) (name : pyval) :
  objects h !! self = Some (OTriMeshFamily triangles coords default) →
  TriangularMesh_get_mesh self name h
  = match (TriMeshFamily_get_coords self name h).1 with
    | Ok c => (Ok (VTuple [c; triangles]), h)
    | Raise e => (Raise e, h)
    end.
Proof.
  intros Hself.
  destruct (family_get_coords_run h self triangles coords default name Hself)
    as (r & Hrun & _).
  unfold TriangularMesh_get_mesh, call_get_coords.
  rewrite !run_bind, (get_object_ok h self _ Hself).
  rewrite run_bind. unfold lift at 1. rewrite bind_name_single, Hrun.
  cbn [fst]. destruct r as [c|e]; [|done].
  unfold TriangularMesh_get_triangles.
  by rewrite !run_bind, (get_object_ok h self _ Hself).
Qed.

(** X16. [TriMeshFamily.__init__] returns exactly for an empty mapping with a
    default given.  Without a default the empty mapping raises
    [StopIteration]; with one, the family has no names, no triangles, and
    every lookup of coordinates raises [KeyError]. *)
Theorem TriMeshFamily_init_only_empty (h : heap R)
    (mapping : list (string * pyval)) (default : option string) :
  (is_ok (TriMeshFamily_init mapping default h).1 = true
   ↔ mapping = [] ∧ is_Some default) ∧
  TriMeshFamily_init [] None h = (Raise StopIteration, h) ∧
  ∀ d,
    let f := length (objects h) in
    let h' := Heap (arrays h) (objects h ++ [OTriMeshFamily VNone [] d]) in
    TriMeshFamily_init [] (Some d) h = (Ok f, h') ∧
    TriMeshFamily_get_names f h' = (Ok [], h') ∧
    TriangularMesh_get_triangles f h' = (Ok VNone, h') ∧
    TriMeshFamily_get_coords f VNone h' = (Raise (KeyError d), h') ∧
    (∀ name, TriMeshFamily_get_coords f (VStr name) h'
             = (Raise (KeyError name), h')) ∧
    TriangularMesh_get_mesh f VNone h' = (Raise (KeyError d), h').
Proof.
  split; [|split].
  - destruct mapping as [|[name mesh] mapping].
    + destruct default as [d|]; cbn.
      * split; [by eauto|done].
      * split; [done|]. by intros [_ [? ?]].
    + destruct (TriMeshFamily_init_fails h name mesh mapping default)
        as (mesh' & items & h' & _ & ->).
      cbn [fst is_ok]. split; [done|]. by intros [? _].
  - done.
  - intros d f h'.
    assert (Hf : objects h' !! f = Some (OTriMeshFamily VNone [] d))
      by apply lookup_new.
    split; [done|].
    split; [|split; [|split; [|split]]].
    + unfold TriMeshFamily_get_names.
      by rewrite run_bind, (get_object_ok h' f _ Hf).
    + unfold TriangularMesh_get_triangles.
      by rewrite run_bind, (get_object_ok h' f _ Hf).
    + unfold TriMeshFamily_get_coords.
      rewrite run_bind, (get_object_ok h' f _ Hf). by py_ret_step.
    + intros name. unfold TriMeshFamily_get_coords.
      rewrite run_bind, (get_object_ok h' f _ Hf). by py_ret_step.
    + rewrite (family_get_mesh_run h' f VNone [] d VNone Hf).
      unfold TriMeshFamily_get_coords.
      rewrite run_bind, (get_object_ok h' f _ Hf). by py_ret_step.
Qed.

(** X18. On a family object [get_mesh] is the inherited one and reaches the
    family's own [get_coords]: it pairs the named coordinates with the
    shared triangles.  The attributes [Pointset.__init__] sets are missing,
    since the family's constructor never calls it: [shape], [n_coords],
    [dim] and [__rmatmul__] raise [AttributeError]. *)
Theorem TriMeshFamily_inherited (h : heap R) (self : oref) (triangles : pyval)
    (coords : list (string * pyval)) (default : string) :
  objects h !! self = Some (OTriMeshFamily triangles coords default) →
  (∀ name c, dict_get coords name = Some c →
     TriangularMesh_get_mesh self (VStr name) h
     = (Ok (VTuple [c; triangles]), h)) ∧
  (∀ c, dict_get coords default = Some c →
     TriangularMesh_get_mesh self VNone h = (Ok (VTuple [c; triangles]), h)) ∧
  (∀ name, dict_get coords name = None →
     TriangularMesh_get_mesh self (VStr name) h = (Raise (KeyError name), h)) ∧
  (Pointset_shape self h).1
  = Raise (AttributeError "'TriMeshFamily' object has no attribute 'coordinates'") ∧
  (Pointset_n_coords self h).1
  = Raise (AttributeError "'TriMeshFamily' object has no attribute 'coordinates'") ∧
  (Pointset_dim_of self h).1
  = Raise (AttributeError "'TriMeshFamily' object has no attribute 'coordinates'") ∧
  (∀ m M, arrays h !! m = Some (Dense M) →
     Pointset_rmatmul self m h
     = (Raise (AttributeError "'TriMeshFamily' object has no attribute 'affine'"), h)).
Proof.
  intros Hself.
  pose proof (λ name, family_get_mesh_run h self triangles coords default
                        name Hself) as Hmesh.
  assert (Hget : ∀ s, TriMeshFamily_get_coords self (VStr s) h
            = match dict_get coords s with
              | Some c => (Ok c, h)
              | None => (Raise (KeyError s), h)
              end).
  { intros s. unfold TriMeshFamily_get_coords.
    rewrite run_bind, (get_object_ok h self _ Hself). py_ret_step.
    by destruct (dict_get coords s). }
  assert (Hfields : instance_fields self h
            = (Raise (AttributeError
                 "'TriMeshFamily' object has no attribute 'coordinates'"), h)).
  { unfold instance_fields. by rewrite run_bind, (get_object_ok h self _ Hself). }
  split; [|split; [|split; [|split; [|split; [|split]]]]].
  - intros name c Hc. by rewrite Hmesh, Hget, Hc.
  - intros c Hc. rewrite Hmesh. unfold TriMeshFamily_get_coords.
    rewrite run_bind, (get_object_ok h self _ Hself). py_ret_step.
    by rewrite Hc.
  - intros name Hc. by rewrite Hmesh, Hget, Hc.
  - unfold Pointset_shape. by rewrite run_bind, Hfields.
  - unfold Pointset_n_coords. by rewrite run_bind, Hfields.
  - unfold Pointset_dim_of. by rewrite run_bind, Hfields.
  - intros m M Hm. unfold Pointset_rmatmul.
    rewrite run_bind, (get_object_ok h self _ Hself).
    rewrite run_bind, (np_asanyarray_dense h m M Hm).
    by rewrite run_bind, (get_dense_ok h m M Hm).
Qed.
End family_results.

(** * Errors of [__rmatmul__] and of [to_mask] without a shape *)

Section rmatmul_errors.
Context {R : Type} `{Scalar R}.

(** X7. A transform of the wrong size is refused at one of two places: an inner
    dimension that differs from the affine's row count makes the product
    itself raise, and the heap is untouched; a product that has another row
    count than the affine is built, and then turned down by the
    constructor. *)
Theorem rmatmul_shape_errors (h : heap R) (self : oref) (cls : class)
    (p : Pointset) (C A : ndarray R) (m : aref) (M : ndarray R) :
  objects h !! self = Some (OPointset cls p) →
  valid_pointset h p C A →
  arrays h !! m = Some (Dense M) →
  ((shape M).2 ≠ (shape A).1 →
   Pointset_rmatmul self m h
   = (Raise (ValueError "matmul: Input operand 1 has a mismatch in its core dimension 0"),
      h)) ∧
  ((shape M).2 = (shape A).1 → (shape M).1 ≠ (shape A).1 →
   ∃ MA, np_matmul M A = Ok MA ∧
         Pointset_rmatmul self m h
         = (Raise (ValueError "Invalid affine for coordinates"),
            Heap (arrays h ++ [Dense MA]) (objects h))).
Proof.
  intros Hself Hvalid Hm.
  pose proof Hvalid as [(o & Hc & Ho & Hshape) HwfC Ha HwfA Hsq Hdim Hlast].
  assert (Hrun : Pointset_rmatmul self m h
            = match np_matmul M A with
              | Ok MA =>
                  Pointset_new cls (VArray (coordinates p))
                    (Some (length (arrays h))) (homogeneous p)
                    (Heap (arrays h ++ [Dense MA]) (objects h))
              | Raise e => (Raise e, h)
              end).
  { unfold Pointset_rmatmul.
    rewrite run_bind, (get_object_ok h self _ Hself).
    rewrite run_bind, (np_asanyarray_dense h m M Hm).
    rewrite run_bind, (get_dense_ok h m M Hm).
    rewrite run_bind, (get_dense_ok h _ A Ha).
    rewrite run_bind. unfold lift at 1.
    destruct (np_matmul M A) as [MA|e]; [|done].
    by rewrite run_bind. }
  split.
  - intros Hne. rewrite Hrun. unfold np_matmul.
    by apply Nat.eqb_neq in Hne as ->.
  - intros Heq Hne. rewrite Hrun. unfold np_matmul.
    apply Nat.eqb_eq in Heq as ->. eexists. split; [done|].
    set (MA := NdArray _ _). set (h1 := Heap _ _).
    unfold Pointset_new. rewrite run_bind.
    rewrite (Pointset_init_checks h1 (coordinates p) (length (arrays h)) o MA
               (homogeneous p)).
    + replace (shape_ne _ _) with true; [done|].
      symmetry. unfold shape_ne. apply negb_true_iff, andb_false_iff. left.
      apply Z.eqb_neq. cbn [MA shape fst]. rewrite Hshape.
      clear -Hne Hdim. destruct (homogeneous p); cbn [Z.b2z]; lia.
    + by apply lookup_app_l_Some.
    + apply lookup_new.
Qed.
End rmatmul_errors.

(** X14. Without a shape, [to_mask] fails on a grid without points as well: the
    row maxima are empty, the mask gets no axes, and the assignment has one
    index too many; with no columns either, the maximum itself is refused. *)
Theorem to_mask_default_shape_empty_grid (h : heap Z) (self : oref)
    (p : Pointset) (C : ndarray Z) :
  objects h !! self = Some (OPointset cls_Grid p) →
  arrays h !! coordinates p = Some (Dense C) →
  data C = [] →
  (0 < (shape C).2 →
   Grid_to_mask self None h
   = (Raise (IndexError "too many indices for array"), h)) ∧
  ((shape C).2 = 0 →
   Grid_to_mask self None h
   = (Raise (ValueError "zero-size array to reduction operation maximum which has no identity"),
      h)).
Proof.
  intros Hself Hc Hdata.
  assert (Hrun : Grid_to_mask self None h
            = match np_max_axis1 C with
              | Ok _ => (Raise (IndexError "too many indices for array"), h)
              | Raise e => (Raise e, h)
              end).
  { unfold Grid_to_mask. rewrite run_bind, (get_object_ok h self _ Hself).
    rewrite run_bind, run_bind, (np_asanyarray_dense h _ C Hc).
    rewrite run_bind, (get_dense_ok h _ C Hc).
    rewrite run_bind. unfold lift at 1. unfold np_max_axis1.
    destruct ((shape C).2 =? 0); [done|].
    rewrite run_bind, (Pointset_dim_ok h _ (Dense C) _ Hc).
    rewrite Hdata. cbn [map].
    replace (py_slice_stop _ []) with (@nil Z)
      by (unfold py_slice_stop; destruct (_ <? 0)%Z; by rewrite take_nil).
    unfold lift at 1.
    change (mapM extent []) with (Ok (@nil nat) : result (list nat)).
    cbv beta iota.
    rewrite run_bind, (np_asanyarray_dense h _ C Hc).
    rewrite run_bind, (get_dense_ok h _ C Hc).
    rewrite run_bind, (Pointset_dim_ok h _ (Dense C) _ Hc).
    by rewrite run_bind. }
  rewrite Hrun. unfold np_max_axis1. split.
  - intros Hk. destruct ((shape C).2 =? 0) eqn:Hk0; [|done].
    apply Nat.eqb_eq in Hk0. lia.
  - by intros ->.
Qed.

(** * Instances of the further results *)

Lemma foldr_max_bound (shp : list nat) :
  Forall (λ s, s ≤ foldr Nat.max 0 shp) shp.
Proof.
  induction shp as [|s shp IH]; [constructor|].
  cbn [foldr]. apply Forall_cons_iff. split; [lia|].
  eapply List.Forall_impl; [|exact IH]. cbn. lia.
Qed.

(** The type [smallest_uint] answers with holds the extents. *)
#[global] Instance smallest_uint_exact : ExactCasting.
Proof.
  intros shp dt. cbn [able_int_type smallest_uint].
  pose proof (foldr_max_bound shp) as Hmax.
  set (m := foldr Nat.max 0 shp) in *. intros [= <-].
  assert (Hle : ∀ hi : Z, (Z.of_nat m < hi)%Z →
            Forall (λ s, (Z.of_nat s ≤ hi)%Z) shp).
  { intros hi Hm. eapply List.Forall_impl; [|exact Hmax]. cbn. lia. }
  repeat case_match; try done; cbn [dtype_holds dtype_range snd];
    apply Hle; by apply Z.ltb_lt.
Qed.

Lemma Pointset_init_establishes_invariant_witness :
  Pointset_init (VArray 0) (Some 1) false ex_heap = (Ok ex_pointset, ex_heap) ∧
  ex_heap = ex_heap ∧ ex_pointset = mkPointset 0 1 false ∧
  valid_pointset ex_heap ex_pointset ex_coords ex_affine.
Proof.
  split; [reflexivity|].
  apply (Pointset_init_establishes_invariant ex_heap ex_heap 0 1
           (Dense ex_coords) ex_coords ex_affine false ex_pointset);
    [reflexivity | reflexivity | reflexivity
    | split; [reflexivity | repeat constructor] | reflexivity
    | split; [reflexivity | repeat constructor] | reflexivity].
Defined.

Lemma Pointset_init_default_affine_witness :
  Pointset_init (VArray 0) None false ex_heap
  = (Ok (mkPointset 0 5 false),
     Heap (arrays ex_heap ++ [Dense (np_eye 4)]) (objects ex_heap)) ∧
  valid_pointset (Heap (arrays ex_heap ++ [Dense (np_eye 4)]) (objects ex_heap))
    (mkPointset 0 5 false) ex_coords (np_eye 4).
Proof.
  assert (Hwf : wf_ndarray ex_coords)
    by (split; [reflexivity | repeat constructor]).
  apply (proj1 (Pointset_init_default_affine ex_heap 0 (Dense ex_coords)
                  ex_coords false eq_refl eq_refl eq_refl Hwf)).
  cbn. lia.
Defined.

Lemma rmatmul_preserves_invariant_witness :
  valid_pointset ex_heap ex_pointset ex_coords ex_affine ∧
  ∃ q h' p' MA,
    Pointset_rmatmul 0 2 ex_heap = (Ok q, h') ∧
    objects h' !! q = Some (OPointset cls_Pointset p') ∧
    np_matmul ex_outer ex_affine = Ok MA ∧
    valid_pointset h' p' ex_coords MA ∧
    valid_pointset h' ex_pointset ex_coords ex_affine.
Proof.
  split; [ex_valid|].
  apply (rmatmul_preserves_invariant ex_heap 0 cls_Pointset ex_pointset
           ex_coords ex_affine 2 ex_outer);
    [reflexivity | ex_valid | reflexivity
    | split; [reflexivity | repeat constructor] | reflexivity | reflexivity].
Defined.

Lemma rmatmul_identity_witness :
  valid_pointset ex_identity_heap ex_pointset ex_coords ex_affine ∧
  ∃ q h' p' r1 h1 r2 h2 X,
    Pointset_rmatmul 0 2 ex_identity_heap = (Ok q, h') ∧
    objects h' !! q = Some (OPointset cls_Pointset p') ∧
    arrays h' !! affine p' = Some (Dense ex_affine) ∧
    Pointset_get_coords p' false h' = (Ok r1, h1) ∧
    Pointset_get_coords ex_pointset false h' = (Ok r2, h2) ∧
    arrays h1 !! r1 = Some (Dense X) ∧
    arrays h2 !! r2 = Some (Dense X).
Proof.
  assert (Hvalid : valid_pointset ex_identity_heap ex_pointset ex_coords ex_affine)
    by ex_valid.
  split; [exact Hvalid|].
  apply (rmatmul_identity ex_identity_heap 0 cls_Pointset ex_pointset ex_coords
           ex_affine 2 false); [reflexivity | exact Hvalid | reflexivity].
Defined.

Lemma get_coords_homogeneous_entry_witness :
  valid_pointset ex_heap ex_pointset ex_coords ex_affine ∧
  ∃ rh hh Xh rc hc Xc,
    Pointset_get_coords ex_pointset true ex_heap = (Ok rh, hh) ∧
    arrays hh !! rh = Some (Dense Xh) ∧
    Pointset_get_coords ex_pointset false ex_heap = (Ok rc, hc) ∧
    arrays hc !! rc = Some (Dense Xc) ∧
    (∀ i, i < (shape ex_coords).1 →
       list.last (nth i (data Xh) [])
       = list.last (homogenize (homogeneous ex_pointset)
                      (nth i (data ex_coords) []))) ∧
    (homogeneous ex_pointset = false →
     Forall (λ r, list.last r = Some sone) (data Xh)) ∧
    data Xc = map (λ r, take (length r - 1) r) (data Xh).
Proof.
  split; [ex_valid|].
  apply (get_coords_homogeneous_entry ex_heap ex_pointset ex_coords ex_affine).
  ex_valid.
Defined.

Lemma default_pointset_returns_its_array_witness :
  arrays ex_heap !! 0 = Some (Dense ex_coords) ∧
  ∃ p h',
    Pointset_init (VArray 0) None false ex_heap = (Ok p, h') ∧
    coordinates p = 0 ∧
    Pointset_get_coords p false h' = (Ok 0, h').
Proof.
  split; [reflexivity|].
  apply (default_pointset_returns_its_array ex_heap 0 ex_coords false);
    [reflexivity | reflexivity | reflexivity | exact I].
Defined.

Lemma GridIndices_rows_exact_witness :
  GridIndices_init [2; 3] None = Ok (uint8_grid [2; 3]) ∧
  ∃ X, GridIndices_array (uint8_grid [2; 3]) (Some int8) = Ok X ∧
       shape X = lazy_shape (uint8_grid [2; 3]) ∧
       wf_ndarray X ∧
       data X = map (map (arange_value (Some int8))) (ij_rows [2; 3]) ∧
       (dtype_holds (Some int8) [2; 3] →
        base.NoDup (data X) ∧
        ∀ r, r ∈ data X ↔ ∃ k, in_grid [2; 3] k ∧ r = map Z.of_nat k).
Proof.
  split; [reflexivity|].
  apply (GridIndices_rows_exact [2; 3] None (Some int8) (uint8_grid [2; 3]));
    [discriminate | reflexivity].
Defined.

Lemma Grid_from_image_spec_witness :
  arrays ex_mask_heap !! 0 = Some (Dense (np_eye 4)) ∧
  Grid_from_image [2; 2; 2; 5] 0 ex_mask_heap
  = (Ok 0,
     Heap [Dense (np_eye 4); Lazy (uint8_grid [2; 2; 2])]
          [OPointset cls_Grid (mkPointset 1 0 false)]) ∧
  Grid_from_image [2; 2] 0 ex_mask_heap
  = (Raise (ValueError "Invalid affine for coordinates"),
     Heap [Dense (np_eye 4); Lazy (uint8_grid [2; 2])] []).
Proof.
  assert (Hwf : wf_ndarray (np_eye 4 : ndarray Z))
    by (split; [reflexivity | repeat constructor]).
  split; [reflexivity|]. split.
  - pose proof (Grid_from_image_spec ex_mask_heap [2; 2; 2; 5] 0 (np_eye 4)
                  (Some uint8)) as Hspec.
    apply (proj1 (Hspec eq_refl Hwf eq_refl)); reflexivity.
  - pose proof (Grid_from_image_spec ex_mask_heap [2; 2] 0 (np_eye 4)
                  (Some uint8)) as Hspec.
    apply (proj2 (Hspec eq_refl Hwf eq_refl)). discriminate.
Defined.

Lemma Grid_from_mask_spec_witness :
  arrays ex_mask_heap !! img_affine ex_mask = Some (Dense (np_eye 4)) ∧
  Grid_from_mask ex_mask ex_mask_heap
  = (Ok 0,
     Heap [Dense (np_eye 4); Dense (NdArray (1, 3) [[0; 1; 0]]%Z)]
          [OPointset cls_Grid (mkPointset 1 0 false)]) ∧
  valid_pointset
    (Heap [Dense (np_eye 4); Dense (NdArray (1, 3) [[0; 1; 0]]%Z)]
          [OPointset cls_Grid (mkPointset 1 0 false)])
    (mkPointset 1 0 false) (NdArray (1, 3) [[0; 1; 0]]%Z) (np_eye 4) ∧
  Forall (in_grid [2; 2; 2]) [[0; 1; 0]].
Proof.
  assert (Hwf : wf_ndarray (np_eye 4 : ndarray Z))
    by (split; [reflexivity | repeat constructor]).
  assert (Hne : nshape (dataobj ex_mask) ≠ []) by discriminate.
  split; [reflexivity|].
  pose proof (Grid_from_mask_spec ex_mask_heap ex_mask (np_eye 4) (Some uint8))
    as Hspec.
  exact (Hspec Hne eq_refl eq_refl Hwf eq_refl eq_refl eq_refl).
Defined.

Lemma Grid_to_mask_marks_slabs_witness :
  objects ex_grid_heap !! 0 = Some (OPointset cls_Grid (mkPointset 1 0 false)) ∧
  Grid_to_mask 0 (Some [3; 1]) ex_grid_heap
  = (Ok (mkSpatialImage (NdArrayN [3; 1] [true; true; true]) 0), ex_grid_heap) ∧
  Grid_to_mask 0 (Some [2; 1]) ex_grid_heap
  = (Raise (IndexError "index is out of bounds for axis 0"), ex_grid_heap).
Proof.
  split; [reflexivity|].
  assert (Hwf : wf_ndarray ex_grid_coords)
    by (split; [reflexivity | repeat constructor]).
  split.
  - apply (proj1 (Grid_to_mask_marks_slabs ex_grid_heap 0 (mkPointset 1 0 false)
                    ex_grid_coords 3 [1] eq_refl eq_refl Hwf)).
    cbn. repeat constructor; lia.
  - apply (proj2 (Grid_to_mask_marks_slabs ex_grid_heap 0 (mkPointset 1 0 false)
                    ex_grid_coords 2 [1] eq_refl eq_refl Hwf)).
    cbn. intros Hall. apply Forall_cons_iff in Hall as [_ Hall].
    apply Forall_cons_iff in Hall as [_ Hall].
    apply Forall_cons_iff in Hall as [Hbad _]. lia.
Defined.

Lemma mask_round_trip_witness :
  nshape (dataobj ex_mask) = [2; 2; 2] ∧
  (Forall (λ x, x = 0%Z) (flat (dataobj ex_mask)) →
   ((g ← Grid_from_mask ex_mask; Grid_to_mask g (Some [2; 2; 2])) ex_mask_heap).1
   = Ok (mkSpatialImage (np_bool_ (dataobj ex_mask)) (img_affine ex_mask))) ∧
  (∀ q1 q2,
     nth q1 (flat (dataobj ex_mask)) 0%Z ≠ 0%Z →
     q2 < 2 * math_prod [2; 2] → nth q2 (flat (dataobj ex_mask)) 0%Z = 0%Z →
     q1 / math_prod [2; 2] = q2 / math_prod [2; 2] →
     ∀ img,
       ((g ← Grid_from_mask ex_mask; Grid_to_mask g (Some [2; 2; 2]))
          ex_mask_heap).1 = Ok img →
       dataobj img ≠ np_bool_ (dataobj ex_mask)).
Proof.
  split; [reflexivity|].
  apply (mask_round_trip ex_mask_heap ex_mask (np_eye 4) (Some uint8) 2 [2; 2]);
    reflexivity.
Defined.

Lemma TriangularMesh_accessors_witness :
  arrays ex_mesh_heap !! 0 = Some (Dense (NdArray (2, 3) [[0; 0; 0]; [1; 0; 0]]%Z)) ∧
  ∃ m h',
    TriangularMesh_init (VTuple [VArray 0; VArray 2]) ex_mesh_heap = (Ok m, h') ∧
    TriangularMesh_get_triangles m h' = (Ok (VArray 2), h') ∧
    Pointset_shape m h' = (Ok (2, 3), h') ∧
    Pointset_n_coords m h' = (Ok 2, h') ∧
    Pointset_dim_of m h' = (Ok 3%Z, h') ∧
    (∀ l ot, VArray 2 = VArray l → arrays ex_mesh_heap !! l = Some ot →
       TriangularMesh_n_triangles m h' = (Ok (obj_shape ot).1, h')) ∧
    (VArray 2 = VNone →
     TriangularMesh_n_triangles m h'
     = (Raise (AttributeError "object has no attribute 'shape'"), h')) ∧
    TriangularMesh_get_names m h' = (Raise NotImplementedError, h') ∧
    TriangularMesh_get_mesh m VNone h'
    = (Raise (TypeError "get_coords() got an unexpected keyword argument"), h').
Proof.
  split; [reflexivity|].
  apply (TriangularMesh_accessors ex_mesh_heap 0
           (Dense (NdArray (2, 3) [[0; 0; 0]; [1; 0; 0]]%Z)) (VArray 2) VNone).
  reflexivity.
Defined.

Lemma TriMeshFamily_inherited_witness :
  TriangularMesh_get_mesh 0 (VStr "white") ex_family_heap
  = (Ok (VTuple [VArray 1; VArray 2]), ex_family_heap) ∧
  TriangularMesh_get_mesh 0 VNone ex_family_heap
  = (Ok (VTuple [VArray 0; VArray 2]), ex_family_heap) ∧
  TriangularMesh_get_mesh 0 (VStr "inflated") ex_family_heap
  = (Raise (KeyError "inflated"), ex_family_heap) ∧
  (Pointset_n_coords 0 ex_family_heap).1
  = Raise (AttributeError "'TriMeshFamily' object has no attribute 'coordinates'") ∧
  Pointset_rmatmul 0 2 ex_family_heap
  = (Raise (AttributeError "'TriMeshFamily' object has no attribute 'affine'"),
     ex_family_heap).
Proof.
  pose proof (TriMeshFamily_inherited ex_family_heap 0 (VArray 2)
                [("pial", VArray 0); ("white", VArray 1)] "pial" eq_refl)
    as (Hname & Hdefault & Hmissing & _ & Hn & _ & Hmul).
  split; [apply Hname; reflexivity|].
  split; [apply Hdefault; reflexivity|].
  split; [apply Hmissing; reflexivity|].
  split; [exact Hn|].
  apply (Hmul 2 (NdArray (1, 3) [[0; 1; 0]]%Z)). reflexivity.
Defined.

Lemma rmatmul_shape_errors_witness :
  valid_pointset ex_heap ex_pointset ex_coords ex_affine ∧
  Pointset_rmatmul 0 3 ex_heap
  = (Raise (ValueError "matmul: Input operand 1 has a mismatch in its core dimension 0"),
     ex_heap).
Proof.
  assert (Hvalid : valid_pointset ex_heap ex_pointset ex_coords ex_affine)
    by ex_valid.
  split; [exact Hvalid|].
  apply (proj1 (rmatmul_shape_errors ex_heap 0 cls_Pointset ex_pointset
                  ex_coords ex_affine 3 ex_bad_shape eq_refl Hvalid eq_refl)).
  cbn. lia.
Defined.

Lemma to_mask_default_shape_empty_grid_witness :
  objects ex_empty_grid_heap !! 0 = Some (OPointset cls_Grid (mkPointset 1 0 false)) ∧
  Grid_to_mask 0 None ex_empty_grid_heap
  = (Raise (IndexError "too many indices for array"), ex_empty_grid_heap).
Proof.
  split; [reflexivity|].
  apply (proj1 (to_mask_default_shape_empty_grid ex_empty_grid_heap 0
                  (mkPointset 1 0 false) (NdArray (0, 3) []) eq_refl eq_refl
                  eq_refl)).
  cbn. lia.
Defined.
